(** * sn-server: the revision transition engine, the transition scheduler
      and the sync item updater

    A shallow embedding of

    - [TransitionRevisionsFromPrimaryToSecondaryDatabaseForUser] (the per-user
      migrator and its integrity verifier),
    - [requestTransition] of [packages/auth/bin/transition.ts] (the scheduler
      driver),
    - [UpdateExistingItem] (the sync item updater),

    with the properties the specification states about them. *)

From Stdlib Require Import ZArith Lia Ascii String DecimalString.
From stdpp Require Import base decidable option list strings gmap.

Local Open Scope string_scope.
Local Open Scope Z_scope.

(** ** Values shared by the three use cases *)

Module Core.

(** [Result<T>] of domain-core: a value or an error string. *)
Inductive Result (A : Type) : Type :=
| Ok (value : A)
| Fail (error : string).
Arguments Ok {A} value.
Arguments Fail {A} error.

Definition isFailed {A} (r : Result A) : bool :=
  match r with Ok _ => false | Fail _ => true end.

(** [TransitionStatus.STATUSES]. *)
Inductive Status : Type := InProgress | Failed | Verified.

#[global] Instance Status_eq_dec : EqDecision Status.
Proof. solve_decision. Defined.

Definition isHexDigit (c : ascii) : bool :=
  let n := nat_of_ascii c in
  ((48 <=? n) && (n <=? 57) || (97 <=? n) && (n <=? 102)
   || (65 <=? n) && (n <=? 70))%nat.

Definition isDash (c : ascii) : bool := (nat_of_ascii c =? 45)%nat.

(** The groups of a textual identifier: 8-4-4-4-12 hexadecimal digits. *)
Fixpoint matchesGroups (groups : list nat) (cs : list ascii) : bool :=
  match groups with
  | [] => match cs with [] => true | _ => false end
  | g :: rest =>
      forallb isHexDigit (take g cs)
      && (length (take g cs) =? g)%nat
      && match rest, drop g cs with
         | [], [] => true
         | _ :: _, d :: cs' => isDash d && matchesGroups rest cs'
         | _, _ => false
         end
  end.

(** Modelled from the spec: [Uuid.create] of domain-core is not part of the
    sources; the specification only says that an identifier is a 128-bit
    opaque value which either parses or does not.  The model accepts the
    canonical 8-4-4-4-12 hexadecimal text. *)
Definition isValidUuid (s : string) : bool :=
  matchesGroups [8; 4; 4; 4; 12]%nat (list_ascii_of_string s).

Definition Uuid_create (s : string) : Result string :=
  if isValidUuid s then Ok s
  else Fail ("Given value is not a valid uuid: " +:+ s).

(** Decimal rendering of a number inside a template string. *)
Definition showZ (z : Z) : string := NilZero.string_of_int (Z.to_int z).

(** [Math.ceil (count / size)] for a non-negative count and a positive
    page size, the only way the sources use it. *)
Definition ceilDiv (count : Z) (size : positive) : Z :=
  (count + Z.pos size - 1) / Z.pos size.

(** [a % b === 0] of JavaScript: the remainder takes the sign of the
    dividend and a zero divisor gives NaN, which is not equal to 0. *)
Definition remIsZero (a b : Z) : bool :=
  if b =? 0 then false else Z.rem a b =? 0.

End Core.

Import Core.

(** ** The per-user migrator and the integrity verifier *)

Module Revisions.

(** *** Data *)

Record Revision : Type := mkRevision {
  revisionId : string;
  userUuid : string;
  itemUuid : string;
  content : string;
  contentType : string;
  createdAt : Z;
  updatedAt : Z
}.

#[global] Instance Revision_eq_dec : EqDecision Revision.
Proof. solve_decision. Defined.

(** Modelled from the spec: [Revision.isIdenticalTo] is not part of the
    sources; two revisions are identical iff all payload fields and both
    timestamps are equal. *)
Definition isIdenticalTo (a b : Revision) : bool := bool_decide (a = b).

Definition quote : string := String (ascii_of_nat 34) EmptyString.

Definition jsonField (name value : string) : string :=
  quote +:+ name +:+ quote +:+ ":" +:+ value.

Definition jsonText (s : string) : string := quote +:+ s +:+ quote.

(** Modelled from the spec: the JSON shape of a revision entity is not part
    of the sources; [JSON.stringify] renders the fields in declaration
    order. *)
Definition stringify (r : Revision) : string :=
  "{" +:+ jsonField "id" (jsonText (revisionId r))
  +:+ "," +:+ jsonField "userUuid" (jsonText (userUuid r))
  +:+ "," +:+ jsonField "itemUuid" (jsonText (itemUuid r))
  +:+ "," +:+ jsonField "content" (jsonText (content r))
  +:+ "," +:+ jsonField "contentType" (jsonText (contentType r))
  +:+ "," +:+ jsonField "createdAt" (showZ (createdAt r))
  +:+ "," +:+ jsonField "updatedAt" (showZ (updatedAt r)) +:+ "}".

(** The two revision stores and the transition status store (the paging
    and integrity cursors, one per user). *)
Record Stores : Type := mkStores {
  primaryDb : list Revision;
  secondaryDb : list Revision;
  pagingProgress : gmap string Z;
  integrityProgress : gmap string Z
}.

Inductive Db : Type := Primary | Secondary.

Definition getDb (db : Db) (s : Stores) : list Revision :=
  match db with Primary => primaryDb s | Secondary => secondaryDb s end.

Definition setDb (db : Db) (l : list Revision) (s : Stores) : Stores :=
  match db with
  | Primary =>
      mkStores l (secondaryDb s) (pagingProgress s) (integrityProgress s)
  | Secondary =>
      mkStores (primaryDb s) l (pagingProgress s) (integrityProgress s)
  end.

(** *** Effects *)

(** The calls of [RevisionRepositoryInterface]. *)
Inductive Call : Type :=
| CountByUserUuid (user : string)
| FindByUserUuid (user : string) (offset limit : Z)
| FindOneByUuid (rid user : string)
| Insert (r : Revision)
| RemoveOneByUuid (rid user : string)
| RemoveByUserUuid (user : string).

(** Everything the use case does to its collaborators, in order.  A
    published status event remembers the stores as they are when it goes
    out.  Of the logger only the error lines are kept; the informational
    lines and the timing of the run that they report are left out. *)
Inductive Effect : Type :=
| RepoCall (db : Db) (c : Call)
| GetPagingProgress (user : string)
| SetPagingProgress (user : string) (page : Z)
| GetIntegrityProgress (user : string)
| SetIntegrityProgress (user : string) (page : Z)
| Published (user : string) (status : Status) (transitionTimestamp : Z)
            (now : Stores)
| Slept (milliseconds : Z)
| LoggedError (message : string).

(** What a revision repository does when it is called: it answers, it
    throws, or (an insert only) it reports that nothing was saved. *)
Inductive Behaviour : Type :=
| Succeed
| Throw (message : string)
| Refuse.

(** The world of one run: the stores, how the [n]-th repository call will
    behave, the number of repository calls made so far, and the effects so
    far (oldest first).  The transition status store and the event
    publisher are taken to be reliable. *)
Record World : Type := mkWorld {
  stores : Stores;
  faults : nat -> Behaviour;
  calls : nat;
  history : list Effect
}.

Definition setStores (s : Stores) (w : World) : World :=
  mkWorld s (faults w) (calls w) (history w).

Definition record (e : Effect) (w : World) : World :=
  mkWorld (stores w) (faults w) (calls w) (history w ++ [e])%list.

Definition tick (w : World) : World :=
  mkWorld (stores w) (faults w) (S (calls w)) (history w).

(** An asynchronous computation: it returns a value or throws an error
    message; the world it leaves behind is kept in both cases. *)
Definition M (A : Type) : Type := World -> (string + A) * World.

Definition ret {A} (a : A) : M A := fun w => (inr a, w).

Definition throw {A} (message : string) : M A := fun w => (inl message, w).

Definition bind {A B} (m : M A) (k : A -> M B) : M B :=
  fun w =>
    match m w with
    | (inr a, w') => k a w'
    | (inl e, w') => (inl e, w')
    end.

Definition tryCatch {A} (m : M A) (handler : string -> M A) : M A :=
  fun w =>
    match m w with
    | (inr a, w') => (inr a, w')
    | (inl e, w') => handler e w'
    end.

Notation "'let*' x ':=' m 'in' k" := (bind m (fun x => k))
  (at level 10, x name, m at level 100, k at level 200).
Notation "m ';;' k" := (bind m (fun _ => k))
  (at level 100, k at level 200, right associativity).

Definition perform (e : Effect) : M unit := fun w => (inr tt, record e w).

Fixpoint forEach {A} (l : list A) (body : A -> M unit) : M unit :=
  match l with
  | [] => ret tt
  | x :: rest => body x ;; forEach rest body
  end.

(** A loop whose body may [return] from the enclosing function. *)
Fixpoint forEachUntil {A R} (l : list A) (body : A -> M (option R))
  : M (option R) :=
  match l with
  | [] => ret None
  | x :: rest =>
      let* early := body x in
      match early with
      | Some r => ret (Some r)
      | None => forEachUntil rest body
      end
  end.

(** The pages of [for (p = initialPage; p <= totalPages; p++)]. *)
Definition pagesFrom (initialPage totalPages : Z) : list Z :=
  seqZ initialPage (totalPages - initialPage + 1).

(** [Result.getValue]: throws on a failed result. *)
Definition getValue {A} (r : Result A) : M A :=
  match r with
  | Ok v => ret v
  | Fail e => throw ("Cannot get value of an unsuccessfull result: " +:+ e)
  end.

(** *** The repositories *)

(** Modelled from the spec: the repository implementations are not part of
    the sources.  A store keeps its revisions in insertion order;
    [findByUserUuid] pages through one user's revisions in that order. *)
Definition revisionsOf (user : string) (l : list Revision) : list Revision :=
  filter (fun r => userUuid r = user) l.

Definition named (rid user : string) (r : Revision) : Prop :=
  revisionId r = rid /\ userUuid r = user.

#[global] Instance named_dec rid user r : Decision (named rid user r).
Proof. unfold named. apply _. Defined.

Definition lookupRevision (rid user : string) (l : list Revision)
  : option Revision :=
  head (filter (named rid user) l).

Definition page (user : string) (offset limit : Z) (l : list Revision)
  : list Revision :=
  take (Z.to_nat limit) (drop (Z.to_nat offset) (revisionsOf user l)).

(** One call of a revision repository: the call is recorded and counted,
    then the scheduled behaviour decides what happens.  [refused] is the
    answer of a call that can report a missed write. *)
Definition repoCall {A} (db : Db) (c : Call)
    (normal : list Revision -> A * list Revision) (refused : option A)
  : M A :=
  fun w =>
    let w1 := tick (record (RepoCall db c) w) in
    let run :=
      let '(a, l) := normal (getDb db (stores w1)) in
      (inr a, setStores (setDb db l (stores w1)) w1) in
    match faults w (calls w) with
    | Succeed => run
    | Throw message => (inl message, w1)
    | Refuse => match refused with Some a => (inr a, w1) | None => run end
    end.

Definition countByUserUuid (db : Db) (user : string) : M Z :=
  repoCall db (CountByUserUuid user)
    (fun l => (Z.of_nat (length (revisionsOf user l)), l)) None.

Definition findByUserUuid (db : Db) (user : string) (offset limit : Z)
  : M (list Revision) :=
  repoCall db (FindByUserUuid user offset limit)
    (fun l => (page user offset limit l, l)) None.

Definition findOneByUuid (db : Db) (rid user : string)
  : M (option Revision) :=
  repoCall db (FindOneByUuid rid user)
    (fun l => (lookupRevision rid user l, l)) None.

Definition insert (db : Db) (r : Revision) : M bool :=
  repoCall db (Insert r) (fun l => (true, (l ++ [r])%list)) (Some false).

Definition removeOneByUuid (db : Db) (rid user : string) : M unit :=
  repoCall db (RemoveOneByUuid rid user)
    (fun l => (tt, filter (fun r => ~ named rid user r) l)) None.

Definition removeByUserUuid (db : Db) (user : string) : M unit :=
  repoCall db (RemoveByUserUuid user)
    (fun l => (tt, filter (fun r => userUuid r <> user) l)) None.

(** Modelled from the spec: [TransitionRepositoryInterface] is not part of
    the sources; both cursors are positive integers with default 1.  Its
    calls are taken to answer: a call that rejects is outside the model.
    In [execute] the two calls that reset the cursors after a failed check
    are awaited outside every [try], so a rejection of one of them would
    escape [execute]. *)
Definition getPagingProgress (user : string) : M Z :=
  fun w => (inr (default 1 (pagingProgress (stores w) !! user)),
            record (GetPagingProgress user) w).

Definition setPagingProgress (user : string) (p : Z) : M unit :=
  fun w =>
    let s := stores w in
    (inr tt,
     record (SetPagingProgress user p)
       (setStores (mkStores (primaryDb s) (secondaryDb s)
                     (<[user := p]> (pagingProgress s))
                     (integrityProgress s)) w)).

Definition getIntegrityProgress (user : string) : M Z :=
  fun w => (inr (default 1 (integrityProgress (stores w) !! user)),
            record (GetIntegrityProgress user) w).

Definition setIntegrityProgress (user : string) (p : Z) : M unit :=
  fun w =>
    let s := stores w in
    (inr tt,
     record (SetIntegrityProgress user p)
       (setStores (mkStores (primaryDb s) (secondaryDb s)
                     (pagingProgress s)
                     (<[user := p]> (integrityProgress s))) w)).

Definition logError (message : string) : M unit :=
  perform (LoggedError message).

(** *** The use case *)

Record UseCase : Type := mkUseCase {
  secondRevisionsRepositoryIsSet : bool;
  transitionStatusRepositoryIsSet : bool;
  pageSize : positive
}.

Record DTO : Type := mkDTO {
  dtoUserUuid : string;
  dtoTimestamp : Z
}.

Section UseCase.

Variable this : UseCase.

(** The publisher is taken to accept every event: a [publish] that rejects
    is outside the model.  In [execute] the status updates are awaited
    outside every [try], so a rejection of one of them would escape
    [execute]; inside [migrateRevisionsForUser] it would be caught. *)
Definition updateTransitionStatus (user : string) (status : Status)
    (timestamp : Z) : M unit :=
  fun w => (inr tt, record (Published user status timestamp (stores w)) w).

Definition isAlreadyMigrated (user : string) : M bool :=
  let* totalRevisionsCountForUserInSecondary :=
    countByUserUuid Secondary user in
  ret (totalRevisionsCountForUserInSecondary =? 0).

Definition allowForPrimaryDatabaseToCatchUp : M unit :=
  let twoSecondsInMilliseconds := 2000 in
  perform (Slept twoSecondsInMilliseconds).

Definition saveRevision (revision : Revision) : M unit :=
  let* didSave := insert Primary revision in
  if negb didSave
  then logError ("Failed to save revision " +:+ revisionId revision
                 +:+ " to primary database")
  else ret tt.

(** The body of the inner [try] of [migrateRevisionsForUser]. *)
Definition migrateRevisionBody (revision : Revision) : M unit :=
  let* rid := getValue (Uuid_create (revisionId revision)) in
  let* revisionInPrimary := findOneByUuid Primary rid (userUuid revision) in
  match revisionInPrimary with
  | Some found =>
      if updatedAt found >? updatedAt revision then ret tt
      else if isIdenticalTo found revision then ret tt
      else
        let* pid := getValue (Uuid_create (revisionId found)) in
        removeOneByUuid Primary pid (userUuid found) ;;
        allowForPrimaryDatabaseToCatchUp ;;
        saveRevision revision
  | None => saveRevision revision
  end.

Definition migrateRevision (revision : Revision) : M unit :=
  tryCatch (migrateRevisionBody revision)
    (fun message =>
       logError ("Errored when saving revision " +:+ revisionId revision
                 +:+ " to primary database: " +:+ message)).

Definition migratePage (user : string) (timestamp : Z) (totalPages : Z)
    (currentPage : Z) : M unit :=
  let isPageInEvery10Percent :=
    remIsZero currentPage (ceilDiv totalPages 10) in
  (if isPageInEvery10Percent
   then updateTransitionStatus user InProgress timestamp
   else ret tt) ;;
  setPagingProgress user currentPage ;;
  let* revisions :=
    findByUserUuid Secondary user
      ((currentPage - 1) * Z.pos (pageSize this)) (Z.pos (pageSize this)) in
  forEach revisions migrateRevision.

Definition migrateRevisionsForUser (user : string) (timestamp : Z)
  : M (Result unit) :=
  tryCatch
    (let* initialPage := getPagingProgress user in
     let* totalRevisionsCountForUser := countByUserUuid Secondary user in
     let totalPages :=
       ceilDiv totalRevisionsCountForUser (pageSize this) in
     forEach (pagesFrom initialPage totalPages)
       (migratePage user timestamp totalPages) ;;
     ret (Ok tt))
    (fun message =>
       ret (Fail ("Errored when migrating revisions for user " +:+ user
                  +:+ ": " +:+ message))).

Definition deleteRevisionsForUser (user : string) (db : Db)
  : M (Result unit) :=
  tryCatch
    (removeByUserUuid db user ;; ret (Ok tt))
    (fun message =>
       ret (Fail ("Errored when deleting revisions for user " +:+ user
                  +:+ ": " +:+ message))).

Definition notIdenticalMessage (revision found : Revision) : string :=
  "Revision " +:+ revisionId revision
  +:+ " is not identical in primary and secondary database. "
  +:+ "Revision in primary database: " +:+ stringify found
  +:+ ", revision in secondary database: " +:+ stringify revision.

(** The body of the inner loop of the integrity check; [Some r] is a
    [return r] out of the whole check. *)
Definition checkRevision (user : string) (revision : Revision)
  : M (option (Result unit)) :=
  match Uuid_create (revisionId revision) with
  | Fail e => ret (Some (Fail e))
  | Ok revisionUuid =>
      let* revisionInPrimary := findOneByUuid Primary revisionUuid user in
      match revisionInPrimary with
      | None =>
          ret (Some (Fail ("Revision " +:+ revisionId revision
                           +:+ " not found in primary database")))
      | Some found =>
          if updatedAt found >? updatedAt revision then ret None
          else if isIdenticalTo revision found then ret None
          else ret (Some (Fail (notIdenticalMessage revision found)))
      end
  end.

Definition checkPage (user : string) (currentPage : Z)
  : M (option (Result unit)) :=
  setIntegrityProgress user currentPage ;;
  let* revisions :=
    findByUserUuid Secondary user
      ((currentPage - 1) * Z.pos (pageSize this)) (Z.pos (pageSize this)) in
  forEachUntil revisions (checkRevision user).

Definition countMismatchMessage (user : string) (inPrimary inSecondary : Z)
  : string :=
  "Total revisions count for user " +:+ user +:+ " in primary database ("
  +:+ showZ inPrimary
  +:+ ") does not match total revisions count in secondary database ("
  +:+ showZ inSecondary +:+ ")".

Definition checkIntegrityBetweenPrimaryAndSecondaryDatabase (user : string)
  : M (Result unit) :=
  tryCatch
    (let* initialPage := getIntegrityProgress user in
     let* totalRevisionsCountForUserInSecondary :=
       countByUserUuid Secondary user in
     let* totalRevisionsCountForUserInPrimary :=
       countByUserUuid Primary user in
     if totalRevisionsCountForUserInPrimary
        <? totalRevisionsCountForUserInSecondary
     then ret (Fail (countMismatchMessage user
                       totalRevisionsCountForUserInPrimary
                       totalRevisionsCountForUserInSecondary))
     else
       let totalPages :=
         ceilDiv totalRevisionsCountForUserInPrimary (pageSize this) in
       let* early :=
         forEachUntil (pagesFrom initialPage totalPages) (checkPage user) in
       match early with
       | Some r => ret r
       | None => ret (Ok tt)
       end)
    (fun message =>
       ret (Fail ("Errored when checking integrity between primary and "
                  +:+ "secondary database: " +:+ message))).

(** What [execute] does once the integrity check has answered. *)
Definition finish (user : string) (timestamp : Z)
    (integrityCheckResult : Result unit) : M (Result unit) :=
  match integrityCheckResult with
  | Fail e =>
      setPagingProgress user 1 ;;
      setIntegrityProgress user 1 ;;
      updateTransitionStatus user Failed timestamp ;;
      ret (Fail e)
  | Ok _ =>
      let* cleanupResult := deleteRevisionsForUser user Secondary in
      match cleanupResult with
      | Fail e =>
          updateTransitionStatus user Failed timestamp ;;
          logError ("[" +:+ user
                    +:+ "] Failed to clean up secondary database revisions: "
                    +:+ e)
      | Ok _ => ret tt
      end ;;
      updateTransitionStatus user Verified timestamp ;;
      ret (Ok tt)
  end.

Definition execute (dto : DTO) : M (Result unit) :=
  if negb (secondRevisionsRepositoryIsSet this)
  then ret (Fail "Secondary revision repository is not set")
  else if negb (transitionStatusRepositoryIsSet this)
  then ret (Fail "Transition status repository is not set")
  else
    match Uuid_create (dtoUserUuid dto) with
    | Fail e => ret (Fail e)
    | Ok user =>
        let* migrated := isAlreadyMigrated user in
        if migrated
        then
          updateTransitionStatus user Verified (dtoTimestamp dto) ;;
          ret (Ok tt)
        else
          updateTransitionStatus user InProgress (dtoTimestamp dto) ;;
          let* migrationResult :=
            migrateRevisionsForUser user (dtoTimestamp dto) in
          match migrationResult with
          | Fail e =>
              updateTransitionStatus user Failed (dtoTimestamp dto) ;;
              ret (Fail e)
          | Ok _ =>
              allowForPrimaryDatabaseToCatchUp ;;
              let* integrityCheckResult :=
                checkIntegrityBetweenPrimaryAndSecondaryDatabase user in
              finish user (dtoTimestamp dto) integrityCheckResult
          end
    end.

End UseCase.

(** *** Notions used by the statements *)

(** No repository call of the run misbehaves. *)
Definition reliable (w : World) : Prop := forall n, faults w n = Succeed.

(** The verdict of the verifier on one revision. *)
Definition accepts (inPrimary : list Revision) (user : string)
    (revision : Revision) : Prop :=
  isValidUuid (revisionId revision) = true
  /\ exists found,
      lookupRevision (revisionId revision) user inPrimary = Some found
      /\ (updatedAt found > updatedAt revision \/ revision = found).

(** [part] occurs inside [text]. *)
Definition contains (text part : string) : Prop :=
  exists before after, text = before +:+ part +:+ after.

(** The verifier leaves both revision stores as they are. *)
Definition checking (inPrimary inSecondary : list Revision) (w : World)
  : Prop :=
  reliable w /\ primaryDb (stores w) = inPrimary
  /\ secondaryDb (stores w) = inSecondary.

Definition touchesPrimary (e : Effect) : bool :=
  match e with RepoCall Primary _ => true | _ => false end.

Definition writesProgress (e : Effect) : bool :=
  match e with
  | SetPagingProgress _ _ | SetIntegrityProgress _ _ => true
  | _ => false
  end.

(** The statuses of the published events of a history, in order. *)
Definition publishedStatuses (h : list Effect) : list Status :=
  omap (fun e => match e with
                 | Published _ status _ _ => Some status
                 | _ => None
                 end) h.

Definition countOf (user : string) (l : list Revision) : Z :=
  Z.of_nat (length (revisionsOf user l)).

(** No repository call of the run throws. *)
Definition noThrow (w : World) : Prop := forall n m, faults w n <> Throw m.

(** A computation does not change how the repositories will behave. *)
Definition keepsFaults {A} (m : M A) : Prop :=
  forall w, faults (m w).2 = faults w.

(** A computation only appends effects that satisfy [P] to the history. *)
Definition emits {A} (P : Effect -> Prop) (m : M A) : Prop :=
  forall w, exists trace,
    history (m w).2 = (history w ++ trace)%list /\ Forall P trace.

(** An effect that is no status event. *)
Definition silent (e : Effect) : Prop :=
  match e with Published _ _ _ _ => False | _ => True end.

(** An effect that is no status event other than [InProgress]. *)
Definition keepsAlive (e : Effect) : Prop :=
  match e with Published _ status _ _ => status = InProgress | _ => True end.

(** The sequences of statuses that one call of [execute] publishes. *)
Inductive Published_order : list Status -> Prop :=
| order_nothing : Published_order []
| order_already_migrated : Published_order [Verified]
| order_attempt (keepAlives : nat) (terminal : Status) :
    terminal <> InProgress ->
    Published_order
      (InProgress :: replicate keepAlives InProgress ++ [terminal])%list
| order_failed_cleanup (keepAlives : nat) :
    Published_order
      (InProgress
       :: replicate keepAlives InProgress ++ [Failed; Verified])%list.

End Revisions.

(** ** The scheduler driver: [requestTransition] of [bin/transition.ts] *)

Module Scheduler.

Inductive TransitionType : Type := Items | Revisions.

#[global] Instance TransitionType_eq_dec : EqDecision TransitionType.
Proof. solve_decision. Defined.

#[global] Instance TransitionType_countable : Countable TransitionType.
Proof.
  refine (inj_countable'
            (fun t => match t with Items => false | Revisions => true end)
            (fun b => if b then Revisions else Items) _).
  intros []; reflexivity.
Defined.

Record User : Type := mkUser {
  uuid : string;
  roles : list string;
  createdAt : Z
}.

(** Modelled from the spec: [RoleName.NAMES.TransitionUser] of domain-core
    is not part of the sources; the role is known by its name only. *)
Definition TransitionUser : string := "TRANSITION_USER".

Inductive Effect : Type :=
| CountAllCreatedBetween (start finish : Z)
| FindAllCreatedBetween (start finish offset limit : Z)
| GetStatus (user : string) (type : TransitionType)
| Remove (user : string) (type : TransitionType)
| PublishedTransitionRequested (user : string) (type : TransitionType)
                               (timestamp : Z)
| LoggedFound (usersCount : Z)
| LoggedTransitionStatus (user : string)
                         (itemsStatus revisionsStatus : option Status)
                         (hasTransitionRole : bool)
| LoggedTriggered (itemTransitions revisionTransitions : Z).

(** The users table, the transition status rows, the clock of the timer
    and the effects so far (oldest first). *)
Record World : Type := mkWorld {
  users : list User;
  statuses : gmap (string * TransitionType) Status;
  clock : Z;
  history : list Effect
}.

Definition record (e : Effect) (w : World) : World :=
  mkWorld (users w) (statuses w) (clock w) (history w ++ [e])%list.

(** The command line: [startDate], [endDate] as instants and the raw
    third argument. *)
Record Args : Type := mkArgs {
  startDate : Z;
  endDate : Z;
  forceRunParam : string
}.

(** Modelled from the spec: the user and status repositories are not part
    of the sources; the window over [createdAt] is inclusive. *)
Definition createdBetween (start finish : Z) (l : list User) : list User :=
  filter (fun u => start <= createdAt u <= finish) l.

Definition countAllCreatedBetween (start finish : Z) (w : World)
  : Z * World :=
  (Z.of_nat (length (createdBetween start finish (users w))),
   record (CountAllCreatedBetween start finish) w).

Definition findAllCreatedBetween (start finish offset limit : Z) (w : World)
  : list User * World :=
  (take (Z.to_nat limit)
     (drop (Z.to_nat offset) (createdBetween start finish (users w))),
   record (FindAllCreatedBetween start finish offset limit) w).

Definition getStatus (user : string) (type : TransitionType) (w : World)
  : option Status * World :=
  (statuses w !! (user, type), record (GetStatus user type) w).

Definition remove (user : string) (type : TransitionType) (w : World)
  : World :=
  record (Remove user type)
    (mkWorld (users w) (delete (user, type) (statuses w)) (clock w)
       (history w)).

Definition publishTransitionRequested (user : string) (type : TransitionType)
    (timestamp : Z) (w : World) : World :=
  record (PublishedTransitionRequested user type timestamp) w.

Definition statusIs (s : option Status) (expected : Status) : bool :=
  match s with
  | Some v => bool_decide (v = expected)
  | None => false
  end.

Definition isNull (s : option Status) : bool :=
  match s with None => true | Some _ => false end.

(** The two counters of the driver. *)
Record Counters : Type := mkCounters {
  itemTransitionsTriggered : Z;
  revisionTransitionsTriggered : Z
}.

(** The body of [for (const user of users)]. *)
Definition processUser (forceRun : bool) (timestamp : Z) (user : User)
    (st : Counters * World) : Counters * World :=
  let '(n, w) := st in
  let '(itemsTransitionStatus, w) := getStatus (uuid user) Items w in
  let '(revisionsTransitionStatus, w) := getStatus (uuid user) Revisions w in
  let userRoles := roles user in
  let userHasTransitionRole :=
    existsb (fun role => String.eqb role TransitionUser) userRoles in
  let bothTransitionStatusesAreVerified :=
    statusIs itemsTransitionStatus Verified
    && statusIs revisionsTransitionStatus Verified in
  if negb userHasTransitionRole && bothTransitionStatusesAreVerified
  then (n, w)
  else
    let w :=
      record (LoggedTransitionStatus (uuid user) itemsTransitionStatus
                revisionsTransitionStatus userHasTransitionRole) w in
    let '(n, w) :=
      if isNull itemsTransitionStatus
         || statusIs itemsTransitionStatus Failed
         || (statusIs itemsTransitionStatus InProgress && forceRun)
      then
        let w := remove (uuid user) Items w in
        let w := publishTransitionRequested (uuid user) Items timestamp w in
        (mkCounters (itemTransitionsTriggered n + 1)
           (revisionTransitionsTriggered n), w)
      else (n, w) in
    if isNull revisionsTransitionStatus
       || statusIs revisionsTransitionStatus Failed
       || (statusIs revisionsTransitionStatus InProgress && forceRun)
    then
      let w := remove (uuid user) Revisions w in
      let w := publishTransitionRequested (uuid user) Revisions timestamp w in
      (mkCounters (itemTransitionsTriggered n)
         (revisionTransitionsTriggered n + 1), w)
    else (n, w).

Definition pageLimit : positive := 100.

Definition processPage (args : Args) (forceRun : bool) (timestamp : Z)
    (currentPage : Z) (st : Counters * World) : Counters * World :=
  let '(n, w) := st in
  let '(found, w) :=
    findAllCreatedBetween (startDate args) (endDate args)
      ((currentPage - 1) * Z.pos pageLimit) (Z.pos pageLimit) w in
  fold_left (fun st user => processUser forceRun timestamp user st)
    found (n, w).

Definition requestTransition (args : Args) (w : World) : World :=
  let '(usersCount, w) :=
    countAllCreatedBetween (startDate args) (endDate args) w in
  let timestamp := clock w in
  let w := record (LoggedFound usersCount) w in
  let forceRun := String.eqb (forceRunParam args) "true" in
  let totalPages := ceilDiv usersCount pageLimit in
  let '(n, w) :=
    fold_left (fun st currentPage =>
                 processPage args forceRun timestamp currentPage st)
      (seqZ 1 totalPages) (mkCounters 0 0, w) in
  record (LoggedTriggered (itemTransitionsTriggered n)
            (revisionTransitionsTriggered n)) w.

(** *** Notions used by the statements *)

(** The condition of the specification for requesting a transition. *)
Definition triggers (status : option Status) (forceRun : bool) : Prop :=
  status = None \/ status = Some Failed
  \/ (status = Some InProgress /\ forceRun = true).

(** A skipped user: the driver reads the two statuses and does nothing
    else. *)
Definition skipped (user : User) (trace : list Effect) : Prop :=
  trace = [GetStatus (uuid user) Items; GetStatus (uuid user) Revisions].

(** [first] is directly followed by [second] in a trace. *)
Definition directlyBefore (first second : Effect) (trace : list Effect)
  : Prop :=
  exists before after,
    trace = (before ++ [first; second] ++ after)%list.

(** *** A run of the driver *)

Definition someUser : User :=
  mkUser "00000000-0000-0000-0000-000000000000" ["CORE_USER"] 10.

(** The items transition of [someUser] has failed, its revisions
    transition is verified. *)
Definition someWorld : World :=
  mkWorld [someUser]
    (<[(uuid someUser, Items) := Failed]>
       (<[(uuid someUser, Revisions) := Verified]> ∅))
    7 [].

End Scheduler.

(** ** The sync item updater: [UpdateExistingItem] *)

Module Syncing.

Record Timestamps : Type := mkTimestamps {
  createdAt : Z;
  updatedAt : Z
}.

(** Human-time dates, as the timer converts them from microseconds. *)
Record Dates : Type := mkDates {
  dateCreatedAt : Z;
  dateUpdatedAt : Z
}.

Record SharedVaultAssociation : Type := mkSharedVaultAssociation {
  sharedVaultAssociationId : positive;
  sharedVaultItemUuid : string;
  sharedVaultUuid : string;
  lastEditedBy : string;
  sharedVaultTimestamps : Timestamps
}.

Record KeySystemAssociation : Type := mkKeySystemAssociation {
  keySystemAssociationId : positive;
  keySystemItemUuid : string;
  keySystemUuid : string;
  keySystemTimestamps : Timestamps
}.

Record Item : Type := mkItem {
  itemId : string;
  userUuid : string;
  updatedWithSession : option string;
  content : option string;
  contentType : string;
  encItemKey : option string;
  authHash : option string;
  itemsKeyId : option string;
  duplicateOf : option string;
  deleted : bool;
  dates : Dates;
  timestamps : Timestamps;
  sharedVaultAssociation : option SharedVaultAssociation;
  keySystemAssociation : option KeySystemAssociation
}.

(** The incoming client mutation, with the field names of the tests. *)
Record ItemHash : Type := mkItemHash {
  uuid : string;
  user_uuid : string;
  key_system_identifier : option string;
  shared_vault_uuid : option string;
  hashContent : option string;
  content_type : string;
  duplicate_of : option string;
  enc_item_key : option string;
  auth_hash : option string;
  items_key_id : option string;
  hashDeleted : option bool;
  created_at : option string;
  updated_at : option string;
  created_at_timestamp : option Z;
  updated_at_timestamp : option Z
}.

Record UpdateExistingItemDTO : Type := mkDTO {
  existingItem : Item;
  itemHash : ItemHash;
  sessionUuid : string;
  performingUserUuid : string
}.

Inductive Event : Type :=
| ItemRevisionCreationRequested (itemUuid userUuid : string)
| DuplicateItemSynced (itemUuid duplicateOfUuid userUuid : string).

Inductive Effect : Type :=
| Saved (item : Item)
| Published (event : Event).

(** The item table, the supply of fresh entity identifiers and the effects
    so far (oldest first). *)
Record World : Type := mkWorld {
  items : gmap string Item;
  nextEntityId : positive;
  history : list Effect
}.

(** [TimerInterface], as far as the updater uses it. *)
Record TimerInterface : Type := mkTimer {
  convertStringDateToMicroseconds : string -> Z;
  convertMicrosecondsToDate : Z -> Z
}.

Record UseCase : Type := mkUseCase {
  timer : TimerInterface;
  knownContentTypes : list string
}.

Definition save (item : Item) (w : World) : World :=
  mkWorld (<[itemId item := item]> (items w)) (nextEntityId w)
    (history w ++ [Saved item])%list.

Definition publish (event : Event) (w : World) : World :=
  mkWorld (items w) (nextEntityId w) (history w ++ [Published event])%list.

Definition freshEntityId (w : World) : positive * World :=
  (nextEntityId w,
   mkWorld (items w) (Pos.succ (nextEntityId w)) (history w)).

Definition isPresent {A} (o : option A) : bool :=
  match o with Some _ => true | None => false end.

(** An optional identifier of the hash parses when it is present. *)
Definition parseOptional (o : option string) : Result (option string) :=
  match o with
  | None => Ok None
  | Some s =>
      match Uuid_create s with
      | Ok v => Ok (Some v)
      | Fail e => Fail e
      end
  end.

Definition checkContentType (this : UseCase) (t : string) : Result string :=
  if bool_decide (t ∈ knownContentTypes this) then Ok t
  else Fail ("Invalid content type: " +:+ t).

(** The two accepted forms of the times: both microsecond timestamps, or
    else the two date strings. *)
Definition timestampsOf (this : UseCase) (h : ItemHash) : Result Timestamps :=
  match updated_at_timestamp h, created_at_timestamp h with
  | Some u, Some c => Ok (mkTimestamps c u)
  | _, _ =>
      match created_at h, updated_at h with
      | Some c, Some u =>
          Ok (mkTimestamps
                (convertStringDateToMicroseconds (timer this) c)
                (convertStringDateToMicroseconds (timer this) u))
      | _, _ => Fail "Created at timestamp is required."
      end
  end.

Definition Dates_create (this : UseCase) (t : Timestamps) : Result Dates :=
  if updatedAt t <? createdAt t
  then Fail "Could not create dates: updated at precedes created at"
  else Ok (mkDates (convertMicrosecondsToDate (timer this) (createdAt t))
             (convertMicrosecondsToDate (timer this) (updatedAt t))).

Definition sameVault (existing : option SharedVaultAssociation)
    (vault : string) : bool :=
  match existing with
  | Some a => String.eqb (sharedVaultUuid a) vault
  | None => false
  end.

Definition sameKeySystem (existing : option KeySystemAssociation)
    (keySystem : string) : bool :=
  match existing with
  | Some a => String.eqb (keySystemUuid a) keySystem
  | None => false
  end.

Definition updateSharedVaultAssociation (item : Item)
    (vault : option string) (performingUser : string) (t : Timestamps)
    (w : World) : option SharedVaultAssociation * World :=
  match vault with
  | Some v =>
      if sameVault (sharedVaultAssociation item) v
      then (sharedVaultAssociation item, w)
      else
        let '(fresh, w) := freshEntityId w in
        (Some (mkSharedVaultAssociation fresh (itemId item) v
                 performingUser t), w)
  | None => (sharedVaultAssociation item, w)
  end.

Definition updateKeySystemAssociation (item : Item)
    (keySystem : option string) (t : Timestamps) (w : World)
  : option KeySystemAssociation * World :=
  match keySystem with
  | Some k =>
      if sameKeySystem (keySystemAssociation item) k
      then (keySystemAssociation item, w)
      else
        let '(fresh, w) := freshEntityId w in
        (Some (mkKeySystemAssociation fresh (itemId item) k t), w)
  | None => (keySystemAssociation item, w)
  end.

Definition isDeleted (h : ItemHash) : bool :=
  match hashDeleted h with Some true => true | _ => false end.

(** Modelled from the spec: [UpdateExistingItem.ts] is not part of the
    sources, only its tests are.  The validations run in the order of the
    specification and the first failure is returned; then the payload is
    copied, deletion or duplication is applied, the times are set, the two
    associations are updated, the item is saved and the events go out. *)
Definition execute (this : UseCase) (dto : UpdateExistingItemDTO) (w : World)
  : Result Item * World :=
  let item := existingItem dto in
  let h := itemHash dto in
  match Uuid_create (sessionUuid dto) with
  | Fail e => (Fail e, w)
  | Ok session =>
  match Uuid_create (performingUserUuid dto) with
  | Fail e => (Fail e, w)
  | Ok performingUser =>
  match checkContentType this (content_type h) with
  | Fail e => (Fail e, w)
  | Ok type =>
  match parseOptional (duplicate_of h) with
  | Fail e => (Fail e, w)
  | Ok duplicate =>
  if negb (isPresent (created_at_timestamp h) || isPresent (created_at h))
  then (Fail "Created at timestamp is required.", w)
  else
  match parseOptional (shared_vault_uuid h) with
  | Fail e => (Fail e, w)
  | Ok vault =>
  match parseOptional (key_system_identifier h) with
  | Fail e => (Fail e, w)
  | Ok keySystem =>
  match timestampsOf this h with
  | Fail e => (Fail e, w)
  | Ok t =>
  match Dates_create this t with
  | Fail e => (Fail e, w)
  | Ok d =>
      let '(vaultAssociation, w) :=
        updateSharedVaultAssociation item vault performingUser t w in
      let '(keyAssociation, w) :=
        updateKeySystemAssociation item keySystem t w in
      let updated :=
        if isDeleted h
        then mkItem (itemId item) (userUuid item) (Some session)
               None type None None None None true
               d t vaultAssociation keyAssociation
        else mkItem (itemId item) (userUuid item) (Some session)
               (hashContent h) type (enc_item_key h) (auth_hash h)
               (items_key_id h) duplicate (deleted item)
               d t vaultAssociation keyAssociation in
      let w := save updated w in
      let w :=
        publish (ItemRevisionCreationRequested (itemId updated)
                   (userUuid updated)) w in
      let w :=
        match duplicate with
        | Some original =>
            publish (DuplicateItemSynced (itemId updated) original
                       (userUuid updated)) w
        | None => w
        end in
      (Ok updated, w)
  end end end end end end end end.


(** *** The test fixture of [UpdateExistingItem.spec.ts] *)

Definition zeroUuid : string := "00000000-0000-0000-0000-000000000000".

(** The mocked timer of the tests. *)
Definition mockedTimer : TimerInterface :=
  mkTimer (fun _ => 123456789) (fun _ => 123456789).

Definition createUseCase : UseCase := mkUseCase mockedTimer ["Note"].

Definition item1 : Item :=
  mkItem zeroUuid zeroUuid None (Some "foobar") "Note" None None None None
    false (mkDates 1616164633241311 1616164633241311)
    (mkTimestamps 1616164633241311 1616164633241311) None None.

Definition itemHash1 : ItemHash :=
  mkItemHash "1-2-3" zeroUuid None None (Some "asdqwe1") "Note" None
    (Some "qweqwe1") (Some "auth_hash") (Some "asdasd1") None
    (Some "2021-03-19T14:37:13.241Z") (Some "2021-03-19T14:37:13.242Z")
    None None.

Definition withDeleted (h : ItemHash) : ItemHash :=
  mkItemHash (uuid h) (user_uuid h) (key_system_identifier h)
    (shared_vault_uuid h) (hashContent h) (content_type h) (duplicate_of h)
    (enc_item_key h) (auth_hash h) (items_key_id h) (Some true)
    (created_at h) (updated_at h) (created_at_timestamp h)
    (updated_at_timestamp h).

Definition withDuplicateOf (original : string) (h : ItemHash) : ItemHash :=
  mkItemHash (uuid h) (user_uuid h) (key_system_identifier h)
    (shared_vault_uuid h) (hashContent h) (content_type h) (Some original)
    (enc_item_key h) (auth_hash h) (items_key_id h) (hashDeleted h)
    (created_at h) (updated_at h) (created_at_timestamp h)
    (updated_at_timestamp h).

Definition withSharedVault (vault : string) (h : ItemHash) : ItemHash :=
  mkItemHash (uuid h) (user_uuid h) (key_system_identifier h)
    (Some vault) (hashContent h) (content_type h) (duplicate_of h)
    (enc_item_key h) (auth_hash h) (items_key_id h) (hashDeleted h)
    (created_at h) (updated_at h) (created_at_timestamp h)
    (updated_at_timestamp h).

Definition withAssociation (a : SharedVaultAssociation) (i : Item) : Item :=
  mkItem (itemId i) (userUuid i) (updatedWithSession i) (content i)
    (contentType i) (encItemKey i) (authHash i) (itemsKeyId i)
    (duplicateOf i) (deleted i) (dates i) (timestamps i) (Some a)
    (keySystemAssociation i).

Definition association1 : SharedVaultAssociation :=
  mkSharedVaultAssociation 1 zeroUuid zeroUuid zeroUuid
    (mkTimestamps 123 123).

Definition emptyWorld : World := mkWorld ∅ 2 [].

(** *** The cases of [UpdateExistingItem.spec.ts] *)

Definition withContentType (type : string) (h : ItemHash) : ItemHash :=
  mkItemHash (uuid h) (user_uuid h) (key_system_identifier h)
    (shared_vault_uuid h) (hashContent h) type (duplicate_of h)
    (enc_item_key h) (auth_hash h) (items_key_id h) (hashDeleted h)
    (created_at h) (updated_at h) (created_at_timestamp h)
    (updated_at_timestamp h).

Definition withoutCreatedAt (h : ItemHash) : ItemHash :=
  mkItemHash (uuid h) (user_uuid h) (key_system_identifier h)
    (shared_vault_uuid h) (hashContent h) (content_type h) (duplicate_of h)
    (enc_item_key h) (auth_hash h) (items_key_id h) (hashDeleted h)
    None (updated_at h) None (updated_at_timestamp h).

Definition attempt (item : Item) (h : ItemHash) (session performer : string)
  : Result Item * World :=
  execute createUseCase (mkDTO item h session performer) emptyWorld.

End Syncing.

(** ** Concrete runs *)

Module Scenarios.

Import Revisions.

Definition user0 : string := "00000000-0000-0000-0000-000000000000".

Definition revisionA : Revision :=
  mkRevision "00000000-0000-0000-0000-00000000000a" user0
    "00000000-0000-0000-0000-0000000000f1" "first" "Note" 100 200.

Definition revisionB : Revision :=
  mkRevision "00000000-0000-0000-0000-00000000000b" user0
    "00000000-0000-0000-0000-0000000000f1" "second" "Note" 300 400.

(** The copy of [revisionA] that primary holds in scenario S3: older and
    with another content. *)
Definition staleA : Revision :=
  mkRevision "00000000-0000-0000-0000-00000000000a" user0
    "00000000-0000-0000-0000-0000000000f1" "draft" "Note" 100 100.

Definition useCase : UseCase := mkUseCase true true 5.

Definition request : DTO := mkDTO user0 7.

Definition healthy : nat -> Behaviour := fun _ => Succeed.

Definition emptyWorld : World := mkWorld (mkStores [] [] ∅ ∅) healthy 0 [].

(** One revision to migrate; the tenth repository call of the run, the
    [removeByUserUuid] of the cleanup, throws. *)
Definition cleanupFails : World :=
  mkWorld (mkStores [] [revisionA] ∅ ∅)
    (fun n => if (n =? 9)%nat then Throw "connection lost" else Succeed)
    0 [].

(** Two revisions to migrate; the fifth repository call of the run, the
    insert of [revisionA], reports that nothing was saved. *)
Definition insertRefused : World :=
  mkWorld (mkStores [] [revisionA; revisionB] ∅ ∅)
    (fun n => if (n =? 4)%nat then Refuse else Succeed)
    0 [].

(** The run of [execute] on [insertRefused] when its migration begins:
    the count of [isAlreadyMigrated] is made and [InProgress] published. *)
Definition insertRefusedStarted : World :=
  (updateTransitionStatus user0 InProgress 7
     (isAlreadyMigrated user0 insertRefused).2).2.

(** Scenario S3: primary holds a differing, older copy. *)
Definition conflict : World :=
  mkWorld (mkStores [staleA] [revisionA] ∅ ∅) healthy 0 [].

(** Two revisions to migrate and nothing in primary. *)
Definition unmigrated : World :=
  mkWorld (mkStores [] [revisionA; revisionB] ∅ ∅) healthy 0 [].

(** The [n]-th of the revisions of scenario S1. *)
Definition numbered (n : nat) : Revision :=
  mkRevision
    ("00000000-0000-0000-0000-0000000000"
     +:+ (if (n <? 10)%nat then "0" else "") +:+ showZ (Z.of_nat n))
    user0 "00000000-0000-0000-0000-0000000000f1" "text" "Note" 100 200.

(** Scenario S1: twelve revisions in secondary, none in primary. *)
Definition fresh : World :=
  mkWorld (mkStores [] (map numbered (seq 0 12)) ∅ ∅) healthy 0 [].

(** Scenario S2: the first page was migrated before a crash. *)
Definition resumed : World :=
  mkWorld (mkStores (map numbered (seq 0 5)) (map numbered (seq 0 12))
             (<[user0 := 2]> ∅) ∅) healthy 0 [].

(** Scenario S4: primary holds another revision of the user, and the insert
    of [revisionB], the seventh repository call of the run, saves nothing. *)
Definition missing : World :=
  mkWorld (mkStores [numbered 0] [revisionA; revisionB] ∅ ∅)
    (fun n => if (n =? 6)%nat then Refuse else Succeed) 0 [].

(** The offsets of the pages fetched from the secondary store. *)
Definition fetchedOffsets (h : list Effect) : list Z :=
  omap (fun e => match e with
                 | RepoCall Secondary (FindByUserUuid _ offset _) => Some offset
                 | _ => None
                 end) h.

End Scenarios.

(** ** Notions for refused inserts *)

Module RefusalNotions.

Import Revisions.

(** The log line of [saveRevision] for a revision that was not saved. *)
Definition notSaved (revision : Revision) : Effect :=
  LoggedError ("Failed to save revision " +:+ revisionId revision
               +:+ " to primary database").

(** The number of repository calls in a trace. *)
Fixpoint repoCalls (trace : list Effect) : nat :=
  match trace with
  | [] => 0
  | RepoCall _ _ :: rest => S (repoCalls rest)
  | _ :: rest => repoCalls rest
  end.

(** The revisions whose insert into primary was refused in a trace that
    starts at the repository call number [next] of the plan. *)
Fixpoint refusedInserts (plan : nat -> Behaviour) (next : nat)
    (trace : list Effect) : list Revision :=
  match trace with
  | [] => []
  | RepoCall db c :: rest =>
      match db, c, plan next with
      | Primary, Insert r, Refuse =>
          r :: refusedInserts plan (S next) rest
      | _, _, _ => refusedInserts plan (S next) rest
      end
  | _ :: rest => refusedInserts plan next rest
  end.

(** A computation logs every insert into primary that is refused in it. *)
Definition logsRefusals {A} (m : M A) : Prop :=
  forall w, exists trace,
    history (m w).2 = (history w ++ trace)%list
    /\ calls (m w).2 = (calls w + repoCalls trace)%nat
    /\ faults (m w).2 = faults w
    /\ forall r, r ∈ refusedInserts (faults w) (calls w) trace ->
                 notSaved r ∈ trace.

End RefusalNotions.

(** ** Notions for the order of the published statuses *)

Module OrderNotions.

Import Revisions.

(** The log line of [execute] for a cleanup of the secondary store that
    threw [message]. *)
Definition cleanupFailure (user message : string) : Effect :=
  LoggedError ("[" +:+ user
               +:+ "] Failed to clean up secondary database revisions: "
               +:+ ("Errored when deleting revisions for user " +:+ user
                    +:+ ": " +:+ message)).

End OrderNotions.

(** ** Notions for the properties of whole runs *)
Module MigrationNotions.

Import Revisions.

(** What the migration of one revision makes of the primary store when
    the repository answers every call. *)
Definition afterRevision (inPrimary : list Revision) (revision : Revision)
  : list Revision :=
  if isValidUuid (revisionId revision)
  then
    match lookupRevision (revisionId revision) (userUuid revision)
            inPrimary with
    | Some found =>
        if updatedAt found >? updatedAt revision then inPrimary
        else if isIdenticalTo found revision then inPrimary
        else (filter (fun r => ~ named (revisionId found) (userUuid found) r)
                inPrimary ++ [revision])%list
    | None => (inPrimary ++ [revision])%list
    end
  else inPrimary.

(** The page of one user's revisions that the use case fetches. *)
Definition pageOf (this : UseCase) (user : string)
    (inSecondary : list Revision) (currentPage : Z) : list Revision :=
  page user ((currentPage - 1) * Z.pos (pageSize this))
    (Z.pos (pageSize this)) inSecondary.

(** The paging cursor of a user after the given pages. *)
Definition cursorAfter (user : string) (pages : list Z)
    (cursors : gmap string Z) : gmap string Z :=
  match last pages with
  | Some p => <[user := p]> cursors
  | None => cursors
  end.

(** A computation relates the stores before and after by [R], whatever the
    repositories do, and every value it returns satisfies [Q]. *)
Definition yields {A} (R : Stores -> Stores -> Prop) (Q : A -> Prop)
    (m : M A) : Prop :=
  forall w,
    R (stores w) (stores (m w).2) /\ forall a, (m w).1 = inr a -> Q a.

(** Nothing that belongs to another user differs between two states of the
    stores. *)
Definition othersUntouched (user : string) (s s' : Stores) : Prop :=
  forall other,
    other <> user ->
    revisionsOf other (primaryDb s') = revisionsOf other (primaryDb s)
    /\ revisionsOf other (secondaryDb s') = revisionsOf other (secondaryDb s)
    /\ pagingProgress s' !! other = pagingProgress s !! other
    /\ integrityProgress s' !! other = integrityProgress s !! other.

(** The migration leaves the secondary store and the integrity cursors as
    they are. *)
Definition migrationFrame (s s' : Stores) : Prop :=
  secondaryDb s' = secondaryDb s
  /\ integrityProgress s' = integrityProgress s.

(** The integrity check changes nothing but the integrity cursor of the
    user. *)
Definition checkFrame (user : string) (s s' : Stores) : Prop :=
  primaryDb s' = primaryDb s
  /\ secondaryDb s' = secondaryDb s
  /\ pagingProgress s' = pagingProgress s
  /\ forall other,
       other <> user ->
       integrityProgress s' !! other = integrityProgress s !! other.

End MigrationNotions.


Module CadenceNotions.

Import Revisions.

(** The pages of a run on which the keep-alive event is published. *)
Definition keepAlivePages (totalPages : Z) (pages : list Z) : nat :=
  length (filter (fun p => remIsZero p (ceilDiv totalPages 10) = true) pages).

(** An effect that writes no paging cursor but the one of [user], and that
    one only with a page between [first] and [last]. *)
Definition cursorWithin (user : string) (first last : Z) (e : Effect) : Prop :=
  match e with
  | SetPagingProgress u p => u = user /\ first <= p <= last
  | _ => True
  end.

End CadenceNotions.

Module DriverNotions.

Import Scheduler.

#[global] Instance Effect_eq_dec : EqDecision Effect.
Proof. solve_decision. Defined.

(** The users for which a transition of the given type is requested in a
    trace, in order. *)
Definition requests (type : TransitionType) (trace : list Effect)
  : list string :=
  omap (fun e => match e with
                 | PublishedTransitionRequested user t _ =>
                     if bool_decide (t = type) then Some user else None
                 | _ => None
                 end) trace.

Definition requestCount (type : TransitionType) (trace : list Effect) : Z :=
  Z.of_nat (length (requests type trace)).

(** The users of the window of a run. *)
Definition window (args : Args) (w : World) : list User :=
  createdBetween (startDate args) (endDate args) (users w).

(** [forceRunParam === 'true']. *)
Definition forced (args : Args) : bool :=
  String.eqb (forceRunParam args) "true".

(** The condition of the two [if]s of the loop body. *)
Definition due (status : option Status) (forceRun : bool) : bool :=
  isNull status || statusIs status Failed
  || (statusIs status InProgress && forceRun).

(** The condition of the [continue] of the loop body. *)
Definition passedOver (user : User)
    (rows : gmap (string * TransitionType) Status) : bool :=
  negb (existsb (fun role => String.eqb role TransitionUser) (roles user))
  && (statusIs (rows !! (uuid user, Items)) Verified
      && statusIs (rows !! (uuid user, Revisions)) Verified).

(** The effects of one of the two [if]s. *)
Definition block (forceRun : bool) (timestamp : Z) (user : string)
    (type : TransitionType) (status : option Status) : list Effect :=
  if due status forceRun
  then [Remove user type; PublishedTransitionRequested user type timestamp]
  else [].

Definition rowsAfterBlock (forceRun : bool) (user : string)
    (type : TransitionType) (status : option Status)
    (rows : gmap (string * TransitionType) Status)
  : gmap (string * TransitionType) Status :=
  if due status forceRun then delete (user, type) rows else rows.

(** The effects of the loop body for one user. *)
Definition userTrace (forceRun : bool) (timestamp : Z) (user : User)
    (rows : gmap (string * TransitionType) Status) : list Effect :=
  ([GetStatus (uuid user) Items; GetStatus (uuid user) Revisions]
   ++ if passedOver user rows then []
      else [LoggedTransitionStatus (uuid user)
              (rows !! (uuid user, Items)) (rows !! (uuid user, Revisions))
              (existsb (fun role => String.eqb role TransitionUser)
                 (roles user))]
           ++ block forceRun timestamp (uuid user) Items
                (rows !! (uuid user, Items))
           ++ block forceRun timestamp (uuid user) Revisions
                (rows !! (uuid user, Revisions)))%list.

(** The status rows after the loop body for one user. *)
Definition rowsAfter (forceRun : bool) (user : User)
    (rows : gmap (string * TransitionType) Status)
  : gmap (string * TransitionType) Status :=
  if passedOver user rows then rows
  else rowsAfterBlock forceRun (uuid user) Revisions
         (rows !! (uuid user, Revisions))
         (rowsAfterBlock forceRun (uuid user) Items
            (rows !! (uuid user, Items)) rows).

(** The users of one page of the window. *)
Definition pageUsers (args : Args) (w : World) (currentPage : Z)
  : list User :=
  take (Z.to_nat (Z.pos pageLimit))
    (drop (Z.to_nat ((currentPage - 1) * Z.pos pageLimit)) (window args w)).

(** An effect that is no transition request. *)
Definition noRequest (e : Effect) : Prop :=
  match e with PublishedTransitionRequested _ _ _ => False | _ => True end.

(** The state of the driver after the users [done], in a run that started
    in [w0] with no transition counted. *)
Definition examined (w0 : World) (forceRun : bool) (timestamp : Z)
    (done : list User) (st : Counters * World) : Prop :=
  users st.2 = users w0
  /\ clock st.2 = clock w0
  /\ exists trace,
      history st.2 = (history w0 ++ trace)%list
      /\ (forall id type ts,
            PublishedTransitionRequested id type ts ∈ trace
            <-> ts = timestamp
                /\ (exists u, u ∈ done /\ uuid u = id)
                /\ triggers (statuses w0 !! (id, type)) forceRun)
      /\ (forall id type,
            (PublishedTransitionRequested id type timestamp ∈ trace ->
             statuses st.2 !! (id, type) = None)
            /\ (PublishedTransitionRequested id type timestamp ∉ trace ->
                statuses st.2 !! (id, type) = statuses w0 !! (id, type)))
      /\ itemTransitionsTriggered st.1 = requestCount Items trace
      /\ revisionTransitionsTriggered st.1 = requestCount Revisions trace.

End DriverNotions.

Module FaultScenarios.

Import Revisions Scenarios.

(** One revision to migrate; the second repository call of the run, the
    count of the migration, throws. *)
Definition countFails : World :=
  mkWorld (mkStores [] [revisionA] ∅ ∅)
    (fun n => if (n =? 1)%nat then Throw "connection lost" else Succeed)
    0 [].

(** The next repository call throws. *)
Definition lookupFails : World :=
  mkWorld (mkStores [] [revisionA] ∅ ∅)
    (fun n => if (n =? 0)%nat then Throw "connection lost" else Succeed)
    0 [].

(** Primary holds a differing, older copy of [revisionA]; the third
    repository call, the insert of the migrated revision, throws. *)
Definition insertThrows : World :=
  mkWorld (mkStores [staleA] [revisionA] ∅ ∅)
    (fun n => if (n =? 2)%nat then Throw "connection lost" else Succeed)
    0 [].

End FaultScenarios.

Module KeepingNotions.

Import Revisions.

(** A revision that is no copy, by identifier and owner, of a revision of
    [user] in the secondary store. *)
Definition unrelated (user : string) (inSecondary : list Revision)
    (r : Revision) : Prop :=
  forall x, x ∈ revisionsOf user inSecondary -> ~ named (revisionId x) user r.

(** The stores still hold every unrelated revision that primary held at
    first, and no revision of [user] has come into the secondary store. *)
Definition keeping (user : string) (inPrimary inSecondary : list Revision)
    (s : Stores) : Prop :=
  (forall x, x ∈ revisionsOf user (secondaryDb s) ->
             x ∈ revisionsOf user inSecondary)
  /\ (forall r, r ∈ inPrimary -> unrelated user inSecondary r ->
                r ∈ primaryDb s).

(** A computation keeps the invariant [I] of the stores, whether it returns
    or throws, and the values it returns from stores that satisfy [I]
    satisfy [Q]. *)
Definition holds {A} (I : Stores -> Prop) (Q : A -> Prop) (m : M A) : Prop :=
  forall w, I (stores w) ->
    I (stores (m w).2) /\ forall a, (m w).1 = inr a -> Q a.

End KeepingNotions.

(** * Properties *)

Module RevisionsTheory.
Import Revisions RefusalNotions.

Lemma setDb_getDb db s : setDb db (getDb db s) s = s.
Proof. destruct db, s; reflexivity. Qed.

Lemma repoCall_succeeds {A} db c (normal : list Revision -> A * list Revision)
    refused w :
  faults w (calls w) = Succeed ->
  repoCall db c normal refused w
  = (inr (normal (getDb db (stores w))).1,
     mkWorld (setDb db (normal (getDb db (stores w))).2 (stores w))
       (faults w) (S (calls w)) (history w ++ [RepoCall db c])).
Proof.
  intros H. unfold repoCall. rewrite H. simpl.
  destruct (normal _); reflexivity.
Qed.

Lemma repoCall_throws {A} db c (normal : list Revision -> A * list Revision)
    refused w message :
  faults w (calls w) = Throw message ->
  repoCall db c normal refused w
  = (inl message,
     mkWorld (stores w) (faults w) (S (calls w))
       (history w ++ [RepoCall db c])).
Proof. intros H. unfold repoCall. rewrite H. reflexivity. Qed.

Lemma findOneByUuid_succeeds db rid user w :
  faults w (calls w) = Succeed ->
  findOneByUuid db rid user w
  = (inr (lookupRevision rid user (getDb db (stores w))),
     mkWorld (stores w) (faults w) (S (calls w))
       (history w ++ [RepoCall db (FindOneByUuid rid user)])).
Proof.
  intros H. unfold findOneByUuid. rewrite repoCall_succeeds by done.
  simpl. by rewrite setDb_getDb.
Qed.

Lemma lookupRevision_named rid user l found :
  lookupRevision rid user l = Some found -> named rid user found /\ found ∈ l.
Proof.
  unfold lookupRevision. intros H.
  apply head_Some_elem_of in H. by apply list_elem_of_filter in H.
Qed.

Lemma bind_returns {A B} (m : M A) (k : A -> M B) w a w' :
  m w = (inr a, w') -> bind m k w = k a w'.
Proof. intros H. unfold bind. by rewrite H. Qed.

Lemma bind_throws {A B} (m : M A) (k : A -> M B) w e w' :
  m w = (inl e, w') -> bind m k w = (inl e, w').
Proof. intros H. unfold bind. by rewrite H. Qed.

Lemma insert_succeeds db r w :
  faults w (calls w) = Succeed ->
  insert db r w
  = (inr true,
     mkWorld (setDb db (getDb db (stores w) ++ [r])%list (stores w))
       (faults w) (S (calls w)) (history w ++ [RepoCall db (Insert r)])).
Proof. intros H. unfold insert. by rewrite repoCall_succeeds. Qed.

Lemma insert_refused db r w :
  faults w (calls w) = Refuse ->
  insert db r w
  = (inr false,
     mkWorld (stores w) (faults w) (S (calls w))
       (history w ++ [RepoCall db (Insert r)])).
Proof. intros H. unfold insert, repoCall. by rewrite H. Qed.

Lemma removeOneByUuid_succeeds db rid user w :
  faults w (calls w) = Succeed ->
  removeOneByUuid db rid user w
  = (inr tt,
     mkWorld (setDb db (filter (fun r => ~ named rid user r)
                          (getDb db (stores w))) (stores w))
       (faults w) (S (calls w))
       (history w ++ [RepoCall db (RemoveOneByUuid rid user)])).
Proof. intros H. unfold removeOneByUuid. by rewrite repoCall_succeeds. Qed.

Lemma saveRevision_succeeds r w :
  faults w (calls w) = Succeed ->
  saveRevision r w
  = (inr tt,
     mkWorld (setDb Primary (primaryDb (stores w) ++ [r])%list (stores w))
       (faults w) (S (calls w))
       (history w ++ [RepoCall Primary (Insert r)])).
Proof.
  intros H. unfold saveRevision.
  erewrite bind_returns by (by apply insert_succeeds). reflexivity.
Qed.


Lemma countByUserUuid_succeeds db user w :
  faults w (calls w) = Succeed ->
  countByUserUuid db user w
  = (inr (Z.of_nat (length (revisionsOf user (getDb db (stores w))))),
     mkWorld (stores w) (faults w) (S (calls w))
       (history w ++ [RepoCall db (CountByUserUuid user)])).
Proof.
  intros H. unfold countByUserUuid. rewrite repoCall_succeeds by done.
  simpl. by rewrite setDb_getDb.
Qed.

Lemma findByUserUuid_succeeds db user offset limit w :
  faults w (calls w) = Succeed ->
  findByUserUuid db user offset limit w
  = (inr (page user offset limit (getDb db (stores w))),
     mkWorld (stores w) (faults w) (S (calls w))
       (history w ++ [RepoCall db (FindByUserUuid user offset limit)])).
Proof.
  intros H. unfold findByUserUuid. rewrite repoCall_succeeds by done.
  simpl. by rewrite setDb_getDb.
Qed.

Lemma append_assoc (a b c : string) : (a +:+ b) +:+ c = a +:+ (b +:+ c).
Proof.
  induction a as [|x a IH]; [reflexivity|].
  change (String x ((a +:+ b) +:+ c) = String x (a +:+ (b +:+ c))).
  by rewrite IH.
Qed.

Lemma append_empty (a : string) : a +:+ EmptyString = a.
Proof.
  induction a as [|x a IH]; [reflexivity|].
  change (String x (a +:+ EmptyString) = String x a). by rewrite IH.
Qed.

Lemma notIdenticalMessage_contains revision found :
  contains (notIdenticalMessage revision found) (stringify found)
  /\ contains (notIdenticalMessage revision found) (stringify revision).
Proof.
  unfold notIdenticalMessage, contains. split.
  - exists ("Revision " +:+ revisionId revision
            +:+ " is not identical in primary and secondary database. "
            +:+ "Revision in primary database: "),
      (", revision in secondary database: " +:+ stringify revision).
    by rewrite !append_assoc.
  - exists ("Revision " +:+ revisionId revision
            +:+ " is not identical in primary and secondary database. "
            +:+ "Revision in primary database: " +:+ stringify found
            +:+ ", revision in secondary database: "), EmptyString.
    by rewrite append_empty, !append_assoc.
Qed.

(** Loops with an early exit keep an invariant of the world, and they run
    to the end exactly when every element passes. *)
Lemma forEachUntil_invariant {A R} (I : World -> Prop) (passes : A -> Prop)
    (Q : R -> Prop) (body : A -> M (option R)) :
  (forall x w, I w ->
     exists v w', body x w = (inr v, w') /\ I w'
                  /\ (v = None <-> passes x)
                  /\ (forall res, v = Some res -> Q res)) ->
  forall l w, I w ->
    exists v w', forEachUntil l body w = (inr v, w') /\ I w'
                 /\ (v = None <-> Forall passes l)
                 /\ (forall res, v = Some res -> Q res).
Proof.
  intros Hbody l. induction l as [|x l IH]; intros w Hw.
  - exists None, w. repeat split; [done| |done].
    intros _. constructor.
  - destruct (Hbody x w Hw) as (v & w1 & Hrun & Hw1 & Hpass & Hq).
    simpl. rewrite (bind_returns _ _ _ _ _ Hrun).
    destruct v as [res|].
    + exists (Some res), w1. repeat split; [done|done| |done].
      intros Hall. apply Forall_cons in Hall as [Hx _].
      apply Hpass in Hx. discriminate.
    + destruct (IH w1 Hw1) as (v & w2 & Hrest & Hw2 & Hall & Hq2).
      exists v, w2. repeat split; [done|done| | |done].
      * intros Hv. constructor; [by apply Hpass | by apply Hall].
      * intros Hl. apply Forall_cons in Hl as [_ Hl]. by apply Hall.
Qed.

Lemma checkRevision_verdict user revision w :
  reliable w ->
  exists v w', checkRevision user revision w = (inr v, w')
    /\ checking (primaryDb (stores w)) (secondaryDb (stores w)) w'
    /\ (v = None <-> accepts (primaryDb (stores w)) user revision)
    /\ (forall res, v = Some res -> isFailed res = true).
Proof.
  intros Hrel. unfold checkRevision, Uuid_create, accepts.
  destruct (isValidUuid (revisionId revision)) eqn:Hvalid.
  - erewrite bind_returns by (apply findOneByUuid_succeeds, Hrel).
    simpl getDb.
    destruct (lookupRevision _ _ _) as [found|] eqn:Hfound.
    + destruct (updatedAt found >? updatedAt revision) eqn:Hnewer.
      { eexists _, _. split; [reflexivity|]. split; [done|].
        split; [|done]. split; [|done].
        intros _. split; [done|]. exists found. split; [done|]. left. lia. }
      unfold isIdenticalTo. case_bool_decide as Hsame.
      { eexists _, _. split; [reflexivity|]. split; [done|].
        split; [|done]. split; [|done].
        intros _. split; [done|]. exists found. split; [done|]. by right. }
      eexists _, _. split; [reflexivity|]. split; [done|]. split.
      * split; [done|]. intros (_ & found' & Hf & Hor).
        assert (found' = found) as -> by congruence.
        destruct Hor; [lia|done].
      * intros res [= <-]. reflexivity.
    + eexists _, _. split; [reflexivity|]. split; [done|]. split.
      * split; [done|]. intros (_ & found' & Hf & _). discriminate.
      * intros res [= <-]. reflexivity.
  - exists (Some (Fail ("Given value is not a valid uuid: "
                        +:+ revisionId revision))), w.
    split; [reflexivity|]. split; [done|]. split.
    + split; [done|]. intros [? _]. discriminate.
    + intros res [= <-]. reflexivity.
Qed.

Lemma checkPage_verdict this user currentPage inPrimary inSecondary w :
  checking inPrimary inSecondary w ->
  exists v w', checkPage this user currentPage w = (inr v, w')
    /\ checking inPrimary inSecondary w'
    /\ (v = None
        <-> Forall (accepts inPrimary user)
              (page user ((currentPage - 1) * Z.pos (pageSize this))
                 (Z.pos (pageSize this)) inSecondary))
    /\ (forall res, v = Some res -> isFailed res = true).
Proof.
  intros (Hrel & HP & HS). unfold checkPage.
  unfold bind at 1. simpl.
  erewrite bind_returns by (apply findByUserUuid_succeeds, Hrel).
  simpl. rewrite HS.
  apply (forEachUntil_invariant (checking inPrimary inSecondary)
           (accepts inPrimary user) (fun res => isFailed res = true)).
  - intros x w1 (Hrel1 & HP1 & HS1).
    destruct (checkRevision_verdict user x w1 Hrel1)
      as (v & w2 & Hrun & Hinv & Hv & Hq).
    rewrite HP1, HS1 in *. by exists v, w2.
  - repeat split; done.
Qed.

Lemma checkPages_verdict this user inPrimary inSecondary pages w :
  checking inPrimary inSecondary w ->
  exists v w', forEachUntil pages (checkPage this user) w = (inr v, w')
    /\ checking inPrimary inSecondary w'
    /\ (v = None
        <-> Forall
              (fun p =>
                 Forall (accepts inPrimary user)
                   (page user ((p - 1) * Z.pos (pageSize this))
                      (Z.pos (pageSize this)) inSecondary)) pages)
    /\ (forall res, v = Some res -> isFailed res = true).
Proof.
  apply (forEachUntil_invariant (checking inPrimary inSecondary)
           (fun p =>
              Forall (accepts inPrimary user)
                (page user ((p - 1) * Z.pos (pageSize this))
                   (Z.pos (pageSize this)) inSecondary))
           (fun res => isFailed res = true)).
  intros p w1 Hw1. by apply checkPage_verdict.
Qed.


(** C5. For a user without revisions in the secondary store, [execute]
    publishes [Verified] and returns success; it makes no call to the
    primary store and writes neither cursor. *)
Theorem execute_short_circuit (this : UseCase) (dto : DTO) (user : string)
    (w : World) :
  secondRevisionsRepositoryIsSet this = true ->
  transitionStatusRepositoryIsSet this = true ->
  Uuid_create (dtoUserUuid dto) = Ok user ->
  faults w (calls w) = Succeed ->
  countOf user (secondaryDb (stores w)) = 0 ->
  exists w' trace,
    execute this dto w = (inr (Ok tt), w')
    /\ history w' = (history w ++ trace)%list
    /\ trace = [RepoCall Secondary (CountByUserUuid user);
                Published user Verified (dtoTimestamp dto) (stores w)]
    /\ Forall (fun e => touchesPrimary e = false
                        /\ writesProgress e = false) trace
    /\ stores w' = stores w.
Proof.
  intros Hsecond Hstatus Huser Hcall Hcount.
  unfold execute. rewrite Hsecond, Hstatus, Huser. simpl.
  unfold isAlreadyMigrated.
  unfold bind at 1. unfold bind at 1.
  rewrite countByUserUuid_succeeds by done.
  unfold getDb. unfold countOf in Hcount. rewrite Hcount. simpl.
  eexists _, _. split; [reflexivity|]. simpl.
  split; [by rewrite <- app_assoc|]. split; [reflexivity|].
  split; [|reflexivity]. by repeat constructor.
Qed.

(** C6. When the integrity check fails, both cursors are set to 1, then
    [Failed] is published with both cursors at 1, and [execute] returns the
    failure of the check. *)
Theorem execute_integrity_failure (this : UseCase) (dto : DTO)
    (user : string) (w w1 w2 w3 : World) (e : string) :
  secondRevisionsRepositoryIsSet this = true ->
  transitionStatusRepositoryIsSet this = true ->
  Uuid_create (dtoUserUuid dto) = Ok user ->
  isAlreadyMigrated user w = (inr false, w1) ->
  migrateRevisionsForUser this user (dtoTimestamp dto)
    (updateTransitionStatus user InProgress (dtoTimestamp dto) w1).2
  = (inr (Ok tt), w2) ->
  checkIntegrityBetweenPrimaryAndSecondaryDatabase this user
    (allowForPrimaryDatabaseToCatchUp w2).2
  = (inr (Fail e), w3) ->
  exists w' now,
    execute this dto w = (inr (Fail e), w')
    /\ history w'
       = (history w3
          ++ [SetPagingProgress user 1;
              SetIntegrityProgress user 1;
              Published user Failed (dtoTimestamp dto) now])%list
    /\ pagingProgress now !! user = Some 1
    /\ integrityProgress now !! user = Some 1
    /\ stores w' = now.
Proof.
  intros Hsecond Hstatus Huser Hcount Hmigrate Hcheck.
  unfold execute. rewrite Hsecond, Hstatus, Huser. simpl.
  rewrite (bind_returns _ _ _ _ _ Hcount).
  unfold bind at 1. simpl.
  simpl in Hmigrate. rewrite (bind_returns _ _ _ _ _ Hmigrate).
  unfold bind at 1. simpl.
  simpl in Hcheck. rewrite (bind_returns _ _ _ _ _ Hcheck).
  eexists _, _. split; [reflexivity|]. simpl.
  split; [by rewrite <- !app_assoc|].
  split; [apply lookup_insert_eq|]. split; [apply lookup_insert_eq|done].
Qed.


(** *** The scheduled behaviour of the repositories is never changed *)

Create HintDb faults.

Lemma keepsFaults_ret {A} (a : A) : keepsFaults (ret a).
Proof. intros w. reflexivity. Qed.

Lemma keepsFaults_throw {A} message : keepsFaults (@throw A message).
Proof. intros w. reflexivity. Qed.

Lemma keepsFaults_perform e : keepsFaults (perform e).
Proof. intros w. reflexivity. Qed.

Lemma keepsFaults_bind {A B} (m : M A) (k : A -> M B) :
  keepsFaults m -> (forall a, keepsFaults (k a)) -> keepsFaults (bind m k).
Proof.
  intros Hm Hk w. unfold bind. specialize (Hm w).
  destruct (m w) as [[e|a] w1]; simpl in *; [done|].
  by rewrite Hk.
Qed.

Lemma keepsFaults_tryCatch {A} (m : M A) (handler : string -> M A) :
  keepsFaults m -> (forall e, keepsFaults (handler e)) ->
  keepsFaults (tryCatch m handler).
Proof.
  intros Hm Hh w. unfold tryCatch. specialize (Hm w).
  destruct (m w) as [[e|a] w1]; simpl in *; [|done].
  by rewrite Hh.
Qed.

Lemma keepsFaults_repoCall {A} db c
    (normal : list Revision -> A * list Revision) refused :
  keepsFaults (repoCall db c normal refused).
Proof.
  intros w. unfold repoCall.
  destruct (faults w (calls w));
    [|reflexivity|destruct refused; [reflexivity|]];
    simpl;
    match goal with |- context [normal ?l] => destruct (normal l) end;
    reflexivity.
Qed.

Lemma keepsFaults_forEach {A} (l : list A) (body : A -> M unit) :
  (forall x, keepsFaults (body x)) -> keepsFaults (forEach l body).
Proof.
  intros Hbody. induction l as [|x l IH]; simpl.
  - apply keepsFaults_ret.
  - apply keepsFaults_bind; [apply Hbody | intros _; apply IH].
Qed.

#[local] Hint Resolve keepsFaults_ret keepsFaults_throw keepsFaults_perform
  keepsFaults_repoCall : faults.

Ltac keeps :=
  repeat first
    [ apply keepsFaults_bind; [|intros ?]
    | apply keepsFaults_tryCatch; [|intros ?]
    | apply keepsFaults_forEach; intros ?
    | solve [auto with faults]
    | solve [intros ?; reflexivity]
    | match goal with
      | |- keepsFaults (match ?x with _ => _ end) => destruct x
      end ].

Lemma keepsFaults_migrateRevision revision :
  keepsFaults (migrateRevision revision).
Proof.
  unfold migrateRevision, migrateRevisionBody, saveRevision, getValue,
    findOneByUuid, removeOneByUuid, insert, logError,
    allowForPrimaryDatabaseToCatchUp.
  keeps.
Qed.

Lemma migrateRevision_returns revision w :
  exists w', migrateRevision revision w = (inr tt, w')
             /\ faults w' = faults w.
Proof.
  pose proof (keepsFaults_migrateRevision revision w) as Hfaults.
  unfold migrateRevision, tryCatch in *.
  destruct (migrateRevisionBody revision w) as [[e|[]] w1].
  - eexists. split; [reflexivity|]. exact Hfaults.
  - eexists. split; [reflexivity|]. exact Hfaults.
Qed.

Lemma forEach_returns {A} (I : World -> Prop) (body : A -> M unit) :
  (forall x w, I w -> exists w', body x w = (inr tt, w') /\ I w') ->
  forall l w, I w -> exists w', forEach l body w = (inr tt, w') /\ I w'.
Proof.
  intros Hbody l. induction l as [|x l IH]; intros w Hw.
  - by exists w.
  - destruct (Hbody x w Hw) as (w1 & Hrun & Hw1).
    simpl. rewrite (bind_returns _ _ _ _ _ Hrun). by apply IH.
Qed.

Lemma noThrow_faults w w' : faults w' = faults w -> noThrow w -> noThrow w'.
Proof. intros Heq H n m. rewrite Heq. apply H. Qed.

Lemma repoCall_returns {A} db c
    (normal : list Revision -> A * list Revision) refused w :
  noThrow w ->
  exists a w', repoCall db c normal refused w = (inr a, w')
               /\ faults w' = faults w.
Proof.
  intros Hno.
  pose proof (keepsFaults_repoCall db c normal refused w) as Hfaults.
  unfold repoCall in *.
  destruct (faults w (calls w)) as [|m|] eqn:Hb.
  - simpl in *. destruct (normal _). by eexists _, _.
  - by destruct (Hno (calls w) m).
  - destruct refused; simpl in *; [by eexists _, _|].
    destruct (normal _). by eexists _, _.
Qed.

Lemma migratePage_returns this user timestamp totalPages currentPage w :
  noThrow w ->
  exists w', migratePage this user timestamp totalPages currentPage w
             = (inr tt, w') /\ noThrow w'.
Proof.
  intros Hno. unfold migratePage.
  set (keepAlive := if remIsZero currentPage (ceilDiv totalPages 10)
                    then updateTransitionStatus user InProgress timestamp
                    else ret tt).
  assert (exists w1, keepAlive w = (inr tt, w1) /\ faults w1 = faults w)
    as (w1 & Hkeep & Hf1).
  { unfold keepAlive. destruct (remIsZero _ _); by eexists. }
  rewrite (bind_returns _ _ _ _ _ Hkeep).
  unfold bind at 1. simpl.
  match goal with
  | |- context [bind (findByUserUuid ?db ?u ?o ?l) _ ?w0] =>
      destruct (repoCall_returns db (FindByUserUuid u o l)
                  (fun l0 => (page u o l l0, l0)) None w0)
        as (revisions & w2 & Hfind & Hf2)
  end.
  { apply (noThrow_faults w); [|done]. simpl. exact Hf1. }
  unfold findByUserUuid.
  rewrite (bind_returns _ _ _ _ _ Hfind).
  apply (forEach_returns noThrow).
  - intros x w3 Hw3.
    destruct (migrateRevision_returns x w3) as (w4 & Hrun & Hf4).
    exists w4. split; [done|]. by apply (noThrow_faults w3).
  - apply (noThrow_faults w); [|done]. rewrite Hf2. simpl. exact Hf1.
Qed.

Lemma migrateRevisionsForUser_returns this user timestamp w :
  noThrow w ->
  exists w', migrateRevisionsForUser this user timestamp w
             = (inr (Ok tt), w') /\ noThrow w'.
Proof.
  intros Hno. unfold migrateRevisionsForUser, tryCatch.
  unfold bind at 1. simpl.
  match goal with
  | |- context [bind (countByUserUuid ?db ?u) _ ?w0] =>
      destruct (repoCall_returns db (CountByUserUuid u)
                  (fun l => (Z.of_nat (length (revisionsOf u l)), l))
                  None w0)
        as (total & w1 & Hcount & Hf1)
  end.
  { by apply (noThrow_faults w). }
  unfold countByUserUuid. rewrite (bind_returns _ _ _ _ _ Hcount).
  match goal with
  | |- context [forEach ?pages ?body] =>
      destruct (forEach_returns noThrow body
                  (fun p w0 H => migratePage_returns this user timestamp
                                   _ p w0 H) pages w1)
        as (w2 & Hpages & Hw2)
  end.
  { by apply (noThrow_faults w). }
  rewrite (bind_returns _ _ _ _ _ Hpages).
  by exists w2.
Qed.

(** *** Refused inserts are logged *)

Lemma repoCalls_app a b :
  repoCalls (a ++ b) = (repoCalls a + repoCalls b)%nat.
Proof.
  induction a as [|e a IH]; [reflexivity|].
  destruct e; simpl; by rewrite ?IH.
Qed.

Lemma refusedInserts_app plan next a b :
  refusedInserts plan next (a ++ b)
  = (refusedInserts plan next a
     ++ refusedInserts plan (next + repoCalls a) b)%list.
Proof.
  revert next. induction a as [|e a IH]; intros next; simpl.
  - by rewrite Nat.add_0_r.
  - destruct e as [db c| | | | | | |]; simpl; rewrite ?IH; try done.
    replace (next + S (repoCalls a))%nat with (S next + repoCalls a)%nat
      by lia.
    destruct db, c, (plan next); reflexivity.
Qed.

Lemma logsRefusals_ret {A} (a : A) : logsRefusals (ret a).
Proof.
  intros w. exists []. simpl. rewrite app_nil_r, Nat.add_0_r.
  repeat split. by intros r ?%elem_of_nil.
Qed.

Lemma logsRefusals_throw {A} message : logsRefusals (@throw A message).
Proof.
  intros w. exists []. simpl. rewrite app_nil_r, Nat.add_0_r.
  repeat split. by intros r ?%elem_of_nil.
Qed.

Lemma logsRefusals_after {A} (m : M A) w :
  logsRefusals m ->
  forall (rest : list Effect) w2,
    (exists trace2,
        history w2 = (history (m w).2 ++ trace2)%list
        /\ calls w2 = (calls (m w).2 + repoCalls trace2)%nat
        /\ faults w2 = faults (m w).2
        /\ forall r, r ∈ refusedInserts (faults (m w).2) (calls (m w).2)
                           trace2 -> notSaved r ∈ trace2) ->
    exists trace,
      history w2 = (history w ++ trace)%list
      /\ calls w2 = (calls w + repoCalls trace)%nat
      /\ faults w2 = faults w
      /\ forall r, r ∈ refusedInserts (faults w) (calls w) trace ->
                   notSaved r ∈ trace.
Proof.
  intros Hm _ w2 (t2 & Hh2 & Hc2 & Hf2 & Hr2).
  destruct (Hm w) as (t1 & Hh1 & Hc1 & Hf1 & Hr1).
  exists (t1 ++ t2)%list.
  rewrite Hh2, Hh1, Hc2, Hc1, Hf2, Hf1, repoCalls_app, app_assoc.
  split; [done|]. split; [lia|]. split; [done|].
  intros r. rewrite refusedInserts_app, !elem_of_app.
  rewrite Hf1, Hc1 in Hr2. intros [Hin|Hin]; [left|right]; auto.
Qed.

Lemma logsRefusals_bind {A B} (m : M A) (k : A -> M B) :
  logsRefusals m -> (forall a, logsRefusals (k a)) -> logsRefusals (bind m k).
Proof.
  intros Hm Hk w. apply (logsRefusals_after m w Hm []).
  unfold bind. destruct (m w) as [[e|a] w1]; simpl.
  - exists []. rewrite app_nil_r, Nat.add_0_r. repeat split.
    by intros r ?%elem_of_nil.
  - apply Hk.
Qed.

Lemma logsRefusals_tryCatch {A} (m : M A) (handler : string -> M A) :
  logsRefusals m -> (forall e, logsRefusals (handler e)) ->
  logsRefusals (tryCatch m handler).
Proof.
  intros Hm Hh w. apply (logsRefusals_after m w Hm []).
  unfold tryCatch. destruct (m w) as [[e|a] w1]; simpl.
  - apply Hh.
  - exists []. rewrite app_nil_r, Nat.add_0_r. repeat split.
    by intros r ?%elem_of_nil.
Qed.

Lemma logsRefusals_forEach {A} (l : list A) (body : A -> M unit) :
  (forall x, logsRefusals (body x)) -> logsRefusals (forEach l body).
Proof.
  intros Hbody. induction l as [|x l IH]; simpl.
  - apply logsRefusals_ret.
  - apply logsRefusals_bind; [apply Hbody | intros _; apply IH].
Qed.

(** A step that is no repository call. *)
Lemma logsRefusals_effect {A} (f : World -> A) (g : World -> World) e :
  match e with RepoCall _ _ => False | _ => True end ->
  (forall w, history (g w) = (history w ++ [e])%list
             /\ calls (g w) = calls w /\ faults (g w) = faults w) ->
  logsRefusals (fun w => (inr (f w), g w)).
Proof.
  intros He Hg w. destruct (Hg w) as (Hh & Hc & Hf). exists [e]. simpl.
  split; [exact Hh|].
  destruct e; try destruct He; simpl; rewrite Nat.add_0_r;
    (split; [exact Hc|]); (split; [exact Hf|]);
    by intros r ?%elem_of_nil.
Qed.

Lemma logsRefusals_repoCall {A} db c
    (normal : list Revision -> A * list Revision) refused :
  match db, c with Primary, Insert _ => False | _, _ => True end ->
  logsRefusals (repoCall db c normal refused).
Proof.
  intros Hc w. exists [RepoCall db c].
  assert (refusedInserts (faults w) (calls w) [RepoCall db c] = []) as ->.
  { simpl. destruct db, c, (faults w (calls w)); try reflexivity;
      destruct Hc. }
  simpl. unfold repoCall.
  destruct (faults w (calls w));
    [|simpl|destruct refused; simpl];
    try (destruct (normal _)); simpl;
    (split; [reflexivity|]); (split; [lia|]); (split; [reflexivity|]);
    by intros r ?%elem_of_nil.
Qed.

Lemma logsRefusals_saveRevision revision :
  logsRefusals (saveRevision revision).
Proof.
  intros w. unfold saveRevision, insert, bind, repoCall, logError, perform.
  destruct (faults w (calls w)) eqn:Hplan; simpl.
  - exists [RepoCall Primary (Insert revision)]. simpl. rewrite Hplan.
    split; [reflexivity|]. split; [lia|]. split; [reflexivity|].
    by intros r ?%elem_of_nil.
  - exists [RepoCall Primary (Insert revision)]. simpl. rewrite Hplan.
    split; [reflexivity|]. split; [lia|]. split; [reflexivity|].
    by intros r ?%elem_of_nil.
  - exists [RepoCall Primary (Insert revision); notSaved revision].
    simpl. rewrite Hplan.
    split; [by rewrite <- app_assoc|]. split; [lia|].
    split; [reflexivity|].
    intros r ->%list_elem_of_singleton. right. left.
Qed.

Ltac logging_with leaf :=
  repeat first
    [ leaf
    | apply logsRefusals_saveRevision
    | apply logsRefusals_bind; [|intros ?]
    | apply logsRefusals_tryCatch; [|intros ?]
    | apply logsRefusals_forEach; intros ?
    | apply logsRefusals_ret
    | apply logsRefusals_throw
    | apply logsRefusals_repoCall; exact I
    | match goal with
      | |- logsRefusals (perform ?e) =>
          apply (logsRefusals_effect _ _ e); [exact I | by intros ?]
      | |- logsRefusals (getPagingProgress ?u) =>
          apply (logsRefusals_effect _ _ (GetPagingProgress u));
          [exact I | by intros ?]
      | |- logsRefusals (setPagingProgress ?u ?p) =>
          apply (logsRefusals_effect _ _ (SetPagingProgress u p));
          [exact I | by intros ?]
      | |- logsRefusals (match ?x with _ => _ end) => destruct x
      end ].

Ltac logging := logging_with fail.

Lemma logsRefusals_updateTransitionStatus user status timestamp :
  logsRefusals (updateTransitionStatus user status timestamp).
Proof.
  intros w. exists [Published user status timestamp (stores w)]. simpl.
  rewrite Nat.add_0_r. repeat split. by intros r ?%elem_of_nil.
Qed.

Lemma logsRefusals_migrateRevision revision :
  logsRefusals (migrateRevision revision).
Proof.
  unfold migrateRevision, migrateRevisionBody, getValue, findOneByUuid,
    removeOneByUuid, logError, allowForPrimaryDatabaseToCatchUp.
  logging.
Qed.

Lemma logsRefusals_migrateRevisionsForUser this user timestamp :
  logsRefusals (migrateRevisionsForUser this user timestamp).
Proof.
  unfold migrateRevisionsForUser, migratePage, countByUserUuid,
    findByUserUuid.
  logging_with
    ltac:(first [ apply logsRefusals_migrateRevision
                | apply logsRefusals_updateTransitionStatus ]).
Qed.


(** *** The end of [execute] *)

Lemma revisionsOf_removed user l :
  revisionsOf user (filter (fun r => userUuid r <> user) l) = [].
Proof.
  unfold revisionsOf. induction l as [|r l IH]; [reflexivity|].
  destruct (decide (userUuid r = user)) as [Heq|Hne].
  - rewrite filter_cons_False by (intros H; by apply H). exact IH.
  - rewrite filter_cons_True by done.
    rewrite filter_cons_False by done. exact IH.
Qed.

(** After a cleanup that works, [Verified] goes out over an emptied
    secondary store. *)
Lemma finish_after_cleanup user timestamp w :
  faults w (calls w) = Succeed ->
  exists w' now,
    finish user timestamp (Ok tt) w = (inr (Ok tt), w')
    /\ history w'
       = (history w
          ++ [RepoCall Secondary (RemoveByUserUuid user);
              Published user Verified timestamp now])%list
    /\ countOf user (secondaryDb now) = 0.
Proof.
  intros Hcall. unfold finish, deleteRevisionsForUser, tryCatch.
  unfold removeByUserUuid. unfold bind at 1. unfold bind at 1.
  rewrite repoCall_succeeds by done. simpl.
  eexists _, _. split; [reflexivity|]. simpl.
  split; [by rewrite <- app_assoc|].
  unfold countOf. simpl. by rewrite revisionsOf_removed.
Qed.

(** After a cleanup that throws, [Failed] goes out and then, the revisions
    still being in the secondary store, [Verified]. *)
Lemma finish_after_failed_cleanup user timestamp w message :
  faults w (calls w) = Throw message ->
  exists w' text,
    finish user timestamp (Ok tt) w = (inr (Ok tt), w')
    /\ history w'
       = (history w
          ++ [RepoCall Secondary (RemoveByUserUuid user);
              Published user Failed timestamp (stores w);
              LoggedError text;
              Published user Verified timestamp (stores w)])%list
    /\ stores w' = stores w.
Proof.
  intros Hcall. unfold finish, deleteRevisionsForUser, tryCatch.
  unfold removeByUserUuid. unfold bind at 1. unfold bind at 1.
  rewrite (repoCall_throws _ _ _ _ _ message) by done. simpl.
  eexists _, _. split; [reflexivity|]. simpl.
  split; [by rewrite <- !app_assoc|done].
Qed.

(** *** The order of the published statuses *)

Lemma emits_weaken {A} (P Q : Effect -> Prop) (m : M A) :
  (forall e, P e -> Q e) -> emits P m -> emits Q m.
Proof.
  intros HPQ Hm w. destruct (Hm w) as (trace & Hh & Hall).
  exists trace. split; [done|]. eapply Forall_impl; eauto.
Qed.

Lemma emits_ret {A} P (a : A) : emits P (ret a).
Proof. intros w. exists []. simpl. by rewrite app_nil_r. Qed.

Lemma emits_throw {A} P message : emits P (@throw A message).
Proof. intros w. exists []. simpl. by rewrite app_nil_r. Qed.

Lemma emits_perform (P : Effect -> Prop) e : P e -> emits P (perform e).
Proof. intros He w. exists [e]. split; [done|]. by constructor. Qed.

Lemma emits_bind {A B} P (m : M A) (k : A -> M B) :
  emits P m -> (forall a, emits P (k a)) -> emits P (bind m k).
Proof.
  intros Hm Hk w. unfold bind. destruct (Hm w) as (t1 & Hh1 & Hall1).
  destruct (m w) as [[e|a] w1]; simpl in *; [by exists t1|].
  destruct (Hk a w1) as (t2 & Hh2 & Hall2).
  exists (t1 ++ t2)%list. rewrite Hh2, Hh1, app_assoc.
  split; [done|]. by apply Forall_app.
Qed.

Lemma emits_tryCatch {A} P (m : M A) (handler : string -> M A) :
  emits P m -> (forall e, emits P (handler e)) -> emits P (tryCatch m handler).
Proof.
  intros Hm Hh w. unfold tryCatch. destruct (Hm w) as (t1 & Hh1 & Hall1).
  destruct (m w) as [[e|a] w1]; simpl in *; [|by exists t1].
  destruct (Hh e w1) as (t2 & Hh2 & Hall2).
  exists (t1 ++ t2)%list. rewrite Hh2, Hh1, app_assoc.
  split; [done|]. by apply Forall_app.
Qed.

Lemma emits_repoCall {A} (P : Effect -> Prop) db c
    (normal : list Revision -> A * list Revision) refused :
  P (RepoCall db c) -> emits P (repoCall db c normal refused).
Proof.
  intros Hc w. exists [RepoCall db c]. split; [|by constructor].
  unfold repoCall.
  destruct (faults w (calls w));
    [|reflexivity|destruct refused; [reflexivity|]];
    simpl;
    match goal with |- context [normal ?l] => destruct (normal l) end;
    reflexivity.
Qed.

Lemma emits_forEach {A} P (l : list A) (body : A -> M unit) :
  (forall x, emits P (body x)) -> emits P (forEach l body).
Proof.
  intros Hbody. induction l as [|x l IH]; simpl.
  - apply emits_ret.
  - apply emits_bind; [apply Hbody | intros _; apply IH].
Qed.

Lemma emits_forEachUntil {A R} P (l : list A) (body : A -> M (option R)) :
  (forall x, emits P (body x)) -> emits P (forEachUntil l body).
Proof.
  intros Hbody. induction l as [|x l IH]; simpl.
  - apply emits_ret.
  - apply emits_bind; [apply Hbody|].
    intros [r|]; [apply emits_ret | apply IH].
Qed.

Lemma emits_effect {A} (P : Effect -> Prop) (f : World -> A)
    (g : World -> World) e :
  P e -> (forall w, history (g w) = history w ++ [e])%list ->
  emits P (fun w => (inr (f w), g w)).
Proof. intros He Hg w. exists [e]. split; [apply Hg | by constructor]. Qed.

Lemma emits_updateTransitionStatus (P : Effect -> Prop) user status
    timestamp :
  (forall now, P (Published user status timestamp now)) ->
  emits P (updateTransitionStatus user status timestamp).
Proof.
  intros HP w. exists [Published user status timestamp (stores w)].
  split; [reflexivity | by constructor].
Qed.

Ltac emitting_with leaf :=
  repeat first
    [ leaf
    | apply emits_bind; [|intros ?]
    | apply emits_tryCatch; [|intros ?]
    | apply emits_forEach; intros ?
    | apply emits_forEachUntil; intros ?
    | apply emits_ret
    | apply emits_throw
    | apply emits_perform; exact I
    | apply emits_repoCall; exact I
    | match goal with
      | |- emits _ (getPagingProgress ?u) =>
          apply (emits_effect _ _ _ (GetPagingProgress u));
          [exact I | reflexivity]
      | |- emits _ (setPagingProgress ?u ?p) =>
          apply (emits_effect _ _ _ (SetPagingProgress u p));
          [exact I | reflexivity]
      | |- emits _ (getIntegrityProgress ?u) =>
          apply (emits_effect _ _ _ (GetIntegrityProgress u));
          [exact I | reflexivity]
      | |- emits _ (setIntegrityProgress ?u ?p) =>
          apply (emits_effect _ _ _ (SetIntegrityProgress u p));
          [exact I | reflexivity]
      | |- emits _ (match ?x with _ => _ end) => destruct x
      end ].

Ltac emitting := emitting_with fail.

Lemma emits_migrateRevision P revision :
  (forall e, silent e -> P e) -> emits P (migrateRevision revision).
Proof.
  intros HP. apply (emits_weaken silent); [exact HP|].
  unfold migrateRevision, migrateRevisionBody, saveRevision, getValue,
    findOneByUuid, removeOneByUuid, insert, logError,
    allowForPrimaryDatabaseToCatchUp.
  emitting.
Qed.

Lemma emits_migrateRevisionsForUser this user timestamp :
  emits keepsAlive (migrateRevisionsForUser this user timestamp).
Proof.
  unfold migrateRevisionsForUser, migratePage, countByUserUuid,
    findByUserUuid.
  emitting_with
    ltac:(first [ by apply emits_updateTransitionStatus
                | apply emits_migrateRevision; by intros [] ]).
Qed.

Lemma emits_checkIntegrity this user :
  emits silent (checkIntegrityBetweenPrimaryAndSecondaryDatabase this user).
Proof.
  unfold checkIntegrityBetweenPrimaryAndSecondaryDatabase, checkPage,
    checkRevision, countByUserUuid, findByUserUuid, findOneByUuid.
  emitting.
Qed.

Lemma emits_deleteRevisionsForUser user db :
  emits silent (deleteRevisionsForUser user db).
Proof. unfold deleteRevisionsForUser, removeByUserUuid. emitting. Qed.

Lemma tryCatch_returns {A} (m : M A) (handler : string -> M A) w :
  (forall e w0, exists a w', handler e w0 = (inr a, w')) ->
  exists a w', tryCatch m handler w = (inr a, w').
Proof.
  intros Hh. unfold tryCatch. destruct (m w) as [[e|a] w1]; [apply Hh|].
  by exists a, w1.
Qed.

Lemma publishedStatuses_app a b :
  publishedStatuses (a ++ b)
  = (publishedStatuses a ++ publishedStatuses b)%list.
Proof. apply omap_app. Qed.

Lemma publishedStatuses_silent trace :
  Forall silent trace -> publishedStatuses trace = [].
Proof.
  induction 1 as [|e trace He _ IH]; [reflexivity|].
  destruct e; simpl in *; try exact IH. destruct He.
Qed.

Lemma publishedStatuses_keepsAlive trace :
  Forall keepsAlive trace ->
  exists k, publishedStatuses trace = replicate k InProgress.
Proof.
  induction 1 as [|e trace He _ [k IH]]; [by exists 0%nat|].
  destruct e; simpl in *; try by exists k.
  exists (S k). simpl. by rewrite He, IH.
Qed.


Lemma emits_run {A} P (m : M A) w :
  emits P m ->
  exists r w' trace,
    m w = (r, w') /\ history w' = (history w ++ trace)%list
    /\ Forall P trace.
Proof.
  intros Hm. destruct (Hm w) as (trace & Hh & Hall).
  destruct (m w) as [r w'] eqn:Hrun. by exists r, w', trace.
Qed.

Lemma caught_run {A} P (m : M A) (handler : string -> M A) w :
  emits P (tryCatch m handler) ->
  (forall e w0, exists a w', handler e w0 = (inr a, w')) ->
  exists a w' trace,
    tryCatch m handler w = (inr a, w')
    /\ history w' = (history w ++ trace)%list /\ Forall P trace.
Proof.
  intros Hm Hh.
  destruct (emits_run P _ w Hm) as (r & w' & trace & Hrun & Hhist & Hall).
  destruct (tryCatch_returns m handler w Hh) as (a & w'' & Hret).
  rewrite Hret in Hrun. injection Hrun as <- <-. by exists a, w'', trace.
Qed.

Lemma finish_published user timestamp verdict w :
  exists trace,
    history (finish user timestamp verdict w).2 = (history w ++ trace)%list
    /\ (publishedStatuses trace = [Failed]
        \/ publishedStatuses trace = [Verified]
        \/ publishedStatuses trace = [Failed; Verified]).
Proof.
  unfold finish. destruct verdict as [[]|e].
  - destruct (caught_run silent
                (removeByUserUuid Secondary user;; ret (Ok tt))
                (fun message =>
                   ret (Fail ("Errored when deleting revisions for user "
                              +:+ user +:+ ": " +:+ message))) w)
      as (cleanup & w1 & t1 & Hrun & Hhist & Hsilent).
    { apply emits_deleteRevisionsForUser. }
    { intros e w0. by eexists _, _. }
    apply publishedStatuses_silent in Hsilent.
    unfold deleteRevisionsForUser.
    rewrite (bind_returns _ _ _ _ _ Hrun).
    destruct cleanup as [[]|e]; simpl; rewrite Hhist, <- ?app_assoc;
      eexists; (split; [reflexivity|]);
      rewrite publishedStatuses_app, Hsilent; simpl; auto.
  - eexists. simpl. rewrite <- !app_assoc. split; [reflexivity|].
    simpl. auto.
Qed.

(** Every call of [execute] publishes nothing, or only [Verified], or
    [InProgress], keep-alives and one terminal status, or, when the cleanup
    of the secondary store fails, [InProgress], keep-alives, [Failed] and
    then [Verified]. *)
Theorem execute_published_order (this : UseCase) (dto : DTO) (w : World) :
  exists trace,
    history (execute this dto w).2 = (history w ++ trace)%list
    /\ Published_order (publishedStatuses trace).
Proof.
  assert (Hnothing : exists trace,
             history w = (history w ++ trace)%list
             /\ Published_order (publishedStatuses trace)).
  { exists []. rewrite app_nil_r. split; [done|constructor]. }
  unfold execute.
  destruct (secondRevisionsRepositoryIsSet this); [|exact Hnothing].
  destruct (transitionStatusRepositoryIsSet this); [|exact Hnothing].
  destruct (Uuid_create (dtoUserUuid dto)) as [user|]; [|exact Hnothing].
  simpl. clear Hnothing.
  destruct (emits_run silent (isAlreadyMigrated user) w)
    as (migrated & w1 & t1 & Hrun1 & Hhist1 & Hsilent1).
  { unfold isAlreadyMigrated, countByUserUuid. emitting. }
  apply publishedStatuses_silent in Hsilent1.
  destruct migrated as [e|[]].
  { (* the count on the secondary store throws *)
    rewrite (bind_throws _ _ _ _ _ Hrun1). exists t1.
    split; [done|]. rewrite Hsilent1. constructor. }
  { (* already migrated *)
    rewrite (bind_returns _ _ _ _ _ Hrun1). simpl. rewrite Hhist1.
    eexists. rewrite <- app_assoc. split; [reflexivity|].
    rewrite publishedStatuses_app, Hsilent1. constructor. }
  rewrite (bind_returns _ _ _ _ _ Hrun1). unfold bind at 1. simpl.
  match goal with
  | |- context [bind (migrateRevisionsForUser _ _ _) _ ?w0] =>
      destruct (caught_run keepsAlive
                  (let* initialPage := getPagingProgress user in
                   let* totalRevisionsCountForUser :=
                     countByUserUuid Secondary user in
                   forEach
                     (pagesFrom initialPage
                        (ceilDiv totalRevisionsCountForUser (pageSize this)))
                     (migratePage this user (dtoTimestamp dto)
                        (ceilDiv totalRevisionsCountForUser (pageSize this)));;
                   ret (Ok tt))
                  (fun message =>
                     ret (Fail ("Errored when migrating revisions for user "
                                +:+ user +:+ ": " +:+ message))) w0)
        as (migration & w2 & t2 & Hrun2 & Hhist2 & Halive)
  end.
  { apply emits_migrateRevisionsForUser. }
  { intros e w0. by eexists _, _. }
  apply publishedStatuses_keepsAlive in Halive as [k Halive].
  simpl in Hhist2. unfold migrateRevisionsForUser.
  rewrite (bind_returns _ _ _ _ _ Hrun2).
  destruct migration as [[]|e].
  2:{ (* the migration fails *)
    simpl. rewrite Hhist2, Hhist1, <- !app_assoc.
    eexists. split; [reflexivity|].
    rewrite !publishedStatuses_app, Hsilent1, Halive. simpl.
    by apply (order_attempt k Failed). }
  unfold bind at 1. simpl.
  match goal with
  | |- context [bind (checkIntegrityBetweenPrimaryAndSecondaryDatabase _ _)
                  _ ?w0] =>
      destruct (emits_run silent
                  (checkIntegrityBetweenPrimaryAndSecondaryDatabase this user)
                  w0 (emits_checkIntegrity this user))
        as (checked & w3 & t3 & Hrun3 & Hhist3 & Hsilent3)
  end.
  apply publishedStatuses_silent in Hsilent3. simpl in Hhist3.
  destruct checked as [e|verdict].
  { (* cannot happen: the check catches every exception *)
    rewrite (bind_throws _ _ _ _ _ Hrun3).
    unfold checkIntegrityBetweenPrimaryAndSecondaryDatabase in Hrun3.
    match type of Hrun3 with
    | tryCatch ?m ?h ?w0 = _ =>
        destruct (tryCatch_returns m h w0) as (a & w' & Hret)
    end.
    { intros e0 w0. by eexists _, _. }
    rewrite Hret in Hrun3. discriminate Hrun3. }
  rewrite (bind_returns _ _ _ _ _ Hrun3).
  destruct (finish_published user (dtoTimestamp dto) verdict w3)
    as (t4 & Hhist4 & Hend).
  exists (t1 ++ [Published user InProgress (dtoTimestamp dto) (stores w1)]
          ++ t2 ++ [Slept 2000] ++ t3 ++ t4)%list.
  split.
  { rewrite Hhist4, Hhist3, Hhist2, Hhist1, <- !app_assoc. reflexivity. }
  rewrite !publishedStatuses_app, Hsilent1, Hsilent3, Halive. simpl.
  destruct Hend as [ -> | [ -> | -> ] ].
  - by apply (order_attempt k Failed).
  - by apply (order_attempt k Verified).
  - apply order_failed_cleanup.
Qed.

End RevisionsTheory.

Module RunsTheory.

Import Revisions RefusalNotions Scenarios RevisionsTheory.

(** C1. A run in which the cleanup of the secondary store throws: [execute]
    returns success and its last effect is the [Verified] event, published
    while the user still has one revision in the secondary store. *)
Theorem verified_with_revisions_left :
  exists w' now,
    execute useCase request cleanupFails = (inr (Ok tt), w')
    /\ last (history w') = Some (Published user0 Verified 7 now)
    /\ countOf user0 (secondaryDb now) = 1.
Proof.
  eexists _, _. split; [vm_compute; reflexivity|].
  split; vm_compute; reflexivity.
Qed.

(** C2. The same run publishes [InProgress], a keep-alive, [Failed] and
    then [Verified]: two terminal events in one attempt. *)
Theorem failed_then_verified :
  publishedStatuses (history (execute useCase request cleanupFails).2)
  = [InProgress; InProgress; Failed; Verified].
Proof. vm_compute. reflexivity. Qed.

(** *** The scenarios of the specification *)

(** S1: pages 1 to 3 are migrated, primary receives the twelve revisions,
    the check passes, secondary is emptied and [Verified] goes out. *)
Example fresh_migration :
  let '(result, w') := execute useCase request fresh in
  result = inr (Ok tt)
  /\ primaryDb (stores w') = map numbered (seq 0 12)
  /\ secondaryDb (stores w') = []
  /\ pagingProgress (stores w') !! user0 = Some 3
  /\ last (publishedStatuses (history w')) = Some Verified.
Proof. vm_compute. repeat split. Qed.

(** S2: the migration resumes at page 2. *)
Example resumed_migration :
  let '(result, w') := execute useCase request resumed in
  result = inr (Ok tt)
  /\ fetchedOffsets (history w') = [5; 10; 0; 5; 10]
  /\ primaryDb (stores w') = map numbered (seq 0 12)
  /\ secondaryDb (stores w') = [].
Proof. vm_compute. repeat split. Qed.

(** S4: a revision of secondary is missing in primary after the migration;
    the check fails, both cursors go back to 1 and [Failed] goes out. *)
Example integrity_failure :
  let '(result, w') := execute useCase request missing in
  result
  = inr (Fail ("Revision " +:+ revisionId revisionB
               +:+ " not found in primary database"))
  /\ pagingProgress (stores w') !! user0 = Some 1
  /\ integrityProgress (stores w') !! user0 = Some 1
  /\ publishedStatuses (history w') = [InProgress; InProgress; Failed].
Proof. vm_compute. repeat split. Qed.

(** *** The theorems at work on the concrete runs *)



Lemma execute_short_circuit_witness :
  exists w',
    execute useCase request emptyWorld = (inr (Ok tt), w')
    /\ publishedStatuses (history w') = [Verified]
    /\ stores w' = stores emptyWorld.
Proof.
  destruct (execute_short_circuit useCase request user0 emptyWorld)
    as (w' & trace & Hrun & Hhistory & Htrace & _ & Hstores);
    try reflexivity.
  exists w'. split; [exact Hrun|]. split; [|exact Hstores].
  rewrite Hhistory, Htrace. reflexivity.
Defined.

Lemma execute_integrity_failure_witness :
  exists e w',
    execute useCase request insertRefused = (inr (Fail e), w')
    /\ pagingProgress (stores w') !! user0 = Some 1
    /\ integrityProgress (stores w') !! user0 = Some 1.
Proof.
  edestruct (execute_integrity_failure useCase request user0 insertRefused)
    as (w' & now & Hrun & _ & Hpaging & Hintegrity & Hstores).
  - reflexivity.
  - reflexivity.
  - reflexivity.
  - vm_compute. reflexivity.
  - vm_compute. reflexivity.
  - vm_compute. reflexivity.
  - eexists _, w'. split; [exact Hrun|]. rewrite Hstores. by split.
Defined.



End RunsTheory.

Module SchedulerTheory.

Import Scheduler DriverNotions.

Lemma hasRole_elem (name : string) (l : list string) :
  existsb (fun role => String.eqb role name) l = true <-> name ∈ l.
Proof.
  induction l as [|x l IH]; simpl.
  - split; [discriminate|]. by intros ?%elem_of_nil.
  - rewrite orb_true_iff, IH, elem_of_cons, String.eqb_eq.
    split; intros [?|?]; auto.
Qed.

Lemma requested_iff (status : option Status) (forceRun : bool) :
  (isNull status || statusIs status Failed
   || (statusIs status InProgress && forceRun)) = true
  <-> triggers status forceRun.
Proof.
  unfold triggers. destruct status as [[]|], forceRun; simpl;
    split; intros H; try discriminate H; try reflexivity;
    try (destruct H as [H|[H|[H H']]]; discriminate); auto.
Qed.

Lemma skip_iff (l : list string) (items revisions : option Status) :
  (negb (existsb (fun role => String.eqb role TransitionUser) l)
   && (statusIs items Verified && statusIs revisions Verified)) = true
  <-> (TransitionUser ∉ l)
      /\ items = Some Verified /\ revisions = Some Verified.
Proof.
  rewrite <- hasRole_elem.
  destruct (existsb _ l), items as [[]|], revisions as [[]|]; simpl;
    split; intros H; try discriminate H; try reflexivity;
    try (destruct H as (H1 & H2 & H3);
         first [discriminate H2 | discriminate H3 | by destruct H1]).
  split; [discriminate|done].
Qed.

Lemma due_triggers status forceRun :
  due status forceRun = true <-> triggers status forceRun.
Proof. apply requested_iff. Qed.

(** The loop body, spelled out. *)
Lemma processUser_explicit forceRun timestamp user n w :
  processUser forceRun timestamp user (n, w)
  = (mkCounters
       (itemTransitionsTriggered n
        + requestCount Items (userTrace forceRun timestamp user (statuses w)))
       (revisionTransitionsTriggered n
        + requestCount Revisions
            (userTrace forceRun timestamp user (statuses w))),
     mkWorld (users w) (rowsAfter forceRun user (statuses w)) (clock w)
       (history w ++ userTrace forceRun timestamp user (statuses w))).
Proof.
  unfold processUser, getStatus, userTrace, rowsAfter, passedOver,
    publishTransitionRequested, remove, record.
  simpl.
  destruct (negb _ && _).
  { destruct n, w. unfold requestCount. simpl.
    rewrite <- !app_assoc. simpl. repeat f_equal; lia. }
  unfold block, rowsAfterBlock, due.
  destruct (isNull (statuses w !! (uuid user, Items)) || _ || _);
    destruct (isNull (statuses w !! (uuid user, Revisions)) || _ || _);
    destruct n, w; unfold requestCount; simpl;
    rewrite <- !app_assoc; simpl; repeat f_equal; lia.
Qed.

Lemma elem_block forceRun timestamp user type status id type' ts :
  PublishedTransitionRequested id type' ts
  ∈ block forceRun timestamp user type status
  <-> id = user /\ type' = type /\ ts = timestamp
      /\ due status forceRun = true.
Proof.
  unfold block. destruct (due status forceRun).
  - rewrite !elem_of_cons, elem_of_nil. split.
    + intros [H|[H|[]]]; [discriminate H|]. by injection H as -> -> ->.
    + intros (-> & -> & -> & _). auto.
  - rewrite elem_of_nil. split; [done|]. by intros (_ & _ & _ & H).
Qed.

Lemma removed_block forceRun timestamp user type status id type' :
  Remove id type' ∈ block forceRun timestamp user type status
  <-> id = user /\ type' = type /\ due status forceRun = true.
Proof.
  unfold block. destruct (due status forceRun).
  - rewrite !elem_of_cons, elem_of_nil. split.
    + intros [H|[H|[]]]; [|discriminate H]. by injection H as -> ->.
    + intros (-> & -> & _). auto.
  - rewrite elem_of_nil. split; [done|]. by intros (_ & _ & H).
Qed.

Lemma passedOver_not_due forceRun user rows type :
  passedOver user rows = true ->
  due (rows !! (uuid user, type)) forceRun = false.
Proof.
  unfold passedOver. intros H.
  apply andb_prop in H as [_ H]. apply andb_prop in H as [Hi Hr].
  destruct type.
  - by destruct (rows !! (uuid user, Items)) as [[]|].
  - by destruct (rows !! (uuid user, Revisions)) as [[]|].
Qed.

(** The requests of the loop body: for the user, with the timestamp of the
    run, for the types that are due. *)
Lemma userTrace_requests forceRun timestamp user rows id type ts :
  PublishedTransitionRequested id type ts
  ∈ userTrace forceRun timestamp user rows
  <-> id = uuid user /\ ts = timestamp
      /\ due (rows !! (uuid user, type)) forceRun = true.
Proof.
  unfold userTrace. destruct (passedOver user rows) eqn:Hpassed; simpl;
    rewrite !elem_of_cons.
  - rewrite elem_of_nil. split.
    + intros [H|[H|[]]]; discriminate H.
    + intros (_ & _ & H). by rewrite passedOver_not_due in H.
  - rewrite elem_of_app, !elem_block. split.
    + intros [H|[H|[H|[H|H]]]]; try discriminate H.
      * by destruct H as (-> & -> & -> & H).
      * by destruct H as (-> & -> & -> & H).
    + intros (-> & -> & H). destruct type; auto 10.
Qed.

Lemma userTrace_removes forceRun timestamp user rows id type :
  Remove id type ∈ userTrace forceRun timestamp user rows
  <-> id = uuid user /\ due (rows !! (uuid user, type)) forceRun = true.
Proof.
  unfold userTrace. destruct (passedOver user rows) eqn:Hpassed; simpl;
    rewrite !elem_of_cons.
  - rewrite elem_of_nil. split.
    + intros [H|[H|[]]]; discriminate H.
    + intros (_ & H). by rewrite passedOver_not_due in H.
  - rewrite elem_of_app, !removed_block. split.
    + intros [H|[H|[H|[H|H]]]]; try discriminate H.
      * by destruct H as (-> & -> & H).
      * by destruct H as (-> & -> & H).
    + intros (-> & H). destruct type; auto 10.
Qed.

(** Each request of the loop body directly follows the removal of its
    row. *)
Lemma userTrace_removes_first forceRun timestamp user rows id type ts :
  PublishedTransitionRequested id type ts
  ∈ userTrace forceRun timestamp user rows ->
  directlyBefore (Remove id type) (PublishedTransitionRequested id type ts)
    (userTrace forceRun timestamp user rows).
Proof.
  intros Hin. apply userTrace_requests in Hin as (-> & -> & Hdue).
  unfold userTrace.
  destruct (passedOver user rows) eqn:Hpassed.
  { by rewrite (passedOver_not_due forceRun user rows type Hpassed) in Hdue. }
  destruct type.
  - unfold block at 1. rewrite Hdue.
    eexists [_; _; _], _. simpl. reflexivity.
  - unfold block at 2. rewrite Hdue.
    eexists ([_; _; _] ++ _)%list, []. simpl. reflexivity.
Qed.

Lemma rowsAfterBlock_lookup forceRun user type status rows id type' :
  rowsAfterBlock forceRun user type status rows !! (id, type')
  = if bool_decide (id = user /\ type' = type) && due status forceRun
    then None else rows !! (id, type').
Proof.
  unfold rowsAfterBlock. destruct (due status forceRun).
  - rewrite andb_true_r. case_bool_decide as Hkey.
    + destruct Hkey as [-> ->]. apply lookup_delete_eq.
    + apply lookup_delete_ne. intros [= <- <-]. by apply Hkey.
  - by rewrite andb_false_r.
Qed.

Lemma rowsAfter_lookup forceRun user rows id type :
  rowsAfter forceRun user rows !! (id, type)
  = if bool_decide (id = uuid user)
       && due (rows !! (uuid user, type)) forceRun
    then None else rows !! (id, type).
Proof.
  unfold rowsAfter. destruct (passedOver user rows) eqn:Hpassed.
  - rewrite (passedOver_not_due forceRun user rows type Hpassed).
    by rewrite andb_false_r.
  - rewrite !rowsAfterBlock_lookup.
    destruct (decide (id = uuid user)) as [->|Hid].
    + rewrite (bool_decide_eq_true_2 (uuid user = uuid user)) by done.
      destruct type;
        rewrite ?(bool_decide_eq_true_2 (_ /\ Items = Items)),
          ?(bool_decide_eq_true_2 (_ /\ Revisions = Revisions)),
          ?(bool_decide_eq_false_2 (_ /\ Items = Revisions)),
          ?(bool_decide_eq_false_2 (_ /\ Revisions = Items));
        try (by split); try (by intros [_ [=]]);
        simpl; by destruct (due _ _).
    + rewrite (bool_decide_eq_false_2 (id = uuid user)) by done.
      rewrite !bool_decide_eq_false_2 by (by intros [? _]). done.
Qed.

(** C7. For every user the driver examines and for each transition type:
    the user is skipped exactly when it lacks the [TransitionUser] role and
    both statuses are [Verified]; the transitions requested, whatever their
    user and timestamp, and the rows removed are exactly those of the user
    and of the types whose status is absent, [Failed], or [InProgress]
    under [forceRun], with the timestamp of the run; each request directly
    follows the removal of the status row of its user and type, and every
    other status row is left as it is. *)
Theorem processUser_decides (forceRun : bool) (timestamp : Z) (user : User)
    (n : Counters) (w : World) :
  let before := fun type => statuses w !! (uuid user, type) in
  let w' := (processUser forceRun timestamp user (n, w)).2 in
  exists trace,
    history w' = (history w ++ trace)%list
    /\ (skipped user trace
        <-> (TransitionUser ∉ roles user)
            /\ before Items = Some Verified
            /\ before Revisions = Some Verified)
    /\ (forall id type ts,
          PublishedTransitionRequested id type ts ∈ trace
          <-> id = uuid user /\ ts = timestamp
              /\ triggers (before type) forceRun)
    /\ (forall id type,
          Remove id type ∈ trace
          <-> id = uuid user /\ triggers (before type) forceRun)
    /\ (forall id type ts,
          PublishedTransitionRequested id type ts ∈ trace ->
          directlyBefore (Remove id type)
            (PublishedTransitionRequested id type ts) trace
          /\ statuses w' !! (id, type) = None)
    /\ (forall id type,
          ~ (id = uuid user /\ triggers (before type) forceRun) ->
          statuses w' !! (id, type) = statuses w !! (id, type)).
Proof.
  intros before w'. subst w' before. rewrite processUser_explicit. simpl.
  exists (userTrace forceRun timestamp user (statuses w)).
  split; [reflexivity|]. split; [|split; [|split; [|split]]].
  - unfold skipped, userTrace. rewrite <- skip_iff.
    change (negb (existsb (fun role => String.eqb role TransitionUser)
                    (roles user))
            && (statusIs (statuses w !! (uuid user, Items)) Verified
                && statusIs (statuses w !! (uuid user, Revisions)) Verified))
      with (passedOver user (statuses w)).
    destruct (passedOver user (statuses w)); simpl.
    + by split.
    + split; [intros H; discriminate H | done].
  - intros id type ts. by rewrite userTrace_requests, due_triggers.
  - intros id type. by rewrite userTrace_removes, due_triggers.
  - intros id type ts Hin. split; [by apply userTrace_removes_first|].
    apply userTrace_requests in Hin as (-> & _ & Hdue).
    by rewrite rowsAfter_lookup, bool_decide_eq_true_2, Hdue.
  - intros id type Hnot. rewrite rowsAfter_lookup.
    destruct (bool_decide (id = uuid user)) eqn:Hid; [|done].
    destruct (due (statuses w !! (uuid user, type)) forceRun) eqn:Hdue;
      [|done].
    destruct Hnot. split; [by apply bool_decide_eq_true in Hid|].
    by apply due_triggers.
Qed.

Lemma processUser_decides_witness :
  exists trace,
    history (processUser false 7 someUser (mkCounters 0 0, someWorld)).2
    = (history someWorld ++ trace)%list
    /\ PublishedTransitionRequested (uuid someUser) Items 7 ∈ trace
    /\ PublishedTransitionRequested (uuid someUser) Revisions 7 ∉ trace.
Proof.
  destruct (processUser_decides false 7 someUser (mkCounters 0 0) someWorld)
    as (trace & Hhistory & _ & Hrequested & _).
  exists trace. split; [exact Hhistory|]. split.
  - apply Hrequested. split; [reflexivity|]. split; [reflexivity|].
    right. left. reflexivity.
  - intros Hin. apply Hrequested in Hin.
    destruct Hin as (_ & _ & [H|[H|[H _]]]); discriminate H.
Defined.


(** The whole driver on [someWorld]: the failed items transition is
    requested again, the verified revisions transition is left alone. *)
Example driver_run :
  history (requestTransition (mkArgs 0 100 "false") someWorld)
  = [CountAllCreatedBetween 0 100;
     LoggedFound 1;
     FindAllCreatedBetween 0 100 0 100;
     GetStatus (uuid someUser) Items;
     GetStatus (uuid someUser) Revisions;
     LoggedTransitionStatus (uuid someUser) (Some Failed) (Some Verified)
       false;
     Remove (uuid someUser) Items;
     PublishedTransitionRequested (uuid someUser) Items 7;
     LoggedTriggered 1 0].
Proof. vm_compute. reflexivity. Qed.

End SchedulerTheory.

Module SyncingTheory.

Import Syncing.

Lemma parseOptional_present (o : option string) (v : string) r :
  o = Some v -> parseOptional o = Ok r -> r = Some v.
Proof.
  intros ->. unfold parseOptional, Uuid_create.
  destruct (isValidUuid v); [|discriminate]. by intros [= <-].
Qed.

(** What a successful run of [execute] has gone through. *)
Lemma execute_succeeds (this : UseCase) (dto : UpdateExistingItemDTO)
    (w w' : World) (updated : Item) :
  execute this dto w = (Ok updated, w') ->
  exists session performingUser type duplicate vault keySystem t d
         vaultAssociation w1 keyAssociation w2,
    Uuid_create (sessionUuid dto) = Ok session
    /\ Uuid_create (performingUserUuid dto) = Ok performingUser
    /\ parseOptional (duplicate_of (itemHash dto)) = Ok duplicate
    /\ parseOptional (shared_vault_uuid (itemHash dto)) = Ok vault
    /\ updateSharedVaultAssociation (existingItem dto) vault performingUser
         t w
       = (vaultAssociation, w1)
    /\ updateKeySystemAssociation (existingItem dto) keySystem t w1
       = (keyAssociation, w2)
    /\ updated
       = (if isDeleted (itemHash dto)
          then mkItem (itemId (existingItem dto))
                 (userUuid (existingItem dto)) (Some session)
                 None type None None None None true
                 d t vaultAssociation keyAssociation
          else mkItem (itemId (existingItem dto))
                 (userUuid (existingItem dto)) (Some session)
                 (hashContent (itemHash dto)) type
                 (enc_item_key (itemHash dto)) (auth_hash (itemHash dto))
                 (items_key_id (itemHash dto)) duplicate
                 (deleted (existingItem dto))
                 d t vaultAssociation keyAssociation)
    /\ Saved updated ∈ history w'
    /\ items w' !! itemId updated = Some updated.
Proof.
  unfold execute. intros Hrun.
  destruct (Uuid_create (sessionUuid dto)) as [session|];
    [|discriminate Hrun].
  destruct (Uuid_create (performingUserUuid dto)) as [performingUser|];
    [|discriminate Hrun].
  destruct (checkContentType _ _) as [type|]; [|discriminate Hrun].
  destruct (parseOptional (duplicate_of _)) as [duplicate|];
    [|discriminate Hrun].
  destruct (negb _); [discriminate Hrun|].
  destruct (parseOptional (shared_vault_uuid _)) as [vault|];
    [|discriminate Hrun].
  destruct (parseOptional (key_system_identifier _)) as [keySystem|];
    [|discriminate Hrun].
  destruct (timestampsOf _ _) as [t|]; [|discriminate Hrun].
  destruct (Dates_create _ _) as [d|]; [|discriminate Hrun].
  destruct (updateSharedVaultAssociation _ _ _ _ _)
    as [vaultAssociation w1] eqn:Hvault.
  destruct (updateKeySystemAssociation _ _ _ _)
    as [keyAssociation w2] eqn:Hkey.
  injection Hrun as <- <-.
  exists session, performingUser, type, duplicate, vault, keySystem, t, d,
    vaultAssociation, w1, keyAssociation, w2.
  repeat (split; [done|]). split.
  - destruct duplicate; simpl;
      rewrite !elem_of_app, !list_elem_of_singleton; auto.
  - destruct duplicate; simpl; apply lookup_insert_eq.
Qed.

(** C8. When the incoming hash is deleted, the item of a successful update
    is deleted, its content, item key, auth hash, items key id and
    duplicate reference are null (also when the hash names a duplicate),
    and this item is the one saved through the repository. *)
Theorem deletion_clears_item (this : UseCase) (dto : UpdateExistingItemDTO)
    (w w' : World) (updated : Item) :
  hashDeleted (itemHash dto) = Some true ->
  execute this dto w = (Ok updated, w') ->
  deleted updated = true
  /\ content updated = None
  /\ encItemKey updated = None
  /\ authHash updated = None
  /\ itemsKeyId updated = None
  /\ duplicateOf updated = None
  /\ Saved updated ∈ history w'
  /\ items w' !! itemId updated = Some updated.
Proof.
  intros Hdeleted Hrun.
  destruct (execute_succeeds _ _ _ _ _ Hrun)
    as (session & performingUser & type & duplicate & vault & keySystem
        & t & d & vaultAssociation & w1 & keyAssociation & w2
        & _ & _ & _ & _ & _ & _ & Hupdated & Hsaved & Hstored).
  unfold isDeleted in Hupdated. rewrite Hdeleted in Hupdated.
  repeat (split; [by rewrite Hupdated|]). by split.
Qed.

(** C9. When the hash carries a shared vault: an item without association,
    or associated to another vault, gets a new association to the vault of
    the hash; an item already associated to that vault keeps its
    association object, identifier included. *)
Theorem shared_vault_association_identity (this : UseCase)
    (dto : UpdateExistingItemDTO) (w w' : World) (updated : Item)
    (vault : string) :
  shared_vault_uuid (itemHash dto) = Some vault ->
  execute this dto w = (Ok updated, w') ->
  let existing := sharedVaultAssociation (existingItem dto) in
  ((existing = None
    \/ exists a, existing = Some a /\ sharedVaultUuid a <> vault) ->
   sharedVaultAssociation updated
   = Some (mkSharedVaultAssociation (nextEntityId w)
             (itemId (existingItem dto)) vault (performingUserUuid dto)
             (timestamps updated)))
  /\ (forall a,
        existing = Some a -> sharedVaultUuid a = vault ->
        sharedVaultAssociation updated = Some a
        /\ (sharedVaultAssociationId <$> sharedVaultAssociation updated)
           = (sharedVaultAssociationId <$> existing)).
Proof.
  intros Hvault Hrun existing.
  destruct (execute_succeeds _ _ _ _ _ Hrun)
    as (session & performingUser & type & duplicate & parsed & keySystem
        & t & d & vaultAssociation & w1 & keyAssociation & w2
        & _ & Hperformer & _ & Hparsed & Hassociation & _ & Hupdated & _).
  apply (parseOptional_present _ vault) in Hparsed as ->; [|done].
  assert (performingUser = performingUserUuid dto) as ->.
  { unfold Uuid_create in Hperformer.
    destruct (isValidUuid _); congruence. }
  assert (sharedVaultAssociation updated = vaultAssociation
          /\ timestamps updated = t) as [Hkept Ht].
  { rewrite Hupdated. by destruct (isDeleted _). }
  unfold updateSharedVaultAssociation in Hassociation.
  fold existing in Hassociation.
  split.
  - intros Hother.
    assert (sameVault existing vault = false) as Hsame.
    { destruct Hother as [->|(a & -> & Hne)]; [reflexivity|].
      simpl. by apply String.eqb_neq. }
    rewrite Hsame in Hassociation. simpl in Hassociation.
    injection Hassociation as <- _. by rewrite Hkept, Ht.
  - intros a Ha Hsame. rewrite Ha in Hassociation. simpl in Hassociation.
    rewrite (proj2 (String.eqb_eq _ _) Hsame) in Hassociation.
    injection Hassociation as <- _. by rewrite Hkept, Ha.
Qed.

(** Scenario S5: a deleted hash that also names a duplicate. *)
Lemma deletion_clears_item_witness :
  exists updated w',
    execute createUseCase
      (mkDTO item1
         (withDuplicateOf "00000000-0000-0000-0000-000000000001"
            (withDeleted itemHash1)) zeroUuid zeroUuid) emptyWorld
    = (Ok updated, w')
    /\ deleted updated = true
    /\ content updated = None
    /\ duplicateOf updated = None.
Proof.
  edestruct (deletion_clears_item createUseCase
               (mkDTO item1
                  (withDuplicateOf "00000000-0000-0000-0000-000000000001"
                     (withDeleted itemHash1)) zeroUuid zeroUuid)
               emptyWorld)
    as (Hdeleted & Hcontent & _ & _ & _ & Hduplicate & _).
  - reflexivity.
  - vm_compute. reflexivity.
  - eexists _, _. split; [vm_compute; reflexivity|].
    split; [exact Hdeleted|]. split; [exact Hcontent | exact Hduplicate].
Defined.

(** Scenario S6, second half: the hash names the vault the item is in. *)
Lemma shared_vault_association_identity_witness :
  exists updated w',
    execute createUseCase
      (mkDTO (withAssociation association1 item1)
         (withSharedVault zeroUuid itemHash1) zeroUuid zeroUuid) emptyWorld
    = (Ok updated, w')
    /\ sharedVaultAssociation updated = Some association1.
Proof.
  edestruct (shared_vault_association_identity createUseCase
               (mkDTO (withAssociation association1 item1)
                  (withSharedVault zeroUuid itemHash1) zeroUuid zeroUuid)
               emptyWorld)
    with (vault := zeroUuid) as (_ & Hkept).
  - reflexivity.
  - vm_compute. reflexivity.
  - eexists _, _. split; [vm_compute; reflexivity|].
    apply (Hkept association1); reflexivity.
Defined.


(** *** The cases of the test file *)

Example should_update_item :
  let '(result, w') := attempt item1 itemHash1 zeroUuid zeroUuid in
  isFailed result = false
  /\ exists saved, history w'
                   = [Saved saved;
                      Published (ItemRevisionCreationRequested zeroUuid
                                   zeroUuid)].
Proof. vm_compute. split; [reflexivity|]. by eexists. Qed.

Example invalid_session_uuid :
  isFailed (attempt item1 itemHash1 "invalid-uuid" zeroUuid).1 = true.
Proof. reflexivity. Qed.

Example invalid_performing_user_uuid :
  isFailed (attempt item1 itemHash1 zeroUuid "invalid-uuid").1 = true.
Proof. reflexivity. Qed.

Example invalid_content_type :
  isFailed
    (attempt item1 (withContentType "invalid" itemHash1) zeroUuid zeroUuid).1
  = true.
Proof. reflexivity. Qed.

Example invalid_duplicate_uuid :
  isFailed
    (attempt item1 (withDuplicateOf "invalid-uuid" itemHash1) zeroUuid
       zeroUuid).1
  = true.
Proof. reflexivity. Qed.

Example created_at_missing :
  isFailed (attempt item1 (withoutCreatedAt itemHash1) zeroUuid zeroUuid).1
  = true.
Proof. reflexivity. Qed.

Example invalid_shared_vault_uuid :
  isFailed
    (attempt item1 (withSharedVault "invalid-uuid" itemHash1) zeroUuid
       zeroUuid).1
  = true.
Proof. reflexivity. Qed.

Example marked_as_duplicate :
  match (attempt item1
           (withDuplicateOf "00000000-0000-0000-0000-000000000001" itemHash1)
           zeroUuid zeroUuid).1 with
  | Ok updated =>
      duplicateOf updated = Some "00000000-0000-0000-0000-000000000001"
  | Fail _ => False
  end.
Proof. reflexivity. Qed.

(** Scenario S6, first half: an item without association enters the vault
    of the hash. *)
Example shared_vault_added :
  match (attempt item1 (withSharedVault zeroUuid itemHash1) zeroUuid
           zeroUuid).1 with
  | Ok updated =>
      sharedVaultUuid <$> sharedVaultAssociation updated = Some zeroUuid
  | Fail _ => False
  end.
Proof. reflexivity. Qed.

End SyncingTheory.

(** * Whole runs *)

Module ListTheory.

(** Consecutive chunks of a list, enough of them, make up the list. *)
Lemma chunks_cover {A} (n k : nat) (l : list A) :
  (length l <= k * n)%nat ->
  concat (map (fun i => take n (drop (i * n) l)) (seq 0 k)) = l.
Proof.
  revert l. induction k as [|k IH]; intros l Hlen.
  - destruct l as [|x l]; [reflexivity|]. simpl in Hlen. lia.
  - simpl. rewrite <- seq_shift, map_map.
    rewrite drop_0.
    rewrite (map_ext _ (fun i => take n (drop (i * n) (drop n l)))).
    + rewrite IH; [apply take_drop|]. rewrite length_drop. lia.
    + intros i. rewrite drop_drop. f_equal; f_equal; lia.
Qed.

Lemma pages_cover {A} (size : positive) (l : list A) :
  concat
    (map (fun p => take (Z.to_nat (Z.pos size))
                     (drop (Z.to_nat ((p - 1) * Z.pos size)) l))
       (seqZ 1 (ceilDiv (Z.of_nat (length l)) size)))
  = l.
Proof.
  unfold seqZ. rewrite <- list_fmap_compose.
  rewrite <- (chunks_cover (Pos.to_nat size)
                (Z.to_nat (ceilDiv (Z.of_nat (length l)) size)) l) at 2.
  - f_equal. apply map_ext. intros i. simpl.
    replace (Z.of_nat i + 1 - 1) with (Z.of_nat i) by lia.
    rewrite Z2Nat.inj_mul by lia. by rewrite Nat2Z.id.
  - unfold ceilDiv.
    assert (Z.of_nat (length l)
            <= (Z.of_nat (length l) + Z.pos size - 1) / Z.pos size
               * Z.pos size).
    { pose proof (Z.div_mod (Z.of_nat (length l) + Z.pos size - 1)
                    (Z.pos size)) as Hdm.
      pose proof (Z.mod_pos_bound (Z.of_nat (length l) + Z.pos size - 1)
                    (Z.pos size)) as Hb.
      lia. }
    assert (0 <= (Z.of_nat (length l) + Z.pos size - 1) / Z.pos size).
    { apply Z.div_pos; lia. }
    lia.
Qed.

End ListTheory.

Module MigrationTheory.

Import Revisions RevisionsTheory MigrationNotions ListTheory.

(** *** A migration in which every repository call answers *)

Lemma reliable_faults w w' : faults w' = faults w -> reliable w -> reliable w'.
Proof. intros Heq H n. rewrite Heq. apply H. Qed.

Lemma setPrimary_same s : setDb Primary (primaryDb s) s = s.
Proof. by destruct s. Qed.

Lemma migrateRevision_reliable revision w :
  reliable w ->
  exists w',
    migrateRevision revision w = (inr tt, w')
    /\ reliable w'
    /\ stores w'
       = setDb Primary (afterRevision (primaryDb (stores w)) revision)
           (stores w).
Proof.
  intros Hrel.
  destruct (migrateRevision_returns revision w) as (w' & Hrun & Hfaults).
  exists w'. split; [exact Hrun|]. split; [by apply (reliable_faults w)|].
  revert Hrun. unfold migrateRevision, migrateRevisionBody, afterRevision,
    tryCatch, Uuid_create.
  destruct (isValidUuid (revisionId revision)) eqn:Hvalid; simpl.
  2:{ intros [= <-]. simpl. by destruct (stores w). }
  unfold bind at 1. simpl.
  erewrite bind_returns by (apply findOneByUuid_succeeds, Hrel).
  simpl.
  destruct (lookupRevision _ _ _) as [found|] eqn:Hfound.
  - destruct (updatedAt found >? updatedAt revision).
    { intros [= <-]. simpl. by destruct (stores w). }
    destruct (isIdenticalTo found revision).
    { intros [= <-]. simpl. by destruct (stores w). }
    apply lookupRevision_named in Hfound as [[Hid Hu] _].
    rewrite Hid, Hvalid. simpl. unfold bind at 1. simpl.
    erewrite bind_returns by (apply removeOneByUuid_succeeds, Hrel).
    unfold bind at 1. simpl.
    rewrite saveRevision_succeeds by apply Hrel.
    intros [= <-]. reflexivity.
  - rewrite saveRevision_succeeds by apply Hrel.
    intros [= <-]. reflexivity.
Qed.

Lemma migrateRevisions_reliable revisions w :
  reliable w ->
  exists w',
    forEach revisions migrateRevision w = (inr tt, w')
    /\ reliable w'
    /\ stores w'
       = setDb Primary (foldl afterRevision (primaryDb (stores w)) revisions)
           (stores w).
Proof.
  revert w. induction revisions as [|r rs IH]; intros w Hrel.
  - exists w. split; [reflexivity|]. split; [done|].
    simpl. by destruct (stores w).
  - destruct (migrateRevision_reliable r w Hrel) as (w1 & Hrun & Hrel1 & Hs1).
    destruct (IH w1 Hrel1) as (w2 & Hrest & Hrel2 & Hs2).
    exists w2. simpl. rewrite (bind_returns _ _ _ _ _ Hrun).
    split; [exact Hrest|]. split; [exact Hrel2|].
    rewrite Hs2, Hs1. by destruct (stores w).
Qed.

Lemma migratePage_reliable this user timestamp totalPages currentPage w :
  reliable w ->
  exists w',
    migratePage this user timestamp totalPages currentPage w = (inr tt, w')
    /\ reliable w'
    /\ stores w'
       = mkStores
           (foldl afterRevision (primaryDb (stores w))
              (pageOf this user (secondaryDb (stores w)) currentPage))
           (secondaryDb (stores w))
           (<[user := currentPage]> (pagingProgress (stores w)))
           (integrityProgress (stores w)).
Proof.
  intros Hrel. unfold migratePage.
  set (keepAlive := if remIsZero currentPage (ceilDiv totalPages 10)
                    then updateTransitionStatus user InProgress timestamp
                    else ret tt).
  assert (exists w1, keepAlive w = (inr tt, w1) /\ faults w1 = faults w
                     /\ stores w1 = stores w /\ calls w1 = calls w)
    as (w1 & Hkeep & Hf1 & Hs1 & Hc1).
  { unfold keepAlive. destruct (remIsZero _ _); by eexists. }
  rewrite (bind_returns _ _ _ _ _ Hkeep).
  unfold bind at 1. simpl.
  erewrite bind_returns
    by (apply findByUserUuid_succeeds; simpl; rewrite Hf1, Hc1; apply Hrel).
  simpl. rewrite Hs1.
  match goal with
  | |- context [forEach ?rs migrateRevision ?w0] =>
      destruct (migrateRevisions_reliable rs w0) as (w2 & Hrun & Hrel2 & Hs2)
  end.
  { intros n. simpl. rewrite Hf1. apply Hrel. }
  exists w2. split; [exact Hrun|]. split; [exact Hrel2|].
  rewrite Hs2. reflexivity.
Qed.

Lemma migratePages_reliable this user timestamp totalPages pages w :
  reliable w ->
  exists w',
    forEach pages (migratePage this user timestamp totalPages) w
    = (inr tt, w')
    /\ reliable w'
    /\ stores w'
       = mkStores
           (foldl afterRevision (primaryDb (stores w))
              (concat (map (pageOf this user (secondaryDb (stores w)))
                         pages)))
           (secondaryDb (stores w))
           (cursorAfter user pages (pagingProgress (stores w)))
           (integrityProgress (stores w)).
Proof.
  revert w. induction pages as [|p pages IH]; intros w Hrel.
  - exists w. split; [reflexivity|]. split; [done|]. by destruct (stores w).
  - destruct (migratePage_reliable this user timestamp totalPages p w Hrel)
      as (w1 & Hrun & Hrel1 & Hs1).
    destruct (IH w1 Hrel1) as (w2 & Hrest & Hrel2 & Hs2).
    exists w2. simpl. rewrite (bind_returns _ _ _ _ _ Hrun).
    split; [exact Hrest|]. split; [exact Hrel2|].
    rewrite Hs2, Hs1. simpl. rewrite foldl_app. f_equal.
    unfold cursorAfter. destruct pages as [|q pages]; [reflexivity|].
    change (last (p :: q :: pages)) with (last (q :: pages)).
    destruct (last (q :: pages)) as [z|] eqn:Hlast.
    + apply insert_insert_eq.
    + by apply last_None in Hlast.
Qed.

(** *** What the primary store holds afterwards *)

Lemma lookupRevision_app_found rid user l k found :
  lookupRevision rid user l = Some found ->
  lookupRevision rid user (l ++ k) = Some found.
Proof.
  unfold lookupRevision. rewrite filter_app.
  destruct (filter (named rid user) l); [discriminate|]. by intros [= <-].
Qed.

Lemma lookupRevision_app_none rid user l k :
  lookupRevision rid user l = None ->
  lookupRevision rid user (l ++ k) = lookupRevision rid user k.
Proof.
  unfold lookupRevision. rewrite filter_app. intros H.
  apply head_None in H. by rewrite H.
Qed.

Lemma lookupRevision_removed rid user l :
  lookupRevision rid user (filter (fun r => ~ named rid user r) l) = None.
Proof.
  unfold lookupRevision. apply head_None.
  induction l as [|x l IH]; [reflexivity|].
  destruct (decide (named rid user x)) as [Hx|Hx].
  - by rewrite (filter_cons_False (fun r => ~ named rid user r))
      by (by intros H).
  - rewrite (filter_cons_True (fun r => ~ named rid user r)) by done.
    by rewrite filter_cons_False.
Qed.

Lemma lookupRevision_other rid user rid' user' l :
  rid <> rid' ->
  lookupRevision rid user (filter (fun r => ~ named rid' user' r) l)
  = lookupRevision rid user l.
Proof.
  intros Hne. unfold lookupRevision. f_equal.
  induction l as [|x l IH]; [reflexivity|].
  destruct (decide (named rid' user' x)) as [Hx|Hx].
  - rewrite (filter_cons_False (fun r => ~ named rid' user' r))
      by (by intros H).
    rewrite filter_cons_False; [exact IH|].
    intros [Hid _]. destruct Hx as [Hid' _]. congruence.
  - rewrite (filter_cons_True (fun r => ~ named rid' user' r)) by done.
    destruct (decide (named rid user x)).
    + rewrite !filter_cons_True by done. by rewrite IH.
    + rewrite !filter_cons_False by done. exact IH.
Qed.

Lemma lookupRevision_single revision :
  lookupRevision (revisionId revision) (userUuid revision) [revision]
  = Some revision.
Proof.
  unfold lookupRevision. by rewrite filter_cons_True by (by split).
Qed.

Lemma lookupRevision_single_other rid user revision :
  rid <> revisionId revision ->
  lookupRevision rid user [revision] = None.
Proof.
  intros Hne. unfold lookupRevision.
  rewrite filter_cons_False; [reflexivity|]. intros [Hid _]. congruence.
Qed.

(** The revision that was migrated passes the verifier. *)
Lemma afterRevision_accepts inPrimary revision :
  isValidUuid (revisionId revision) = true ->
  accepts (afterRevision inPrimary revision) (userUuid revision) revision.
Proof.
  intros Hvalid. split; [exact Hvalid|]. unfold afterRevision.
  rewrite Hvalid.
  destruct (lookupRevision _ _ inPrimary) as [found|] eqn:Hfound.
  - destruct (updatedAt found >? updatedAt revision) eqn:Hnewer.
    { exists found. split; [done|]. left. lia. }
    unfold isIdenticalTo. case_bool_decide as Hsame.
    { exists found. split; [done|]. by right. }
    exists revision. split; [|by right].
    apply lookupRevision_named in Hfound as [[Hid Hu] _].
    rewrite Hid, Hu. rewrite lookupRevision_app_none.
    + apply lookupRevision_single.
    + apply lookupRevision_removed.
  - exists revision. split; [|by right].
    rewrite lookupRevision_app_none by done. apply lookupRevision_single.
Qed.

(** Migrating a revision with another identifier does not disturb a
    revision that passes. *)
Lemma afterRevision_keeps inPrimary user revision next :
  revisionId next <> revisionId revision ->
  accepts inPrimary user revision ->
  accepts (afterRevision inPrimary next) user revision.
Proof.
  intros Hne (Hvalid & copy & Hcopy & Hgood).
  split; [exact Hvalid|]. exists copy. split; [|exact Hgood].
  unfold afterRevision. destruct (isValidUuid (revisionId next)); [|done].
  destruct (lookupRevision (revisionId next) (userUuid next) inPrimary)
    as [found|] eqn:Hfound.
  - destruct (updatedAt found >? updatedAt next); [done|].
    destruct (isIdenticalTo found next); [done|].
    apply lookupRevision_named in Hfound as [[Hid _] _].
    apply lookupRevision_app_found.
    rewrite lookupRevision_other; [done|]. congruence.
  - by apply lookupRevision_app_found.
Qed.

Lemma afterRevisions_keep inPrimary user revision rest :
  Forall (fun next => revisionId next <> revisionId revision) rest ->
  accepts inPrimary user revision ->
  accepts (foldl afterRevision inPrimary rest) user revision.
Proof.
  revert inPrimary. induction rest as [|next rest IH]; intros P Hall Hok.
  - exact Hok.
  - apply Forall_cons in Hall as [Hne Hall]. simpl.
    apply IH; [exact Hall|]. by apply afterRevision_keeps.
Qed.

Lemma afterRevisions_accept inPrimary user revisions :
  NoDup (map revisionId revisions) ->
  Forall (fun r => userUuid r = user
                   /\ isValidUuid (revisionId r) = true) revisions ->
  Forall (accepts (foldl afterRevision inPrimary revisions) user) revisions.
Proof.
  revert inPrimary.
  induction revisions as [|r rest IH]; intros P Hnodup Hall; [constructor|].
  apply NoDup_cons in Hnodup as [Hfresh Hnodup].
  apply Forall_cons in Hall as [[Hu Hvalid] Hall]. simpl.
  constructor; [|by apply IH].
  apply afterRevisions_keep.
  - apply Forall_forall. intros next Hin Heq. apply Hfresh.
    rewrite <- Heq. apply list_elem_of_fmap. by exists next.
  - rewrite <- Hu. by apply afterRevision_accepts.
Qed.

(** Revisions with distinct identifiers that all pass have as many copies
    in primary. *)
Lemma accepted_count inPrimary user revisions :
  NoDup (map revisionId revisions) ->
  Forall (accepts inPrimary user) revisions ->
  (length revisions <= length (revisionsOf user inPrimary))%nat.
Proof.
  intros Hnodup Hall.
  rewrite <- (length_map revisionId revisions).
  rewrite <- (length_map revisionId (revisionsOf user inPrimary)).
  apply submseteq_length, NoDup_submseteq; [exact Hnodup|].
  intros rid Hin. apply list_elem_of_fmap in Hin as (r & -> & Hin).
  rewrite Forall_forall in Hall.
  destruct (Hall r Hin) as (_ & copy & Hcopy & _).
  apply lookupRevision_named in Hcopy as [[Hid Hu] Hmem].
  apply list_elem_of_fmap. exists copy. split; [done|].
  unfold revisionsOf. by apply list_elem_of_filter.
Qed.

(** *** The whole migration *)

Lemma migrateRevisionsForUser_reliable this user timestamp w :
  reliable w ->
  let pages :=
    pagesFrom (default 1 (pagingProgress (stores w) !! user))
      (ceilDiv (countOf user (secondaryDb (stores w))) (pageSize this)) in
  exists w',
    migrateRevisionsForUser this user timestamp w = (inr (Ok tt), w')
    /\ reliable w'
    /\ stores w'
       = mkStores
           (foldl afterRevision (primaryDb (stores w))
              (concat (map (pageOf this user (secondaryDb (stores w)))
                         pages)))
           (secondaryDb (stores w))
           (cursorAfter user pages (pagingProgress (stores w)))
           (integrityProgress (stores w)).
Proof.
  intros Hrel pages. unfold migrateRevisionsForUser, tryCatch.
  unfold bind at 1. simpl.
  erewrite bind_returns by (apply countByUserUuid_succeeds, Hrel).
  simpl.
  match goal with
  | |- context [bind (forEach ?ps (migratePage _ _ _ ?T)) _ ?w0] =>
      destruct (migratePages_reliable this user timestamp T ps w0)
        as (w2 & Hrun & Hrel2 & Hs2)
  end.
  { intros n. apply Hrel. }
  rewrite (bind_returns _ _ _ _ _ Hrun).
  exists w2. split; [reflexivity|]. split; [exact Hrel2|]. exact Hs2.
Qed.

Lemma pageOf_subseteq this user inSecondary currentPage :
  pageOf this user inSecondary currentPage ⊆ revisionsOf user inSecondary.
Proof.
  unfold pageOf, page. etrans; [apply subseteq_take | apply subseteq_drop].
Qed.

Lemma pages_of_user this user inSecondary :
  concat (map (pageOf this user inSecondary)
            (pagesFrom 1 (ceilDiv (countOf user inSecondary)
                            (pageSize this))))
  = revisionsOf user inSecondary.
Proof.
  unfold pagesFrom, pageOf, page, countOf.
  replace (ceilDiv (Z.of_nat (length (revisionsOf user inSecondary)))
             (pageSize this) - 1 + 1)
    with (ceilDiv (Z.of_nat (length (revisionsOf user inSecondary)))
            (pageSize this)) by lia.
  apply pages_cover.
Qed.

Lemma last_seqZ (m n : Z) : 0 < n -> last (seqZ m n) = Some (m + n - 1).
Proof.
  intros Hn. rewrite <- (Z2Nat.id n) by lia.
  destruct (Z.to_nat n) as [|k] eqn:Hk; [lia|].
  rewrite seqZ_S, last_snoc. f_equal. lia.
Qed.

Lemma revisionsOf_user user l :
  Forall (fun r => userUuid r = user) (revisionsOf user l).
Proof.
  apply Forall_forall. intros r Hin.
  unfold revisionsOf in Hin. by apply list_elem_of_filter in Hin as [? _].
Qed.

Lemma migration_complete_at this user timestamp w :
  reliable w ->
  default 1 (pagingProgress (stores w) !! user) = 1 ->
  NoDup (map revisionId (revisionsOf user (secondaryDb (stores w)))) ->
  Forall (fun r => isValidUuid (revisionId r) = true)
    (revisionsOf user (secondaryDb (stores w))) ->
  exists w',
    migrateRevisionsForUser this user timestamp w = (inr (Ok tt), w')
    /\ reliable w'
    /\ secondaryDb (stores w') = secondaryDb (stores w)
    /\ Forall (accepts (primaryDb (stores w')) user)
         (revisionsOf user (secondaryDb (stores w)))
    /\ countOf user (secondaryDb (stores w'))
       <= countOf user (primaryDb (stores w')).
Proof.
  intros Hrel Hcursor Hnodup Hvalid.
  destruct (migrateRevisionsForUser_reliable this user timestamp w Hrel)
    as (w' & Hrun & Hrel' & Hstores).
  rewrite Hcursor in Hstores. rewrite pages_of_user in Hstores.
  assert (Haccepted :
            Forall (accepts (foldl afterRevision (primaryDb (stores w))
                               (revisionsOf user (secondaryDb (stores w))))
                      user)
              (revisionsOf user (secondaryDb (stores w)))).
  { apply afterRevisions_accept; [exact Hnodup|].
    pose proof (revisionsOf_user user (secondaryDb (stores w))) as Hu.
    rewrite Forall_forall in *. auto. }
  exists w'. split; [exact Hrun|]. split; [exact Hrel'|].
  rewrite Hstores. simpl.
  split; [reflexivity|]. split; [exact Haccepted|].
  unfold countOf. apply inj_le. by apply accepted_count.
Qed.

(** X2. In a run whose repository calls all answer, the migration of a
    user whose cursor is at the first page and whose secondary revisions
    have well-formed, distinct identifiers returns success, leaves the
    secondary store as it is and primary with a copy that the verifier
    accepts of every revision, at least as many revisions of the user as
    secondary, and the cursor on the last page. *)
Theorem migration_complete (this : UseCase) (user : string) (timestamp : Z)
    (w : World) :
  reliable w ->
  default 1 (pagingProgress (stores w) !! user) = 1 ->
  let toMigrate := revisionsOf user (secondaryDb (stores w)) in
  NoDup (map revisionId toMigrate) ->
  Forall (fun r => isValidUuid (revisionId r) = true) toMigrate ->
  exists w',
    migrateRevisionsForUser this user timestamp w = (inr (Ok tt), w')
    /\ secondaryDb (stores w') = secondaryDb (stores w)
    /\ Forall (accepts (primaryDb (stores w')) user) toMigrate
    /\ countOf user (secondaryDb (stores w'))
       <= countOf user (primaryDb (stores w'))
    /\ (toMigrate <> [] ->
        pagingProgress (stores w') !! user
        = Some (ceilDiv (countOf user (secondaryDb (stores w)))
                  (pageSize this))).
Proof.
  intros Hrel Hcursor toMigrate Hnodup Hvalid.
  destruct (migrateRevisionsForUser_reliable this user timestamp w Hrel)
    as (w' & Hrun & _ & Hstores).
  rewrite Hcursor in Hstores. rewrite pages_of_user in Hstores.
  fold toMigrate in Hstores.
  assert (Haccepted :
            Forall (accepts (foldl afterRevision (primaryDb (stores w))
                               toMigrate) user) toMigrate).
  { apply afterRevisions_accept; [exact Hnodup|].
    pose proof (revisionsOf_user user (secondaryDb (stores w))) as Hu.
    fold toMigrate in Hu. rewrite Forall_forall in *. auto. }
  exists w'. split; [exact Hrun|]. rewrite Hstores. simpl.
  split; [reflexivity|]. split; [exact Haccepted|]. split.
  - unfold countOf. fold toMigrate.
    apply inj_le. by apply accepted_count.
  - intros Hsome. unfold cursorAfter, pagesFrom.
    rewrite last_seqZ.
    + rewrite lookup_insert_eq. f_equal. lia.
    + assert (0 < countOf user (secondaryDb (stores w))) as Hpos.
      { unfold countOf. fold toMigrate.
        destruct toMigrate; [done|]. simpl. lia. }
      unfold ceilDiv.
      assert (1 <= (countOf user (secondaryDb (stores w))
                    + Z.pos (pageSize this) - 1) / Z.pos (pageSize this)).
      { apply Z.div_le_lower_bound; lia. }
      lia.
Qed.

(** X3. In a run whose repository calls all answer, the migration resumes
    at the stored cursor: primary ends as if exactly the revisions on the
    pages from the cursor to the last page had been migrated one after
    the other, the cursor is left on the last page processed, and the
    secondary store and the integrity cursors are unchanged. *)
Theorem migration_resumes (this : UseCase) (user : string) (timestamp : Z)
    (w : World) :
  reliable w ->
  let pages :=
    pagesFrom (default 1 (pagingProgress (stores w) !! user))
      (ceilDiv (countOf user (secondaryDb (stores w))) (pageSize this)) in
  exists w',
    migrateRevisionsForUser this user timestamp w = (inr (Ok tt), w')
    /\ primaryDb (stores w')
       = foldl afterRevision (primaryDb (stores w))
           (concat (map (pageOf this user (secondaryDb (stores w))) pages))
    /\ secondaryDb (stores w') = secondaryDb (stores w)
    /\ pagingProgress (stores w')
       = cursorAfter user pages (pagingProgress (stores w))
    /\ integrityProgress (stores w') = integrityProgress (stores w).
Proof.
  intros Hrel pages.
  destruct (migrateRevisionsForUser_reliable this user timestamp w Hrel)
    as (w' & Hrun & _ & Hstores).
  exists w'. split; [exact Hrun|]. by rewrite Hstores.
Qed.

(** *** From the migration to [Verified] *)

Lemma checkIntegrity_passes this user w :
  reliable w ->
  countOf user (secondaryDb (stores w)) <= countOf user (primaryDb (stores w)) ->
  Forall (accepts (primaryDb (stores w)) user)
    (revisionsOf user (secondaryDb (stores w))) ->
  exists w',
    checkIntegrityBetweenPrimaryAndSecondaryDatabase this user w
    = (inr (Ok tt), w')
    /\ checking (primaryDb (stores w)) (secondaryDb (stores w)) w'.
Proof.
  intros Hrel Hcount Hall.
  unfold checkIntegrityBetweenPrimaryAndSecondaryDatabase, tryCatch.
  unfold bind at 1. simpl.
  erewrite bind_returns by (apply countByUserUuid_succeeds, Hrel).
  erewrite bind_returns by (apply countByUserUuid_succeeds, Hrel).
  simpl. unfold countOf in Hcount.
  match goal with
  | |- context [?a <? ?b] => assert ((a <? b) = false) as -> by lia
  end.
  match goal with
  | |- context [bind (forEachUntil ?pages _) _ ?w0] =>
      destruct (checkPages_verdict this user (primaryDb (stores w))
                  (secondaryDb (stores w)) pages w0)
        as (v & w1 & Hrun & Hchecking & Hv & _)
  end.
  { split; [exact Hrel|]. split; reflexivity. }
  rewrite (bind_returns _ _ _ _ _ Hrun).
  assert (v = None) as ->.
  { apply Hv. apply Forall_forall. intros p _.
    apply Forall_forall. intros r Hin.
    rewrite Forall_forall in Hall. apply Hall.
    by apply (pageOf_subseteq this user _ p). }
  by exists w1.
Qed.

Lemma finish_cleans user timestamp w :
  faults w (calls w) = Succeed ->
  let cleaned :=
    setDb Secondary
      (filter (fun r => userUuid r <> user) (secondaryDb (stores w)))
      (stores w) in
  exists w',
    finish user timestamp (Ok tt) w = (inr (Ok tt), w')
    /\ stores w' = cleaned
    /\ history w'
       = (history w
          ++ [RepoCall Secondary (RemoveByUserUuid user);
              Published user Verified timestamp cleaned])%list.
Proof.
  intros Hcall cleaned. unfold finish, deleteRevisionsForUser, tryCatch.
  unfold removeByUserUuid. unfold bind at 1. unfold bind at 1.
  rewrite repoCall_succeeds by done. simpl.
  eexists. split; [reflexivity|]. simpl.
  split; [reflexivity|]. by rewrite <- app_assoc.
Qed.

Lemma revisionsOf_others user other l :
  other <> user ->
  revisionsOf other (filter (fun r => userUuid r <> user) l)
  = revisionsOf other l.
Proof.
  intros Hne. unfold revisionsOf. induction l as [|r l IH]; [reflexivity|].
  destruct (decide (userUuid r = user)) as [Heq|Hneq].
  - rewrite (filter_cons_False (fun r => userUuid r <> user))
      by (intros H; by apply H).
    rewrite filter_cons_False by congruence. exact IH.
  - rewrite (filter_cons_True (fun r => userUuid r <> user)) by done.
    destruct (decide (userUuid r = other)).
    + rewrite !filter_cons_True by done. by rewrite IH.
    + rewrite !filter_cons_False by done. exact IH.
Qed.

Lemma last_publishedStatuses h user status timestamp now :
  last (publishedStatuses (h ++ [Published user status timestamp now]))
  = Some status.
Proof. rewrite publishedStatuses_app. simpl. apply last_snoc. Qed.

(** X1. In a run whose repository calls all answer, [execute] for a user
    whose paging cursor is at the first page and whose secondary revisions
    have well-formed, distinct identifiers returns success: the secondary
    store holds no revision of the user any more, primary accepts every
    revision that was to migrate, [Verified] is the last status published
    and the secondary revisions of the other users are as before. *)
Theorem execute_migrates (this : UseCase) (dto : DTO) (user : string)
    (w : World) :
  secondRevisionsRepositoryIsSet this = true ->
  transitionStatusRepositoryIsSet this = true ->
  Uuid_create (dtoUserUuid dto) = Ok user ->
  reliable w ->
  default 1 (pagingProgress (stores w) !! user) = 1 ->
  let toMigrate := revisionsOf user (secondaryDb (stores w)) in
  NoDup (map revisionId toMigrate) ->
  Forall (fun r => isValidUuid (revisionId r) = true) toMigrate ->
  exists w',
    execute this dto w = (inr (Ok tt), w')
    /\ revisionsOf user (secondaryDb (stores w')) = []
    /\ Forall (accepts (primaryDb (stores w')) user) toMigrate
    /\ last (publishedStatuses (history w')) = Some Verified
    /\ (forall other,
          other <> user ->
          revisionsOf other (secondaryDb (stores w'))
          = revisionsOf other (secondaryDb (stores w))).
Proof.
  intros Hsecond Hstatus Huser Hrel Hcursor toMigrate Hnodup Hvalid.
  unfold execute. rewrite Hsecond, Hstatus, Huser. simpl.
  unfold isAlreadyMigrated. unfold bind at 1. unfold bind at 1.
  rewrite countByUserUuid_succeeds by apply Hrel.
  unfold ret at 1. unfold getDb. fold toMigrate.
  destruct toMigrate as [|r0 rest] eqn:Hto.
  { (* nothing to migrate *)
    simpl. eexists. split; [reflexivity|]. simpl.
    split; [exact Hto|]. split; [constructor|].
    split; [apply last_publishedStatuses|done]. }
  rewrite <- Hto in *.
  assert ((Z.of_nat (length toMigrate) =? 0) = false) as ->.
  { rewrite Hto. simpl. lia. }
  unfold bind at 1. simpl.
  match goal with
  | |- context [bind (migrateRevisionsForUser _ _ _) _ ?w0] =>
      destruct (migration_complete_at this user (dtoTimestamp dto) w0)
        as (w2 & Hrun & Hrel2 & Hsec2 & Hacc2 & Hcount2)
  end; try done.
  rewrite (bind_returns _ _ _ _ _ Hrun).
  unfold bind at 1. simpl.
  match goal with
  | |- context [bind (checkIntegrityBetweenPrimaryAndSecondaryDatabase _ _)
                  _ ?w0] =>
      destruct (checkIntegrity_passes this user w0)
        as (w3 & Hcheck & Hrel3 & Hp3 & Hs3)
  end.
  { intros n. apply Hrel2. }
  { exact Hcount2. }
  { simpl. simpl in Hsec2. rewrite Hsec2. exact Hacc2. }
  rewrite (bind_returns _ _ _ _ _ Hcheck).
  destruct (finish_cleans user (dtoTimestamp dto) w3) as (w4 & Hend & Hs4 & Hh4);
    [apply Hrel3|].
  exists w4. split; [exact Hend|]. rewrite Hs4, Hh4. simpl.
  simpl in Hp3, Hs3, Hsec2. rewrite Hs3, Hp3, Hsec2.
  split; [apply revisionsOf_removed|]. split; [exact Hacc2|].
  split; [rewrite publishedStatuses_app; simpl; apply last_snoc|].
  intros other Hne. by apply revisionsOf_others.
Qed.

End MigrationTheory.

Module FrameTheory.

Import Revisions RevisionsTheory MigrationNotions.

Section Yields.

Context (R : Stores -> Stores -> Prop) `{!PreOrder R}.

Lemma yields_ret {A} (Q : A -> Prop) (a : A) : Q a -> yields R Q (ret a).
Proof. intros Ha w. split; [reflexivity|]. by intros ? [= <-]. Qed.

Lemma yields_throw {A} (Q : A -> Prop) message : yields R Q (throw message).
Proof. intros w. split; [reflexivity|]. intros ? [=]. Qed.

Lemma yields_perform e : yields R (fun _ => True) (perform e).
Proof. intros w. split; [reflexivity|done]. Qed.

Lemma yields_weaken {A} (Q Q' : A -> Prop) (m : M A) :
  (forall a, Q a -> Q' a) -> yields R Q m -> yields R Q' m.
Proof. intros HQ Hm w. destruct (Hm w) as [HR Ha]. split; auto. Qed.

Lemma yields_bind {A B} (Q : A -> Prop) (Q' : B -> Prop) (m : M A)
    (k : A -> M B) :
  yields R Q m -> (forall a, Q a -> yields R Q' (k a)) ->
  yields R Q' (bind m k).
Proof.
  intros Hm Hk w. unfold bind. destruct (Hm w) as [HR Ha].
  destruct (m w) as [[e|a] w1]; simpl in *.
  - split; [exact HR|]. intros ? [=].
  - destruct (Hk a (Ha a eq_refl) w1) as [HR' Hb].
    split; [by etrans|exact Hb].
Qed.

Lemma yields_tryCatch {A} (Q : A -> Prop) (m : M A)
    (handler : string -> M A) :
  yields R Q m -> (forall e, yields R Q (handler e)) ->
  yields R Q (tryCatch m handler).
Proof.
  intros Hm Hh w. unfold tryCatch. destruct (Hm w) as [HR Ha].
  destruct (m w) as [[e|a] w1]; simpl in *.
  - destruct (Hh e w1) as [HR' Hb]. split; [by etrans|exact Hb].
  - split; [exact HR|exact Ha].
Qed.

Lemma yields_forEach {A} (P : A -> Prop) (l : list A) (body : A -> M unit) :
  Forall P l ->
  (forall x, P x -> yields R (fun _ => True) (body x)) ->
  yields R (fun _ => True) (forEach l body).
Proof.
  intros Hl Hbody. induction Hl as [|x l Hx _ IH]; simpl.
  - by apply yields_ret.
  - eapply yields_bind; [by apply Hbody | intros _ _; exact IH].
Qed.

Lemma yields_forEachUntil {A B} (P : A -> Prop) (l : list A)
    (body : A -> M (option B)) :
  Forall P l ->
  (forall x, P x -> yields R (fun _ => True) (body x)) ->
  yields R (fun _ => True) (forEachUntil l body).
Proof.
  intros Hl Hbody. induction Hl as [|x l Hx _ IH]; simpl.
  - by apply yields_ret.
  - eapply yields_bind; [by apply Hbody|].
    intros [r|] _; [by apply yields_ret | exact IH].
Qed.

Lemma yields_repoCall {A} (Q : A -> Prop) db c
    (normal : list Revision -> A * list Revision) refused :
  (forall s, R s (setDb db (normal (getDb db s)).2 s)
             /\ Q (normal (getDb db s)).1) ->
  (forall a, refused = Some a -> Q a) ->
  yields R Q (repoCall db c normal refused).
Proof.
  intros Hnormal Hrefused w. unfold repoCall.
  destruct (Hnormal (stores w)) as [HR HQ].
  destruct (faults w (calls w)); simpl.
  - destruct (normal _). simpl in *. split; [exact HR|]. by intros ? [= <-].
  - split; [reflexivity|]. intros ? [=].
  - destruct refused as [a|]; simpl.
    + split; [reflexivity|]. intros ? [= <-]. by apply Hrefused.
    + destruct (normal _). simpl in *. split; [exact HR|].
      by intros ? [= <-].
Qed.

(** A call that only reads. *)
Lemma yields_read {A} (Q : A -> Prop) db c (answer : list Revision -> A) :
  (forall l, Q (answer l)) ->
  yields R Q (repoCall db c (fun l => (answer l, l)) None).
Proof.
  intros HQ. apply yields_repoCall; [|done].
  intros s. simpl. split; [|apply HQ].
  destruct db, s; reflexivity.
Qed.

Lemma yields_updateTransitionStatus user status timestamp :
  yields R (fun _ => True) (updateTransitionStatus user status timestamp).
Proof. intros w. split; [reflexivity|done]. Qed.

Lemma yields_getPagingProgress user :
  yields R (fun _ => True) (getPagingProgress user).
Proof. intros w. split; [reflexivity|done]. Qed.

Lemma yields_getIntegrityProgress user :
  yields R (fun _ => True) (getIntegrityProgress user).
Proof. intros w. split; [reflexivity|done]. Qed.

End Yields.

(** *** What the writes of the use case preserve *)

Section Frames.

Context (R : Stores -> Stores -> Prop) `{!PreOrder R} (user : string).

Hypothesis R_insert :
  forall s r,
    userUuid r = user ->
    R s (setDb Primary (primaryDb s ++ [r])%list s).

Hypothesis R_removeOne :
  forall s rid,
    R s (setDb Primary
           (filter (fun r => ~ named rid user r) (primaryDb s)) s).

Hypothesis R_paging :
  forall s p,
    R s (mkStores (primaryDb s) (secondaryDb s)
           (<[user := p]> (pagingProgress s)) (integrityProgress s)).

Hypothesis R_integrity :
  forall s p,
    R s (mkStores (primaryDb s) (secondaryDb s) (pagingProgress s)
           (<[user := p]> (integrityProgress s))).

Hypothesis R_cleanup :
  forall s,
    R s (setDb Secondary
           (filter (fun r => userUuid r <> user) (secondaryDb s)) s).

Lemma frame_getValue {A} (r : Result A) :
  yields R (fun _ => True) (getValue r).
Proof. destruct r; [by apply (yields_ret R) | apply (yields_throw R)]. Qed.

Lemma frame_logError message : yields R (fun _ => True) (logError message).
Proof. apply (yields_perform R). Qed.

Lemma frame_findOneByUuid db rid owner :
  yields R (fun a => forall found, a = Some found -> userUuid found = owner)
    (findOneByUuid db rid owner).
Proof.
  apply (yields_read R). intros l found Hfound.
  by apply lookupRevision_named in Hfound as [[_ Hu] _].
Qed.

Lemma frame_findByUserUuid db offset limit :
  yields R (Forall (fun r => userUuid r = user))
    (findByUserUuid db user offset limit).
Proof.
  apply (yields_read R). intros l. apply Forall_forall. intros r Hin.
  unfold page in Hin.
  apply subseteq_take, subseteq_drop in Hin.
  unfold revisionsOf in Hin. by apply list_elem_of_filter in Hin as [? _].
Qed.

Lemma frame_countByUserUuid db owner :
  yields R (fun _ => True) (countByUserUuid db owner).
Proof. by apply (yields_read R). Qed.

Lemma frame_saveRevision revision :
  userUuid revision = user ->
  yields R (fun _ => True) (saveRevision revision).
Proof.
  intros Hu. unfold saveRevision.
  apply (yields_bind R (fun _ => True)).
  - apply (yields_repoCall R); [|done]. intros s. simpl. split; [|done].
    by apply R_insert.
  - intros didSave _. destruct (negb didSave);
      [apply frame_logError | by apply (yields_ret R)].
Qed.

Lemma frame_migrateRevision revision :
  userUuid revision = user ->
  yields R (fun _ => True) (migrateRevision revision).
Proof.
  intros Hu. unfold migrateRevision.
  apply (yields_tryCatch R); [|intros e; apply frame_logError].
  unfold migrateRevisionBody.
  eapply (yields_bind R); [apply frame_getValue|]. intros rid _.
  eapply (yields_bind R); [apply frame_findOneByUuid|].
  intros [found|] Hfound; [|by apply frame_saveRevision].
  destruct (updatedAt found >? updatedAt revision); [by apply (yields_ret R)|].
  destruct (isIdenticalTo found revision); [by apply (yields_ret R)|].
  eapply (yields_bind R); [apply frame_getValue|]. intros pid _.
  rewrite (Hfound found eq_refl), Hu.
  apply (yields_bind R (fun _ => True)).
  { apply (yields_repoCall R); [|done]. intros s. simpl. split; [|done].
    apply R_removeOne. }
  intros _ _.
  apply (yields_bind R (fun _ => True)); [apply (yields_perform R)|].
  intros _ _. by apply frame_saveRevision.
Qed.

Lemma frame_setPagingProgress p :
  yields R (fun _ => True) (setPagingProgress user p).
Proof. intros w. split; [apply R_paging | done]. Qed.

Lemma frame_setIntegrityProgress p :
  yields R (fun _ => True) (setIntegrityProgress user p).
Proof. intros w. split; [apply R_integrity | done]. Qed.

Lemma frame_migratePage this timestamp totalPages currentPage :
  yields R (fun _ => True)
    (migratePage this user timestamp totalPages currentPage).
Proof.
  unfold migratePage.
  apply (yields_bind R (fun _ => True)).
  { destruct (remIsZero _ _);
      [apply (yields_updateTransitionStatus R) | by apply (yields_ret R)]. }
  intros _ _.
  apply (yields_bind R (fun _ => True)); [apply frame_setPagingProgress|].
  intros _ _.
  eapply (yields_bind R); [apply frame_findByUserUuid|].
  intros revisions Hrevisions.
  apply (yields_forEach R _ _ _ Hrevisions).
  intros revision. apply frame_migrateRevision.
Qed.

Lemma frame_migrateRevisionsForUser this timestamp :
  yields R (fun _ => True) (migrateRevisionsForUser this user timestamp).
Proof.
  unfold migrateRevisionsForUser.
  apply (yields_tryCatch R); [|intros e; by apply (yields_ret R)].
  eapply (yields_bind R); [apply (yields_getPagingProgress R)|]. intros initial _.
  eapply (yields_bind R); [apply frame_countByUserUuid|]. intros total _.
  apply (yields_bind R (fun _ => True)); [|intros; by apply (yields_ret R)].
  apply (yields_forEach R (fun _ => True)).
  - apply Forall_forall. done.
  - intros p _. apply frame_migratePage.
Qed.

Lemma frame_checkRevision revision :
  yields R (fun _ => True) (checkRevision user revision).
Proof.
  unfold checkRevision.
  destruct (Uuid_create _); [|by apply (yields_ret R)].
  eapply (yields_bind R); [apply frame_findOneByUuid|].
  intros [found|] _; [|by apply (yields_ret R)].
  destruct (updatedAt found >? _); [by apply (yields_ret R)|].
  destruct (isIdenticalTo _ _); by apply (yields_ret R).
Qed.

Lemma frame_checkPage this currentPage :
  yields R (fun _ => True) (checkPage this user currentPage).
Proof.
  unfold checkPage.
  apply (yields_bind R (fun _ => True)); [apply frame_setIntegrityProgress|].
  intros _ _.
  eapply (yields_bind R); [apply frame_findByUserUuid|].
  intros revisions _.
  apply (yields_forEachUntil R (fun _ => True)).
  - apply Forall_forall. done.
  - intros revision _. apply frame_checkRevision.
Qed.

Lemma frame_checkIntegrity this :
  yields R (fun _ => True)
    (checkIntegrityBetweenPrimaryAndSecondaryDatabase this user).
Proof.
  unfold checkIntegrityBetweenPrimaryAndSecondaryDatabase.
  apply (yields_tryCatch R); [|intros e; by apply (yields_ret R)].
  eapply (yields_bind R); [apply (yields_getIntegrityProgress R)|]. intros initial _.
  eapply (yields_bind R); [apply frame_countByUserUuid|]. intros inSecondary _.
  eapply (yields_bind R); [apply frame_countByUserUuid|]. intros inPrimary _.
  destruct (inPrimary <? inSecondary); [by apply (yields_ret R)|].
  apply (yields_bind R (fun _ => True)).
  - apply (yields_forEachUntil R (fun _ => True)).
    + apply Forall_forall. done.
    + intros p _. apply frame_checkPage.
  - intros [r|] _; by apply (yields_ret R).
Qed.

Lemma frame_deleteRevisionsForUser :
  yields R (fun _ => True) (deleteRevisionsForUser user Secondary).
Proof.
  unfold deleteRevisionsForUser.
  apply (yields_tryCatch R); [|intros e; by apply (yields_ret R)].
  apply (yields_bind R (fun _ => True)); [|intros; by apply (yields_ret R)].
  apply (yields_repoCall R); [|done]. intros s. simpl. split; [|done].
  apply R_cleanup.
Qed.

Lemma frame_finish timestamp verdict :
  yields R (fun _ => True) (finish user timestamp verdict).
Proof.
  unfold finish. destruct verdict as [[]|e].
  - eapply (yields_bind R); [apply frame_deleteRevisionsForUser|].
    intros cleanup _.
    apply (yields_bind R (fun _ => True)).
    + destruct cleanup; [by apply (yields_ret R)|].
      apply (yields_bind R (fun _ => True));
        [apply (yields_updateTransitionStatus R)|].
      intros _ _. apply frame_logError.
    + intros _ _.
      apply (yields_bind R (fun _ => True));
        [apply (yields_updateTransitionStatus R)|].
      intros _ _. by apply (yields_ret R).
  - apply (yields_bind R (fun _ => True)); [apply frame_setPagingProgress|].
    intros _ _.
    apply (yields_bind R (fun _ => True));
      [apply frame_setIntegrityProgress|].
    intros _ _.
    apply (yields_bind R (fun _ => True));
      [apply (yields_updateTransitionStatus R)|].
    intros _ _. by apply (yields_ret R).
Qed.

Lemma frame_execute this dto :
  Uuid_create (dtoUserUuid dto) = Ok user ->
  yields R (fun _ => True) (execute this dto).
Proof.
  intros Huser. unfold execute. rewrite Huser.
  destruct (negb (secondRevisionsRepositoryIsSet this));
    [by apply (yields_ret R)|].
  destruct (negb (transitionStatusRepositoryIsSet this));
    [by apply (yields_ret R)|].
  unfold isAlreadyMigrated.
  eapply (yields_bind R).
  { eapply (yields_bind R); [apply frame_countByUserUuid|].
    intros total _. by apply (yields_ret R (fun _ => True)). }
  intros [] _.
  - apply (yields_bind R (fun _ => True));
      [apply (yields_updateTransitionStatus R)|].
    intros _ _. by apply (yields_ret R).
  - apply (yields_bind R (fun _ => True));
      [apply (yields_updateTransitionStatus R)|].
    intros _ _.
    eapply (yields_bind R); [apply frame_migrateRevisionsForUser|].
    intros [[]|e] _.
    + apply (yields_bind R (fun _ => True)); [apply (yields_perform R)|].
      intros _ _.
      eapply (yields_bind R); [apply frame_checkIntegrity|].
      intros verdict _. apply frame_finish.
    + apply (yields_bind R (fun _ => True));
        [apply (yields_updateTransitionStatus R)|].
      intros _ _. by apply (yields_ret R).
Qed.

End Frames.

End FrameTheory.

Module IsolationTheory.

Import Revisions RevisionsTheory MigrationNotions MigrationTheory FrameTheory.

#[local] Instance othersUntouched_preorder user :
  PreOrder (othersUntouched user).
Proof.
  split.
  - intros s other _. done.
  - intros s1 s2 s3 H12 H23 other Hne.
    destruct (H23 other Hne) as (H1 & H2 & H3 & H4).
    destruct (H12 other Hne) as (H5 & H6 & H7 & H8).
    repeat split; congruence.
Qed.

#[local] Instance migrationFrame_preorder : PreOrder migrationFrame.
Proof.
  split.
  - by intros s.
  - unfold migrationFrame. intros s1 s2 s3 [H1 H2] [H3 H4].
    split; congruence.
Qed.

#[local] Instance checkFrame_preorder user : PreOrder (checkFrame user).
Proof.
  split.
  - by intros s.
  - unfold checkFrame.
    intros s1 s2 s3 (H1 & H2 & H3 & H12) (H4 & H5 & H6 & H23).
    repeat split; try congruence.
    intros other Hne. by rewrite H23, H12.
Qed.

Lemma revisionsOf_snoc_other user other l r :
  userUuid r = user -> other <> user ->
  revisionsOf other (l ++ [r]) = revisionsOf other l.
Proof.
  intros Hu Hne. unfold revisionsOf. rewrite filter_app.
  rewrite (filter_cons_False _ r) by congruence.
  by rewrite filter_nil, app_nil_r.
Qed.

Lemma revisionsOf_without_other user other rid l :
  other <> user ->
  revisionsOf other (filter (fun r => ~ named rid user r) l)
  = revisionsOf other l.
Proof.
  intros Hne. unfold revisionsOf. induction l as [|r l IH]; [reflexivity|].
  destruct (decide (named rid user r)) as [Hr|Hr].
  - rewrite (filter_cons_False (fun r => ~ named rid user r))
      by (intros H; by apply H).
    rewrite filter_cons_False; [exact IH|].
    destruct Hr as [_ Hu]. congruence.
  - rewrite (filter_cons_True (fun r => ~ named rid user r)) by done.
    destruct (decide (userUuid r = other)).
    + rewrite !filter_cons_True by done. by rewrite IH.
    + rewrite !filter_cons_False by done. exact IH.
Qed.

(** X7. Whatever the repositories do, [execute] for one user changes
    neither the revisions of another user, in primary or in secondary, nor
    a cursor of another user. *)
Theorem execute_leaves_others (this : UseCase) (dto : DTO) (user : string)
    (w : World) :
  Uuid_create (dtoUserUuid dto) = Ok user ->
  othersUntouched user (stores w) (stores (execute this dto w).2).
Proof.
  intros Huser.
  apply (frame_execute (othersUntouched user) user); [| | | | |exact Huser].
  - intros s r Hu other Hne. simpl.
    by rewrite (revisionsOf_snoc_other user).
  - intros s rid other Hne. simpl.
    by rewrite revisionsOf_without_other.
  - intros s p other Hne. simpl. by rewrite lookup_insert_ne.
  - intros s p other Hne. simpl. by rewrite lookup_insert_ne.
  - intros s other Hne. simpl. by rewrite revisionsOf_others.
Qed.

(** X8. Whatever the repositories do, the migration never writes to the
    secondary store or to an integrity cursor. *)
Theorem migration_keeps_secondary (this : UseCase) (user : string)
    (timestamp : Z) (w : World) :
  let w' := (migrateRevisionsForUser this user timestamp w).2 in
  secondaryDb (stores w') = secondaryDb (stores w)
  /\ integrityProgress (stores w') = integrityProgress (stores w).
Proof.
  apply (frame_migrateRevisionsForUser migrationFrame user); by intros.
Qed.

(** X9. Whatever the repositories do, the integrity check changes nothing
    but the integrity cursor of its user. *)
Theorem check_only_moves_cursor (this : UseCase) (user : string)
    (w : World) :
  checkFrame user (stores w)
    (stores (checkIntegrityBetweenPrimaryAndSecondaryDatabase this user w).2).
Proof.
  apply (frame_checkIntegrity (checkFrame user) user).
  intros s p. repeat split. intros other Hne. simpl.
  by rewrite lookup_insert_ne.
Qed.

End IsolationTheory.

Module FailureTheory.

Import Revisions RevisionsTheory MigrationNotions.

Lemma migrateRevisionsForUser_caught this user timestamp w :
  exists result w',
    migrateRevisionsForUser this user timestamp w = (inr result, w').
Proof.
  unfold migrateRevisionsForUser. apply tryCatch_returns.
  intros e w0. by eexists _, _.
Qed.

Lemma checkIntegrity_caught this user w :
  exists result w',
    checkIntegrityBetweenPrimaryAndSecondaryDatabase this user w
    = (inr result, w').
Proof.
  unfold checkIntegrityBetweenPrimaryAndSecondaryDatabase.
  apply tryCatch_returns. intros e w0. by eexists _, _.
Qed.

Lemma finish_caught user timestamp verdict w :
  exists result w', finish user timestamp verdict w = (inr result, w').
Proof.
  unfold finish. destruct verdict as [[]|e]; [|by eexists _, _].
  destruct (tryCatch_returns
              (removeByUserUuid Secondary user;; ret (Ok tt))
              (fun message =>
                 ret (Fail ("Errored when deleting revisions for user "
                            +:+ user +:+ ": " +:+ message))) w)
    as (cleanup & w1 & Hrun).
  { intros e w0. by eexists _, _. }
  unfold deleteRevisionsForUser. rewrite (bind_returns _ _ _ _ _ Hrun).
  destruct cleanup; by eexists _, _.
Qed.


(** X11. When the count of the migration throws, [execute] publishes
    [InProgress] and [Failed], returns the error of the migration, and has
    written no cursor, called primary not once and changed no store. *)
Theorem execute_migration_failure (this : UseCase) (dto : DTO)
    (user message : string) (w : World) :
  secondRevisionsRepositoryIsSet this = true ->
  transitionStatusRepositoryIsSet this = true ->
  Uuid_create (dtoUserUuid dto) = Ok user ->
  faults w (calls w) = Succeed ->
  countOf user (secondaryDb (stores w)) <> 0 ->
  faults w (S (calls w)) = Throw message ->
  exists w' trace,
    execute this dto w
    = (inr (Fail ("Errored when migrating revisions for user " +:+ user
                  +:+ ": " +:+ message)), w')
    /\ history w' = (history w ++ trace)%list
    /\ publishedStatuses trace = [InProgress; Failed]
    /\ Forall (fun e => writesProgress e = false
                        /\ touchesPrimary e = false) trace
    /\ stores w' = stores w.
Proof.
  intros Hsecond Hstatus Huser Hfirst Hcount Hthrow.
  unfold execute. rewrite Hsecond, Hstatus, Huser. simpl.
  unfold isAlreadyMigrated. unfold bind at 1. unfold bind at 1.
  rewrite countByUserUuid_succeeds by done.
  unfold ret at 1. unfold getDb. unfold countOf in Hcount.
  apply Z.eqb_neq in Hcount as ->.
  unfold bind at 1. simpl.
  unfold migrateRevisionsForUser, tryCatch.
  unfold bind at 1. unfold bind at 1. simpl.
  unfold countByUserUuid.
  erewrite bind_throws by (by apply repoCall_throws).
  simpl. eexists _, _. split; [reflexivity|]. simpl.
  split; [by rewrite <- !app_assoc|]. split; [reflexivity|].
  split; [by repeat constructor|reflexivity].
Qed.


(** X13. When primary holds a differing copy that is not newer, the
    removal works and the insert throws, primary is left without any copy
    of the revision; the error is only logged. *)
Theorem migrateRevision_can_lose_copy (revision found : Revision)
    (message : string) (w : World) :
  isValidUuid (revisionId revision) = true ->
  lookupRevision (revisionId revision) (userUuid revision)
    (primaryDb (stores w)) = Some found ->
  ~ updatedAt found > updatedAt revision ->
  found <> revision ->
  faults w (calls w) = Succeed ->
  faults w (S (calls w)) = Succeed ->
  faults w (S (S (calls w))) = Throw message ->
  exists w',
    migrateRevision revision w = (inr tt, w')
    /\ lookupRevision (revisionId revision) (userUuid revision)
         (primaryDb (stores w')) = None
    /\ (revision ∉ primaryDb (stores w'))
    /\ last (history w')
       = Some (LoggedError ("Errored when saving revision "
                            +:+ revisionId revision
                            +:+ " to primary database: " +:+ message)).
Proof.
  intros Hvalid Hfound Hnewer Hdiff Hfind Hremove Hinsert.
  pose proof Hfound as Hnamed.
  apply lookupRevision_named in Hnamed as [[Hid Hu] _].
  unfold migrateRevision, migrateRevisionBody, tryCatch, Uuid_create.
  rewrite Hvalid. simpl. unfold bind at 1. simpl.
  erewrite bind_returns by (by apply findOneByUuid_succeeds).
  simpl. rewrite Hfound.
  assert ((updatedAt found >? updatedAt revision) = false) as -> by lia.
  unfold isIdenticalTo. rewrite bool_decide_eq_false_2 by done.
  rewrite Hid, Hvalid. simpl. unfold bind at 1. simpl.
  erewrite bind_returns by (by apply removeOneByUuid_succeeds).
  unfold bind at 1. simpl. unfold saveRevision, insert.
  erewrite bind_throws by (by apply repoCall_throws).
  eexists. split; [reflexivity|]. simpl. rewrite Hu.
  split; [apply MigrationTheory.lookupRevision_removed|].
  split; [|apply last_snoc].
  intros Hin. apply list_elem_of_filter in Hin as [Hnot _].
  by apply Hnot.
Qed.

End FailureTheory.

Module OrderTheory.

Import Revisions RefusalNotions OrderNotions RevisionsTheory.

Lemma logsRefusals_isAlreadyMigrated user :
  logsRefusals (isAlreadyMigrated user).
Proof. unfold isAlreadyMigrated, countByUserUuid. logging. Qed.

Lemma logsRefusals_checkIntegrity this user :
  logsRefusals (checkIntegrityBetweenPrimaryAndSecondaryDatabase this user).
Proof.
  unfold checkIntegrityBetweenPrimaryAndSecondaryDatabase.
  apply logsRefusals_tryCatch; [|intros; apply logsRefusals_ret].
  apply logsRefusals_bind.
  { apply (logsRefusals_effect _ _ (GetIntegrityProgress user));
      [exact I | by intros ?]. }
  intros initial. unfold countByUserUuid.
  apply logsRefusals_bind; [by apply logsRefusals_repoCall|]. intros inS.
  apply logsRefusals_bind; [by apply logsRefusals_repoCall|]. intros inP.
  destruct (_ <? _); [apply logsRefusals_ret|].
  apply logsRefusals_bind; [|intros []; apply logsRefusals_ret].
  induction (pagesFrom _ _) as [|p pages IH]; simpl;
    [apply logsRefusals_ret|].
  apply logsRefusals_bind; [|intros []; [apply logsRefusals_ret|exact IH]].
  unfold checkPage, findByUserUuid.
  apply logsRefusals_bind.
  { apply (logsRefusals_effect _ _ (SetIntegrityProgress user p));
      [exact I | by intros ?]. }
  intros _.
  apply logsRefusals_bind; [by apply logsRefusals_repoCall|].
  intros revisions.
  induction revisions as [|r rs IHr]; simpl; [apply logsRefusals_ret|].
  apply logsRefusals_bind; [|intros []; [apply logsRefusals_ret|exact IHr]].
  unfold checkRevision, findOneByUuid. logging.
Qed.

(** The trace of a step, with what [emits] and [logsRefusals] say of it. *)
Lemma traced {A} (P : Effect -> Prop) (m : M A) w :
  emits P m -> logsRefusals m ->
  exists r w' trace,
    m w = (r, w')
    /\ history w' = (history w ++ trace)%list
    /\ Forall P trace
    /\ calls w' = (calls w + repoCalls trace)%nat
    /\ faults w' = faults w.
Proof.
  intros Hemits Hlogs.
  destruct (Hemits w) as (trace & Hhistory & Hall).
  destruct (Hlogs w) as (trace' & Hhistory' & Hcalls & Hfaults & _).
  rewrite Hhistory in Hhistory'. apply app_inv_head in Hhistory' as <-.
  destruct (m w) as [r w'] eqn:Hrun. by exists r, w', trace.
Qed.

(** What [finish] publishes; it publishes [Failed] and then [Verified]
    only when the removal of the cleanup throws. *)
Lemma finish_shapes user timestamp verdict w :
  exists trace,
    history (finish user timestamp verdict w).2 = (history w ++ trace)%list
    /\ (publishedStatuses trace = [Failed]
        \/ publishedStatuses trace = [Verified]
        \/ exists message,
             faults w (calls w) = Throw message
             /\ trace
                = [RepoCall Secondary (RemoveByUserUuid user);
                   Published user Failed timestamp (stores w);
                   cleanupFailure user message;
                   Published user Verified timestamp (stores w)]).
Proof.
  unfold finish. destruct verdict as [[]|e].
  - unfold deleteRevisionsForUser, removeByUserUuid, tryCatch, bind,
      repoCall, logError, perform, updateTransitionStatus, ret.
    destruct (faults w (calls w)) as [|message|] eqn:Hplan; simpl.
    + eexists. rewrite <- !app_assoc. split; [reflexivity|]. simpl. auto.
    + eexists. rewrite <- !app_assoc. split; [reflexivity|].
      right. right. by exists message.
    + eexists. rewrite <- !app_assoc. split; [reflexivity|]. simpl. auto.
  - eexists. simpl. rewrite <- !app_assoc. split; [reflexivity|].
    simpl. auto.
Qed.

(** X16. With a transition status repository and a publisher that answer,
    and whatever the revision repositories do, the statuses one call of
    [execute] publishes are: none; or [Verified] alone; or [InProgress],
    keep-alives and one terminal status; or [InProgress], keep-alives,
    [Failed] and then [Verified], and this last one only when the removal
    of the cleanup threw: its call is the one that throws in the plan, and
    the trace ends with that call, [Failed], the log line of the failed
    cleanup and [Verified]. *)
Theorem execute_published_shapes (this : UseCase) (dto : DTO) (w : World) :
  exists trace,
    history (execute this dto w).2 = (history w ++ trace)%list
    /\ (publishedStatuses trace = []
        \/ publishedStatuses trace = [Verified]
        \/ (exists keepAlives terminal,
              terminal <> InProgress
              /\ publishedStatuses trace
                 = (InProgress :: replicate keepAlives InProgress
                    ++ [terminal])%list)
        \/ (exists keepAlives user message before now,
              publishedStatuses trace
              = (InProgress :: replicate keepAlives InProgress
                 ++ [Failed; Verified])%list
              /\ Uuid_create (dtoUserUuid dto) = Ok user
              /\ faults w (calls w + repoCalls before)%nat = Throw message
              /\ trace
                 = (before
                    ++ [RepoCall Secondary (RemoveByUserUuid user);
                        Published user Failed (dtoTimestamp dto) now;
                        cleanupFailure user message;
                        Published user Verified (dtoTimestamp dto) now])%list)).
Proof.
  unfold execute.
  destruct (secondRevisionsRepositoryIsSet this);
    [|exists []; simpl; rewrite app_nil_r; split; [done|by left]].
  destruct (transitionStatusRepositoryIsSet this);
    [|exists []; simpl; rewrite app_nil_r; split; [done|by left]].
  destruct (Uuid_create (dtoUserUuid dto)) as [user|] eqn:Huser;
    [|exists []; simpl; rewrite app_nil_r; split; [done|by left]].
  simpl.
  destruct (traced silent (isAlreadyMigrated user) w)
    as (migrated & w1 & t1 & Hrun1 & Hhist1 & Hsilent1 & Hcalls1 & Hfaults1).
  { unfold isAlreadyMigrated, countByUserUuid. emitting. }
  { apply logsRefusals_isAlreadyMigrated. }
  apply publishedStatuses_silent in Hsilent1.
  destruct migrated as [e|[]].
  { rewrite (bind_throws _ _ _ _ _ Hrun1). exists t1.
    split; [done|]. by left. }
  { rewrite (bind_returns _ _ _ _ _ Hrun1). simpl. rewrite Hhist1.
    eexists. rewrite <- app_assoc. split; [reflexivity|].
    rewrite publishedStatuses_app, Hsilent1. right. by left. }
  rewrite (bind_returns _ _ _ _ _ Hrun1). unfold bind at 1. simpl.
  match goal with
  | |- context [bind (migrateRevisionsForUser _ _ _) _ ?w0] =>
      destruct (traced keepsAlive
                  (migrateRevisionsForUser this user (dtoTimestamp dto)) w0)
        as (migration & w2 & t2 & Hrun2 & Hhist2 & Halive & Hcalls2
            & Hfaults2)
  end.
  { apply emits_migrateRevisionsForUser. }
  { apply logsRefusals_migrateRevisionsForUser. }
  apply publishedStatuses_keepsAlive in Halive as [k Halive].
  simpl in Hhist2, Hcalls2, Hfaults2.
  destruct migration as [e|migration].
  { destruct (FailureTheory.migrateRevisionsForUser_caught this user
                (dtoTimestamp dto)
                (record (Published user InProgress (dtoTimestamp dto)
                           (stores w1)) w1)) as (a & w' & Hret).
    rewrite Hret in Hrun2. discriminate Hrun2. }
  rewrite (bind_returns _ _ _ _ _ Hrun2).
  destruct migration as [[]|e].
  2:{ simpl. rewrite Hhist2, Hhist1, <- !app_assoc.
    eexists. split; [reflexivity|].
    rewrite !publishedStatuses_app, Hsilent1, Halive. simpl.
    right. right. left. by exists k, Failed. }
  unfold bind at 1. simpl.
  match goal with
  | |- context [bind (checkIntegrityBetweenPrimaryAndSecondaryDatabase _ _)
                  _ ?w0] =>
      destruct (traced silent
                  (checkIntegrityBetweenPrimaryAndSecondaryDatabase this user)
                  w0 (emits_checkIntegrity this user)
                  (logsRefusals_checkIntegrity this user))
        as (checked & w3 & t3 & Hrun3 & Hhist3 & Hsilent3 & Hcalls3
            & Hfaults3)
  end.
  apply publishedStatuses_silent in Hsilent3.
  simpl in Hhist3, Hcalls3, Hfaults3.
  destruct checked as [e|verdict].
  { destruct (FailureTheory.checkIntegrity_caught this user
                (record (Slept 2000) w2)) as (a & w' & Hret).
    unfold allowForPrimaryDatabaseToCatchUp, perform in Hrun3.
    simpl in Hrun3. rewrite Hret in Hrun3. discriminate Hrun3. }
  rewrite (bind_returns _ _ _ _ _ Hrun3).
  destruct (finish_shapes user (dtoTimestamp dto) verdict w3)
    as (t4 & Hhist4 & Hend).
  exists (t1 ++ [Published user InProgress (dtoTimestamp dto) (stores w1)]
          ++ t2 ++ [Slept 2000] ++ t3 ++ t4)%list.
  split.
  { rewrite Hhist4, Hhist3, Hhist2, Hhist1, <- !app_assoc. reflexivity. }
  rewrite !publishedStatuses_app, Hsilent1, Hsilent3, Halive. simpl.
  destruct Hend as [Hend|[Hend|(message & Hthrow & ->)]].
  - rewrite Hend. right. right. left. by exists k, Failed.
  - rewrite Hend. right. right. left. by exists k, Verified.
  - right. right. right.
    exists k, user, message,
      (t1 ++ [Published user InProgress (dtoTimestamp dto) (stores w1)]
       ++ t2 ++ [Slept 2000] ++ t3)%list, (stores w3).
    split; [reflexivity|]. split; [reflexivity|]. split.
    + rewrite <- Hthrow, Hfaults3, Hfaults2, Hfaults1, Hcalls3, Hcalls2,
        Hcalls1.
      rewrite !repoCalls_app. simpl. f_equal. lia.
    + by rewrite <- !app_assoc.
Qed.

End OrderTheory.

Module DriverTheory.

Import Scheduler SchedulerTheory DriverNotions ListTheory.

Lemma requestCount_app type a b :
  requestCount type (a ++ b) = requestCount type a + requestCount type b.
Proof.
  unfold requestCount, requests. rewrite omap_app, length_app. lia.
Qed.

Lemma requested_dec (trace : list Effect) id type timestamp :
  PublishedTransitionRequested id type timestamp ∈ trace
  \/ PublishedTransitionRequested id type timestamp ∉ trace.
Proof.
  destruct (decide (PublishedTransitionRequested id type timestamp ∈ trace));
    auto.
Qed.

(** The state stays as described when one more user is examined. *)
Lemma examined_user w0 forceRun timestamp done st user :
  examined w0 forceRun timestamp done st ->
  examined w0 forceRun timestamp (done ++ [user])
    (processUser forceRun timestamp user st).
Proof.
  destruct st as [n w]. rewrite processUser_explicit.
  intros (Husers & Hclock & trace & Hhistory & Hreq & Hrows & Hci & Hcr).
  simpl in *.
  assert (Hdue : forall type,
             due (statuses w !! (uuid user, type)) forceRun = true
             <-> triggers (statuses w0 !! (uuid user, type)) forceRun).
  { intros type.
    destruct (requested_dec trace (uuid user) type timestamp) as [Hin|Hout].
    - rewrite (proj1 (Hrows _ _) Hin). split; [|done].
      intros _. by apply Hreq in Hin as (_ & _ & ?).
    - rewrite (proj2 (Hrows _ _) Hout). apply due_triggers. }
  unfold examined. simpl.
  split; [exact Husers|]. split; [exact Hclock|].
  exists (trace ++ userTrace forceRun timestamp user (statuses w))%list.
  split; [by rewrite Hhistory, app_assoc|].
  split; [|split; [|split]].
  - intros id type ts.
    rewrite elem_of_app, userTrace_requests, Hreq. split.
    + intros [(Hts & (u & Hu & Hid) & Htr)|(-> & Hts & Hd)].
      * split; [exact Hts|]. split; [|exact Htr].
        exists u. split; [|exact Hid]. apply elem_of_app. by left.
      * split; [exact Hts|]. split; [|by apply Hdue].
        exists user. split; [|done].
        apply elem_of_app. right. by apply list_elem_of_singleton.
    + intros (Hts & (u & Hu & Hid) & Htr).
      apply elem_of_app in Hu as [Hu|Hu].
      * left. split; [exact Hts|]. split; [|exact Htr]. by exists u.
      * apply list_elem_of_singleton in Hu as ->. right. subst id.
        split; [done|]. split; [exact Hts|]. by apply Hdue.
  - intros id type. rewrite rowsAfter_lookup, elem_of_app, userTrace_requests.
    split.
    + intros [Hin|(-> & _ & Hd)].
      * rewrite (proj1 (Hrows _ _) Hin). by destruct (_ && _).
      * by rewrite bool_decide_eq_true_2, Hd.
    + intros Hout.
      assert (bool_decide (id = uuid user)
              && due (statuses w !! (uuid user, type)) forceRun = false)
        as ->.
      { apply not_true_is_false. intros H.
        apply andb_prop in H as [Hid Hd].
        apply bool_decide_eq_true in Hid. apply Hout. right.
        split; [exact Hid|]. split; [reflexivity|exact Hd]. }
      apply Hrows. intros Hin. apply Hout. by left.
  - rewrite requestCount_app. lia.
  - rewrite requestCount_app. lia.
Qed.

Lemma examined_users w0 forceRun timestamp found done st :
  examined w0 forceRun timestamp done st ->
  examined w0 forceRun timestamp (done ++ found)
    (fold_left (fun st user => processUser forceRun timestamp user st)
       found st).
Proof.
  revert done st. induction found as [|user found IH]; intros done st Hst.
  - by rewrite app_nil_r.
  - simpl. rewrite (cons_middle user done found), app_assoc.
    apply IH. by apply examined_user.
Qed.

Lemma examined_record w0 forceRun timestamp done n w e :
  noRequest e ->
  examined w0 forceRun timestamp done (n, w) ->
  examined w0 forceRun timestamp done (n, record e w).
Proof.
  intros He (Husers & Hclock & trace & Hhistory & Hreq & Hrows & Hci & Hcr).
  simpl in *.
  assert (Hin : forall id type ts,
             PublishedTransitionRequested id type ts ∈ (trace ++ [e])%list
             <-> PublishedTransitionRequested id type ts ∈ trace).
  { intros id type ts. rewrite elem_of_app, list_elem_of_singleton.
    split; [|auto]. intros [H|H]; [done|]. subst e. destruct He. }
  assert (Hcount : forall type,
             requestCount type (trace ++ [e]) = requestCount type trace).
  { intros type. rewrite requestCount_app.
    unfold requestCount at 2. destruct e; simpl; try lia. destruct He. }
  unfold examined. simpl.
  split; [exact Husers|]. split; [exact Hclock|].
  exists (trace ++ [e])%list. split; [by rewrite Hhistory, app_assoc|].
  split; [|split; [|by rewrite !Hcount]].
  - intros id type ts. by rewrite Hin.
  - intros id type. rewrite Hin. apply Hrows.
Qed.

Lemma examined_page args w0 forceRun timestamp done st currentPage :
  examined w0 forceRun timestamp done st ->
  examined w0 forceRun timestamp (done ++ pageUsers args w0 currentPage)
    (processPage args forceRun timestamp currentPage st).
Proof.
  destruct st as [n w]. intros Hst.
  unfold processPage, findAllCreatedBetween.
  assert (Husers : users w = users w0) by apply Hst.
  rewrite Husers.
  apply (examined_users w0 forceRun timestamp (pageUsers args w0 currentPage)).
  by apply examined_record.
Qed.

Lemma examined_pages args w0 forceRun timestamp pages done st :
  examined w0 forceRun timestamp done st ->
  examined w0 forceRun timestamp
    (done ++ concat (map (pageUsers args w0) pages))
    (fold_left (fun st currentPage =>
                  processPage args forceRun timestamp currentPage st)
       pages st).
Proof.
  revert done st. induction pages as [|p pages IH]; intros done st Hst.
  - simpl. by rewrite app_nil_r.
  - simpl. rewrite app_assoc. apply IH. by apply examined_page.
Qed.

(** The whole run: the state before the closing log line. *)
Lemma requestTransition_examined args w :
  exists n w',
    requestTransition args w
    = record (LoggedTriggered (itemTransitionsTriggered n)
                (revisionTransitionsTriggered n)) w'
    /\ examined w (forced args) (clock w) (window args w) (n, w').
Proof.
  unfold requestTransition, countAllCreatedBetween. simpl.
  match goal with
  | |- context [fold_left ?f ?pages ?st] =>
      pose proof (examined_pages args w
                    (String.eqb (forceRunParam args) "true") (clock w)
                    pages [] st) as Hrun;
      unfold pageUsers, window in Hrun;
      rewrite pages_cover in Hrun;
      destruct (fold_left f pages st) as [n w'] eqn:Hfold
  end.
  exists n, w'. split; [reflexivity|]. apply Hrun.
  apply examined_record; [exact I|]. apply examined_record; [exact I|].
  split; [reflexivity|]. split; [reflexivity|].
  exists []. simpl. rewrite app_nil_r. split; [reflexivity|].
  split; [|split; [|by split]].
  - intros id type ts. split; [by intros ?%elem_of_nil|].
    by intros (_ & (u & ?%elem_of_nil & _) & _).
  - intros id type. split; [by intros ?%elem_of_nil|done].
Qed.

(** X17. Over all pages, the transition requests of the driver, whatever
    their user, type and timestamp, are exactly these: one with the
    timestamp taken at the start of the run, for each user created in the
    window and each type whose status row, as it was when the run started,
    is absent, [Failed], or [InProgress] under a forced run. *)
Theorem driver_requests_what_is_due (args : Args) (w : World) :
  exists trace,
    history (requestTransition args w) = (history w ++ trace)%list
    /\ forall id type ts,
         PublishedTransitionRequested id type ts ∈ trace
         <-> ts = clock w
             /\ (exists u, u ∈ window args w /\ uuid u = id)
             /\ triggers (statuses w !! (id, type)) (forced args).
Proof.
  destruct (requestTransition_examined args w)
    as (n & w' & -> & _ & _ & trace & Hhistory & Hreq & _).
  simpl in *.
  exists (trace ++ [LoggedTriggered (itemTransitionsTriggered n)
                      (revisionTransitionsTriggered n)])%list.
  split; [by rewrite Hhistory, app_assoc|].
  intros id type ts. rewrite <- Hreq, elem_of_app, list_elem_of_singleton.
  split; [|auto]. by intros [H|[=]].
Qed.

(** X18. The status rows that the driver removes are exactly those of the
    pairs of user and type for which its trace holds a transition request;
    the row of every other pair, and the users, are as before. *)
Theorem driver_removes_requested_rows (args : Args) (w : World) :
  exists trace,
    history (requestTransition args w) = (history w ++ trace)%list
    /\ users (requestTransition args w) = users w
    /\ forall id type,
         ((exists ts, PublishedTransitionRequested id type ts ∈ trace) ->
          statuses (requestTransition args w) !! (id, type) = None)
         /\ ((forall ts, PublishedTransitionRequested id type ts ∉ trace) ->
             statuses (requestTransition args w) !! (id, type)
             = statuses w !! (id, type)).
Proof.
  destruct (requestTransition_examined args w)
    as (n & w' & -> & Husers & _ & trace & Hhistory & Hreq & Hrows & _).
  simpl in *.
  exists (trace ++ [LoggedTriggered (itemTransitionsTriggered n)
                      (revisionTransitionsTriggered n)])%list.
  split; [by rewrite Hhistory, app_assoc|]. split; [exact Husers|].
  assert (Hin : forall id type ts,
             PublishedTransitionRequested id type ts
             ∈ (trace ++ [LoggedTriggered (itemTransitionsTriggered n)
                            (revisionTransitionsTriggered n)])%list
             <-> PublishedTransitionRequested id type ts ∈ trace).
  { intros id type ts. rewrite elem_of_app, list_elem_of_singleton.
    split; [|auto]. by intros [H|[=]]. }
  intros id type. split.
  - intros [ts Hts]. apply Hin in Hts. apply Hrows.
    by destruct (proj1 (Hreq _ _ _) Hts) as (-> & _).
  - intros Hnone. apply Hrows. intros Hts. by apply (Hnone (clock w)), Hin.
Qed.

(** X19. The totals of the closing log line are the numbers of item and
    revision transitions requested in the run. *)
Theorem driver_reports_its_requests (args : Args) (w : World) :
  exists trace,
    history (requestTransition args w)
    = (history w ++ trace
       ++ [LoggedTriggered (requestCount Items trace)
             (requestCount Revisions trace)])%list.
Proof.
  destruct (requestTransition_examined args w)
    as (n & w' & -> & _ & _ & trace & Hhistory & _ & _ & Hci & Hcr).
  simpl in *. exists trace.
  by rewrite Hhistory, Hci, Hcr, app_assoc.
Qed.

End DriverTheory.

Module RerunTheory.

Import Revisions RevisionsTheory MigrationNotions MigrationTheory
  FailureTheory.

#[local] Hint Resolve keepsFaults_ret keepsFaults_throw keepsFaults_perform
  keepsFaults_repoCall : faults.

Lemma keepsFaults_migrateRevisionsForUser this user timestamp :
  keepsFaults (migrateRevisionsForUser this user timestamp).
Proof.
  unfold migrateRevisionsForUser, migratePage, countByUserUuid,
    findByUserUuid.
  apply keepsFaults_tryCatch; [|intros; keeps].
  apply keepsFaults_bind; [keeps|]. intros initial.
  apply keepsFaults_bind; [keeps|]. intros total.
  apply keepsFaults_bind; [|intros; keeps].
  apply keepsFaults_forEach. intros p.
  apply keepsFaults_bind; [destruct (remIsZero _ _); keeps|]. intros _.
  apply keepsFaults_bind; [keeps|]. intros _.
  apply keepsFaults_bind; [keeps|]. intros revisions.
  apply keepsFaults_forEach. intros r.
  apply keepsFaults_migrateRevision.
Qed.

Lemma keepsFaults_checkIntegrity this user :
  keepsFaults (checkIntegrityBetweenPrimaryAndSecondaryDatabase this user).
Proof.
  unfold checkIntegrityBetweenPrimaryAndSecondaryDatabase, checkPage,
    checkRevision, countByUserUuid, findByUserUuid, findOneByUuid.
  apply keepsFaults_tryCatch; [|intros; keeps].
  apply keepsFaults_bind; [keeps|]. intros initial.
  apply keepsFaults_bind; [keeps|]. intros inSecondary.
  apply keepsFaults_bind; [keeps|]. intros inPrimary.
  destruct (_ <? _); [keeps|].
  apply keepsFaults_bind; [|intros []; keeps].
  induction (pagesFrom _ _) as [|p pages IH]; simpl; [keeps|].
  apply keepsFaults_bind; [|intros []; [keeps|exact IH]].
  apply keepsFaults_bind; [keeps|]. intros _.
  apply keepsFaults_bind; [keeps|]. intros revisions.
  induction revisions as [|r rs IHr]; simpl; [keeps|].
  apply keepsFaults_bind; [|intros []; [keeps|exact IHr]].
  destruct (Uuid_create _); [|keeps].
  apply keepsFaults_bind; [keeps|]. intros [found|]; [|keeps].
  destruct (_ >? _); [keeps|]. destruct (isIdenticalTo _ _); keeps.
Qed.

Lemma after_faults {A} (m : M A) w r w' :
  keepsFaults m -> reliable w -> m w = (r, w') -> reliable w'.
Proof.
  intros Hkeeps Hrel Hrun n. specialize (Hkeeps w).
  rewrite Hrun in Hkeeps. simpl in Hkeeps. rewrite Hkeeps. apply Hrel.
Qed.

(** In a run whose repository calls all answer, an [execute] that returns
    success leaves no revision of the user in the secondary store. *)
Lemma execute_ok_cleans this dto user w w1 :
  secondRevisionsRepositoryIsSet this = true ->
  transitionStatusRepositoryIsSet this = true ->
  Uuid_create (dtoUserUuid dto) = Ok user ->
  reliable w ->
  execute this dto w = (inr (Ok tt), w1) ->
  reliable w1 /\ revisionsOf user (secondaryDb (stores w1)) = [].
Proof.
  intros Hsecond Hstatus Huser Hrel.
  unfold execute. rewrite Hsecond, Hstatus, Huser. simpl.
  unfold isAlreadyMigrated. unfold bind at 1. unfold bind at 1.
  rewrite countByUserUuid_succeeds by apply Hrel.
  unfold ret at 1. unfold getDb.
  destruct (Z.of_nat (length (revisionsOf user (secondaryDb (stores w))))
            =? 0) eqn:Hcount.
  { simpl. intros [= <-]. simpl. split; [exact Hrel|].
    apply nil_length_inv. lia. }
  unfold bind at 1. simpl.
  match goal with
  | |- context [bind (migrateRevisionsForUser _ _ _) _ ?w0] =>
      destruct (migrateRevisionsForUser_reliable this user
                  (dtoTimestamp dto) w0)
        as (w2 & Hmigration & Hrel2 & _); [exact Hrel|]
  end.
  rewrite (bind_returns _ _ _ _ _ Hmigration).
  unfold bind at 1. simpl.
  match goal with
  | |- context [bind (checkIntegrityBetweenPrimaryAndSecondaryDatabase _ _)
                  _ ?w0] =>
      destruct (checkIntegrity_caught this user w0)
        as (verdict & w3 & Hcheck);
      assert (reliable w3) as Hrel3
        by (apply (after_faults _ w0 (inr verdict) w3
                     (keepsFaults_checkIntegrity this user));
            [exact Hrel2 | exact Hcheck])
  end.
  rewrite (bind_returns _ _ _ _ _ Hcheck).
  destruct verdict as [[]|e]; [|discriminate].
  destruct (finish_cleans user (dtoTimestamp dto) w3)
    as (w4 & Hend & Hstores & _); [apply Hrel3|].
  rewrite Hend. intros [= <-]. split.
  - apply (after_faults (finish user (dtoTimestamp dto) (Ok tt)) w3
             (inr (Ok tt)) w4); [|exact Hrel3|exact Hend].
    unfold finish, deleteRevisionsForUser, removeByUserUuid, logError. keeps.
  - rewrite Hstores. simpl. apply revisionsOf_removed.
Qed.

Lemma afterRevision_fixed inPrimary revision :
  accepts inPrimary (userUuid revision) revision ->
  afterRevision inPrimary revision = inPrimary.
Proof.
  intros (Hvalid & found & Hfound & Hverdict). unfold afterRevision.
  rewrite Hvalid, Hfound.
  destruct (updatedAt found >? updatedAt revision) eqn:Hnewer; [done|].
  destruct Hverdict as [Hlater| ->]; [lia|].
  unfold isIdenticalTo. by rewrite bool_decide_eq_true_2.
Qed.

(** X4. In a run whose repository calls all answer, migrating a revision
    a second time changes no store. *)
Theorem migrateRevision_idempotent (revision : Revision) (w : World) :
  reliable w ->
  exists w1 w2,
    migrateRevision revision w = (inr tt, w1)
    /\ migrateRevision revision w1 = (inr tt, w2)
    /\ stores w2 = stores w1.
Proof.
  intros Hrel.
  destruct (migrateRevision_reliable revision w Hrel)
    as (w1 & Hrun1 & Hrel1 & Hstores1).
  destruct (migrateRevision_reliable revision w1 Hrel1)
    as (w2 & Hrun2 & _ & Hstores2).
  exists w1, w2. split; [exact Hrun1|]. split; [exact Hrun2|].
  rewrite Hstores2.
  destruct (isValidUuid (revisionId revision)) eqn:Hvalid.
  - rewrite afterRevision_fixed; [apply setPrimary_same|].
    replace (primaryDb (stores w1))
      with (afterRevision (primaryDb (stores w)) revision)
      by (rewrite Hstores1; by destruct (stores w)).
    by apply afterRevision_accepts.
  - unfold afterRevision. rewrite Hvalid. apply setPrimary_same.
Qed.

(** X5. In a run whose repository calls all answer, an [execute] that
    follows one that returned success counts the secondary revisions of
    the user, publishes [Verified] again and changes no store. *)
Theorem execute_rerun (this : UseCase) (dto : DTO) (user : string)
    (w w1 : World) :
  secondRevisionsRepositoryIsSet this = true ->
  transitionStatusRepositoryIsSet this = true ->
  Uuid_create (dtoUserUuid dto) = Ok user ->
  reliable w ->
  execute this dto w = (inr (Ok tt), w1) ->
  exists w2,
    execute this dto w1 = (inr (Ok tt), w2)
    /\ stores w2 = stores w1
    /\ history w2
       = (history w1
          ++ [RepoCall Secondary (CountByUserUuid user);
              Published user Verified (dtoTimestamp dto) (stores w1)])%list.
Proof.
  intros Hsecond Hstatus Huser Hrel Hrun.
  destruct (execute_ok_cleans this dto user w w1) as [Hrel1 Hnone];
    try done.
  unfold execute. rewrite Hsecond, Hstatus, Huser. simpl.
  unfold isAlreadyMigrated. unfold bind at 1. unfold bind at 1.
  rewrite countByUserUuid_succeeds by apply Hrel1.
  unfold getDb. rewrite Hnone. simpl.
  eexists. split; [reflexivity|]. simpl. split; [reflexivity|].
  by rewrite <- app_assoc.
Qed.

End RerunTheory.

Module CadenceTheory.

Import Revisions RevisionsTheory CadenceNotions.

Lemma emits_forEach_in {A} P (l : list A) (body : A -> M unit) :
  (forall x, x ∈ l -> emits P (body x)) -> emits P (forEach l body).
Proof.
  induction l as [|x l IH]; intros Hbody; simpl.
  - apply emits_ret.
  - apply emits_bind; [apply Hbody; left|].
    intros _. apply IH. intros y Hy. apply Hbody. by right.
Qed.

Lemma countByUserUuid_cases db user w :
  exists w1,
    history w1 = (history w ++ [RepoCall db (CountByUserUuid user)])%list
    /\ ((exists e, countByUserUuid db user w = (inl e, w1))
        \/ (countByUserUuid db user w
            = (inr (countOf user (getDb db (stores w))), w1)
            /\ stores w1 = stores w)).
Proof.
  unfold countByUserUuid, repoCall.
  destruct (faults w (calls w)) as [|message|]; simpl.
  - eexists. split; [|right; split; [reflexivity|]]; simpl; [done|].
    by rewrite setDb_getDb.
  - eexists. split; [|left; by eexists]. done.
  - eexists. split; [|right; split; [reflexivity|]]; simpl; [done|].
    by rewrite setDb_getDb.
Qed.

(** The effects of the migration: the two reads, then those of the loop
    over the pages from the stored cursor to the last page, if the count
    did not throw. *)
Lemma migrateRevisionsForUser_trace this user timestamp w :
  let initial := default 1 (pagingProgress (stores w) !! user) in
  let total :=
    ceilDiv (countOf user (secondaryDb (stores w))) (pageSize this) in
  exists w1,
    history w1
    = (history w ++ [GetPagingProgress user;
                     RepoCall Secondary (CountByUserUuid user)])%list
    /\ (history (migrateRevisionsForUser this user timestamp w).2
        = history w1
        \/ history (migrateRevisionsForUser this user timestamp w).2
           = history (forEach (pagesFrom initial total)
                        (migratePage this user timestamp total) w1).2).
Proof.
  intros initial total.
  destruct (countByUserUuid_cases Secondary user
              (record (GetPagingProgress user) w))
    as (w1 & Hh & Hcases).
  exists w1. split; [rewrite Hh; simpl; by rewrite <- app_assoc|].
  destruct Hcases as [[e Hrun]|[Hrun Hstores]]; [left|right];
    unfold migrateRevisionsForUser, tryCatch; unfold bind at 1;
    unfold getPagingProgress at 1; simpl; unfold bind at 1;
    rewrite Hrun; simpl; [done|].
  fold initial total. unfold bind.
  by destruct (forEach _ _ w1) as [[e|[]] w2].
Qed.

(** *** The paging cursor stays within the pages of the run *)

Lemma emits_migrateRevision_calls (P : Effect -> Prop) revision :
  (forall db c, P (RepoCall db c)) ->
  (forall ms, P (Slept ms)) ->
  (forall message, P (LoggedError message)) ->
  emits P (migrateRevision revision).
Proof.
  intros Hcall Hslept Hlogged.
  unfold migrateRevision, migrateRevisionBody, saveRevision, getValue,
    findOneByUuid, removeOneByUuid, insert, logError,
    allowForPrimaryDatabaseToCatchUp.
  emitting_with
    ltac:(first [ apply emits_perform; done | apply emits_repoCall; done ]).
Qed.

Lemma emits_migratePage this user timestamp total p :
  emits (cursorWithin user p p) (migratePage this user timestamp total p).
Proof.
  unfold migratePage, findByUserUuid.
  emitting_with
    ltac:(first [ by apply emits_updateTransitionStatus
                | by apply emits_migrateRevision_calls
                | apply (emits_effect _ _ _ (SetPagingProgress user p));
                  [simpl; split; [done|lia] | reflexivity] ]).
Qed.

Lemma elem_of_pagesFrom p initial total :
  p ∈ pagesFrom initial total -> initial <= p <= total.
Proof. unfold pagesFrom. rewrite elem_of_seqZ. lia. Qed.

(** X14. Whatever the repositories do, the migration writes the paging
    cursor of its user only, and only with pages between the stored cursor
    and the last page. *)
Theorem migration_cursor_within (this : UseCase) (user : string)
    (timestamp : Z) (w : World) :
  exists trace,
    history (migrateRevisionsForUser this user timestamp w).2
    = (history w ++ trace)%list
    /\ Forall (cursorWithin user
                 (default 1 (pagingProgress (stores w) !! user))
                 (ceilDiv (countOf user (secondaryDb (stores w)))
                    (pageSize this))) trace.
Proof.
  destruct (migrateRevisionsForUser_trace this user timestamp w)
    as (w1 & Hh1 & [Hh|Hh]); rewrite Hh.
  - eexists. split; [exact Hh1|]. by repeat constructor.
  - match goal with
    | |- context [forEach ?pages ?body w1] =>
        destruct (emits_forEach_in
                    (cursorWithin user
                       (default 1 (pagingProgress (stores w) !! user))
                       (ceilDiv (countOf user (secondaryDb (stores w)))
                          (pageSize this))) pages body) with (w := w1)
          as (trace & Hloop & Hall)
    end.
    { intros p Hp. apply elem_of_pagesFrom in Hp.
      eapply emits_weaken; [|apply emits_migratePage].
      intros [] He; simpl in *; try done.
      destruct He as [-> ?]. split; [done|lia]. }
    eexists. rewrite Hloop, Hh1, <- app_assoc. split; [reflexivity|].
    apply Forall_app. split; [by repeat constructor|exact Hall].
Qed.

(** *** At most ten keep-alive events *)

Lemma migratePage_publishes this user timestamp total p w :
  exists trace,
    history (migratePage this user timestamp total p w).2
    = (history w ++ trace)%list
    /\ length (publishedStatuses trace) = keepAlivePages total [p].
Proof.
  assert (emits silent
            (setPagingProgress user p ;;
             let* revisions :=
               findByUserUuid Secondary user
                 ((p - 1) * Z.pos (pageSize this)) (Z.pos (pageSize this)) in
             forEach revisions migrateRevision)) as Hrest.
  { unfold findByUserUuid.
    emitting_with ltac:(apply emits_migrateRevision; by intros []). }
  unfold migratePage, keepAlivePages. simpl. unfold filter. simpl.
  unfold bind at 1.
  destruct (decide (remIsZero p (ceilDiv total 10) = true)) as [Hdue|Hdue].
  - rewrite Hdue. simpl.
    match goal with
    | |- context [bind ?m ?k ?w0] =>
        destruct (Hrest w0) as (trace & Hh & Hall)
    end.
    eexists. rewrite Hh. simpl. rewrite <- app_assoc. split; [reflexivity|].
    simpl. by rewrite publishedStatuses_silent.
  - apply not_true_is_false in Hdue. rewrite Hdue. simpl.
    destruct (Hrest w) as (trace & Hh & Hall).
    eexists. rewrite Hh. split; [reflexivity|].
    by rewrite publishedStatuses_silent.
Qed.

Lemma keepAlivePages_cons total p pages :
  keepAlivePages total (p :: pages)
  = (keepAlivePages total [p] + keepAlivePages total pages)%nat.
Proof.
  unfold keepAlivePages.
  change (p :: pages) with ([p] ++ pages)%list.
  by rewrite filter_app, length_app.
Qed.

Lemma migratePages_publish this user timestamp total pages : forall w,
  exists trace,
    history (forEach pages (migratePage this user timestamp total) w).2
    = (history w ++ trace)%list
    /\ (length (publishedStatuses trace) <= keepAlivePages total pages)%nat.
Proof.
  induction pages as [|p pages IH]; intros w; simpl.
  - exists []. by rewrite app_nil_r.
  - unfold bind.
    destruct (migratePage_publishes this user timestamp total p w)
      as (t1 & Hh1 & Hn1).
    rewrite keepAlivePages_cons.
    destruct (migratePage this user timestamp total p w) as [[e|[]] w1];
      simpl in *.
    + exists t1. split; [exact Hh1|]. lia.
    + destruct (IH w1) as (t2 & Hh2 & Hn2).
      exists (t1 ++ t2)%list. rewrite Hh2, Hh1, <- app_assoc.
      split; [reflexivity|].
      rewrite publishedStatuses_app, length_app. lia.
Qed.

Lemma keepAlive_step (p s : Z) :
  1 <= p -> 0 < s ->
  (if remIsZero p s then 1 else 0) <= p / s - (p - 1) / s.
Proof.
  intros Hp Hs. unfold remIsZero.
  destruct (s =? 0) eqn:Hzero; [lia|].
  destruct (Z.rem p s =? 0) eqn:Hrem.
  - rewrite Z.rem_mod_nonneg in Hrem by lia.
    pose proof (Z.div_mod p s ltac:(lia)) as Hdiv.
    assert ((p - 1) / s < p / s); [|lia].
    apply Z.div_lt_upper_bound; lia.
  - pose proof (Z.div_le_mono (p - 1) p s Hs ltac:(lia)). lia.
Qed.

Lemma keepAlivePages_single total p :
  Z.of_nat (keepAlivePages total [p])
  = if remIsZero p (ceilDiv total 10) then 1 else 0.
Proof.
  unfold keepAlivePages. simpl. unfold filter. simpl.
  destruct (decide (remIsZero p (ceilDiv total 10) = true)) as [Hdue|Hdue].
  - by rewrite Hdue.
  - apply not_true_is_false in Hdue. by rewrite Hdue.
Qed.

Lemma keepAlivePages_run total (k : nat) : forall i,
  1 <= i -> 0 < ceilDiv total 10 ->
  Z.of_nat (keepAlivePages total (seqZ i (Z.of_nat k)))
  <= (i + Z.of_nat k - 1) / ceilDiv total 10 - (i - 1) / ceilDiv total 10.
Proof.
  induction k as [|k IH]; intros i Hi Hs.
  - change (Z.of_nat 0) with 0. replace (i + 0 - 1) with (i - 1) by lia.
    unfold keepAlivePages. simpl. lia.
  - rewrite seqZ_cons by lia.
    replace (Z.pred (Z.of_nat (S k))) with (Z.of_nat k) by lia.
    rewrite keepAlivePages_cons, Nat2Z.inj_add, keepAlivePages_single.
    pose proof (keepAlive_step i (ceilDiv total 10) Hi Hs) as Hstep.
    specialize (IH (Z.succ i) ltac:(lia) Hs).
    replace (Z.succ i + Z.of_nat k - 1) with (i + Z.of_nat (S k) - 1) in IH
      by lia.
    replace (Z.succ i - 1) with i in IH by lia.
    lia.
Qed.

Lemma keepAlivePages_bound initial total :
  1 <= initial ->
  (keepAlivePages total (pagesFrom initial total) <= 10)%nat.
Proof.
  intros Hinitial. unfold pagesFrom.
  destruct (decide (total - initial + 1 <= 0)) as [Hnone|Hsome].
  { rewrite seqZ_nil by done. unfold keepAlivePages. simpl. lia. }
  assert (0 < ceilDiv total 10) as Hs.
  { unfold ceilDiv.
    assert (1 <= (total + 10 - 1) / 10); [|lia].
    apply Z.div_le_lower_bound; lia. }
  pose proof (keepAlivePages_run total (Z.to_nat (total - initial + 1))
                initial Hinitial Hs) as Hrun.
  rewrite Z2Nat.id in Hrun by lia.
  replace (initial + (total - initial + 1) - 1) with total in Hrun by lia.
  assert (0 <= (initial - 1) / ceilDiv total 10)
    by (apply Z.div_pos; lia).
  assert (total / ceilDiv total 10 <= 10); [|lia].
  apply Z.div_le_upper_bound; [exact Hs|].
  unfold ceilDiv.
  pose proof (Z.mul_succ_div_gt (total + 10 - 1) 10 ltac:(lia)). lia.
Qed.

(** X15. Whatever the repositories do, a migration whose stored cursor is
    at page 1 or later publishes at most ten keep-alive events. *)
Theorem migration_keepalives_capped (this : UseCase) (user : string)
    (timestamp : Z) (w : World) :
  1 <= default 1 (pagingProgress (stores w) !! user) ->
  exists trace,
    history (migrateRevisionsForUser this user timestamp w).2
    = (history w ++ trace)%list
    /\ (length (publishedStatuses trace) <= 10)%nat.
Proof.
  intros Hinitial.
  destruct (migrateRevisionsForUser_trace this user timestamp w)
    as (w1 & Hh1 & [Hh|Hh]); rewrite Hh.
  - eexists. split; [exact Hh1|]. simpl. lia.
  - match goal with
    | |- context [forEach ?pages (migratePage _ _ _ ?total) w1] =>
        destruct (migratePages_publish this user timestamp total pages w1)
          as (trace & Hloop & Hcount);
        pose proof (keepAlivePages_bound _ total Hinitial) as Hbound
    end.
    eexists. rewrite Hloop, Hh1, <- app_assoc. split; [reflexivity|].
    rewrite publishedStatuses_app, length_app. simpl. lia.
Qed.

End CadenceTheory.

Module VerifierTheory.

Import Revisions RevisionsTheory MigrationNotions MigrationTheory.

Lemma pages_forall this user inSecondary (Q : Revision -> Prop) totalPages :
  ceilDiv (countOf user inSecondary) (pageSize this) <= totalPages ->
  Forall (fun p => Forall Q (pageOf this user inSecondary p))
    (pagesFrom 1 totalPages)
  <-> Forall Q (revisionsOf user inSecondary).
Proof.
  intros Hpages. split.
  - intros Hall. rewrite <- (pages_of_user this user inSecondary).
    apply Forall_concat, Forall_fmap, Forall_forall. intros p Hp.
    rewrite Forall_forall in Hall. apply Hall.
    unfold pagesFrom in *. rewrite elem_of_seqZ in *. lia.
  - intros Hall. apply Forall_forall. intros p _.
    apply Forall_forall. intros r Hin. rewrite Forall_forall in Hall.
    apply Hall. by apply (pageOf_subseteq this user _ p).
Qed.

(** X6. In a run whose repository calls all answer, the verifier that
    starts at the first page returns success exactly when primary holds at
    least as many revisions of the user as secondary and accepts every
    secondary revision of the user; any other result is a failure. *)
Theorem checkIntegrity_decides (this : UseCase) (user : string) (w : World) :
  reliable w ->
  default 1 (integrityProgress (stores w) !! user) = 1 ->
  exists result w',
    checkIntegrityBetweenPrimaryAndSecondaryDatabase this user w
    = (inr result, w')
    /\ (result = Ok tt
        <-> countOf user (secondaryDb (stores w))
            <= countOf user (primaryDb (stores w))
            /\ Forall (accepts (primaryDb (stores w)) user)
                 (revisionsOf user (secondaryDb (stores w))))
    /\ (result <> Ok tt -> isFailed result = true).
Proof.
  intros Hrel Hcursor.
  unfold checkIntegrityBetweenPrimaryAndSecondaryDatabase, tryCatch.
  unfold bind at 1. simpl. rewrite Hcursor.
  erewrite bind_returns by (apply countByUserUuid_succeeds, Hrel).
  erewrite bind_returns by (apply countByUserUuid_succeeds, Hrel).
  simpl. unfold countOf.
  destruct (_ <? _) eqn:Hless.
  { eexists _, _. split; [reflexivity|]. split; [|done].
    split; [done|]. intros [Hcount _]. lia. }
  match goal with
  | |- context [bind (forEachUntil ?pages _) _ ?w0] =>
      destruct (checkPages_verdict this user (primaryDb (stores w))
                  (secondaryDb (stores w)) pages w0)
        as (v & w1 & Hrun & _ & Hv & Hfail)
  end.
  { split; [exact Hrel|]. split; reflexivity. }
  rewrite (bind_returns _ _ _ _ _ Hrun).
  rewrite (pages_forall this user (secondaryDb (stores w))
             (accepts (primaryDb (stores w)) user)) in Hv.
  2:{ unfold ceilDiv, countOf. apply Z.div_le_mono; lia. }
  destruct v as [res|].
  - exists res, w1. split; [reflexivity|]. split.
    + split.
      * intros ->. by specialize (Hfail _ eq_refl).
      * intros [_ Hall]. apply Hv in Hall. discriminate.
    + intros _. by apply Hfail.
  - exists (Ok tt), w1. split; [reflexivity|]. split; [|done].
    split; [|done]. intros _. split; [lia|]. by apply Hv.
Qed.

End VerifierTheory.

Module KeepingTheory.

Import Revisions RevisionsTheory MigrationNotions KeepingNotions.

Section Holds.

Context (I : Stores -> Prop).

Lemma holds_ret {A} (Q : A -> Prop) a : Q a -> holds I Q (ret a).
Proof. intros HQ w Hw. split; [exact Hw|]. by intros ? [= <-]. Qed.

Lemma holds_throw {A} (Q : A -> Prop) message : holds I Q (@throw A message).
Proof. intros w Hw. split; [exact Hw|]. intros ? [=]. Qed.

Lemma holds_weaken {A} (Q Q' : A -> Prop) (m : M A) :
  (forall a, Q a -> Q' a) -> holds I Q m -> holds I Q' m.
Proof.
  intros HQ Hm w Hw. destruct (Hm w Hw) as [HI Ha]. split; [exact HI|].
  intros a Hrun. by apply HQ, Ha.
Qed.

Lemma holds_bind {A B} (Q : A -> Prop) (Q' : B -> Prop) (m : M A)
    (k : A -> M B) :
  holds I Q m -> (forall a, Q a -> holds I Q' (k a)) ->
  holds I Q' (bind m k).
Proof.
  intros Hm Hk w Hw. unfold bind. destruct (Hm w Hw) as [HI Ha].
  destruct (m w) as [[e|a] w1]; simpl in *.
  - split; [exact HI|]. intros ? [=].
  - apply Hk; [by apply Ha | exact HI].
Qed.

Lemma holds_tryCatch {A} (Q : A -> Prop) (m : M A)
    (handler : string -> M A) :
  holds I Q m -> (forall e, holds I Q (handler e)) ->
  holds I Q (tryCatch m handler).
Proof.
  intros Hm Hh w Hw. unfold tryCatch. destruct (Hm w Hw) as [HI Ha].
  destruct (m w) as [[e|a] w1]; simpl in *.
  - by apply Hh.
  - split; [exact HI|]. intros ? [= <-]. by apply Ha.
Qed.

Lemma holds_forEach {A} (l : list A) (body : A -> M unit) :
  (forall x, x ∈ l -> holds I (fun _ => True) (body x)) ->
  holds I (fun _ => True) (forEach l body).
Proof.
  induction l as [|x l IH]; intros Hbody; simpl.
  - by apply holds_ret.
  - apply (holds_bind (fun _ => True)); [apply Hbody; left|].
    intros _ _. apply IH. intros y Hy. apply Hbody. by right.
Qed.

Lemma holds_forEachUntil {A B} (l : list A) (body : A -> M (option B)) :
  (forall x, holds I (fun _ => True) (body x)) ->
  holds I (fun _ => True) (forEachUntil l body).
Proof.
  intros Hbody. induction l as [|x l IH]; simpl.
  - by apply holds_ret.
  - apply (holds_bind (fun _ => True)); [apply Hbody|].
    intros [r|] _; [by apply holds_ret | exact IH].
Qed.

Lemma holds_repoCall {A} (Q : A -> Prop) db c
    (normal : list Revision -> A * list Revision) refused :
  (forall s, I s ->
     I (setDb db (normal (getDb db s)).2 s) /\ Q (normal (getDb db s)).1) ->
  (forall a, refused = Some a -> Q a) ->
  holds I Q (repoCall db c normal refused).
Proof.
  intros Hnormal Hrefused w Hw. unfold repoCall.
  destruct (Hnormal (stores w) Hw) as [HI HQ].
  destruct (faults w (calls w)) as [|message|]; simpl.
  - destruct (normal (getDb db (stores w))) as [a l]; simpl in *.
    split; [exact HI|]. by intros ? [= <-].
  - split; [exact Hw|]. intros ? [=].
  - destruct refused as [a|]; simpl.
    + split; [exact Hw|]. intros ? [= <-]. by apply Hrefused.
    + destruct (normal (getDb db (stores w))) as [a l]; simpl in *.
      split; [exact HI|]. by intros ? [= <-].
Qed.

(** A call that only reads. *)
Lemma holds_read {A} (Q : A -> Prop) db c (f : list Revision -> A) :
  (forall s, I s -> Q (f (getDb db s))) ->
  holds I Q (repoCall db c (fun l => (f l, l)) None).
Proof.
  intros HQ. apply holds_repoCall; [|done].
  intros s Hs. simpl. rewrite setDb_getDb. split; [exact Hs | by apply HQ].
Qed.

Lemma holds_perform e : holds I (fun _ => True) (perform e).
Proof. intros w Hw. by split. Qed.

Lemma holds_updateTransitionStatus user status timestamp :
  holds I (fun _ => True) (updateTransitionStatus user status timestamp).
Proof. intros w Hw. by split. Qed.

Lemma holds_getPagingProgress user :
  holds I (fun _ => True) (getPagingProgress user).
Proof. intros w Hw. by split. Qed.

Lemma holds_getIntegrityProgress user :
  holds I (fun _ => True) (getIntegrityProgress user).
Proof. intros w Hw. by split. Qed.

End Holds.

Section Keeping.

Context (user : string) (inPrimary inSecondary : list Revision).

Abbreviation kept := (keeping user inPrimary inSecondary).

Lemma kept_cursors s paging integrity :
  kept s -> kept (mkStores (primaryDb s) (secondaryDb s) paging integrity).
Proof. by intros [? ?]. Qed.

Lemma kept_setPagingProgress owner p :
  holds kept (fun _ => True) (setPagingProgress owner p).
Proof. intros w Hw. split; [by apply kept_cursors|done]. Qed.

Lemma kept_setIntegrityProgress owner p :
  holds kept (fun _ => True) (setIntegrityProgress owner p).
Proof. intros w Hw. split; [by apply kept_cursors|done]. Qed.

Lemma kept_countByUserUuid db owner :
  holds kept (fun _ => True) (countByUserUuid db owner).
Proof. by apply holds_read. Qed.

Lemma kept_findOneByUuid rid owner :
  holds kept
    (fun found => forall f, found = Some f -> named rid owner f)
    (findOneByUuid Primary rid owner).
Proof.
  apply holds_read. intros s _ f Hfound.
  by apply lookupRevision_named in Hfound as [? _].
Qed.

Lemma kept_findByUserUuid offset limit :
  holds kept
    (fun revisions =>
       forall x, x ∈ revisions -> x ∈ revisionsOf user inSecondary)
    (findByUserUuid Secondary user offset limit).
Proof.
  apply holds_read. intros s [Hsecondary _] x Hx. apply Hsecondary.
  unfold page in Hx. simpl.
  eapply subseteq_drop, subseteq_take, Hx.
Qed.

Lemma kept_insert revision :
  holds kept (fun _ => True) (insert Primary revision).
Proof.
  apply holds_repoCall; [|done]. intros s [Hsecondary Hprimary].
  split; [|done]. split; [exact Hsecondary|]. simpl.
  intros r Hr Hun. apply elem_of_app. left. by apply Hprimary.
Qed.

Lemma kept_removeOneByUuid revision :
  revision ∈ revisionsOf user inSecondary ->
  holds kept (fun _ => True)
    (removeOneByUuid Primary (revisionId revision) user).
Proof.
  intros Hrevision. apply holds_repoCall; [|done].
  intros s [Hsecondary Hprimary].
  split; [|done]. split; [exact Hsecondary|]. simpl.
  intros r Hr Hun. apply list_elem_of_filter. split; [|by apply Hprimary].
  by apply Hun.
Qed.

Lemma kept_removeByUserUuid owner :
  holds kept (fun _ => True) (removeByUserUuid Secondary owner).
Proof.
  apply holds_repoCall; [|done]. intros s [Hsecondary Hprimary].
  split; [|done]. split; [|exact Hprimary]. simpl.
  intros x Hx. apply Hsecondary. unfold revisionsOf in *.
  apply list_elem_of_filter in Hx as [Hu Hx].
  apply list_elem_of_filter in Hx as [_ Hx].
  by apply list_elem_of_filter.
Qed.

Lemma kept_saveRevision revision :
  holds kept (fun _ => True) (saveRevision revision).
Proof.
  unfold saveRevision, logError.
  apply (holds_bind _ (fun _ => True)); [apply kept_insert|].
  intros didSave _. destruct (negb didSave);
    [apply holds_perform | by apply holds_ret].
Qed.

Lemma getValue_create (Q : string -> Prop) text :
  Q text -> holds kept Q (getValue (Uuid_create text)).
Proof.
  intros HQ. unfold Uuid_create, getValue.
  destruct (isValidUuid text); [by apply holds_ret | apply holds_throw].
Qed.

Lemma kept_migrateRevision revision :
  revision ∈ revisionsOf user inSecondary ->
  holds kept (fun _ => True) (migrateRevision revision).
Proof.
  intros Hrevision.
  assert (userUuid revision = user) as Huser.
  { unfold revisionsOf in Hrevision.
    by apply list_elem_of_filter in Hrevision as [? _]. }
  unfold migrateRevision, migrateRevisionBody, logError,
    allowForPrimaryDatabaseToCatchUp.
  apply holds_tryCatch; [|intros; apply holds_perform].
  apply (holds_bind _ (fun rid => rid = revisionId revision));
    [by apply getValue_create|].
  intros rid ->.
  apply (holds_bind _ _ _ _ _ (kept_findOneByUuid _ _)).
  intros [found|] Hfound; [|apply kept_saveRevision].
  destruct (Hfound found eq_refl) as [Hid Howner].
  destruct (_ >? _); [by apply holds_ret|].
  destruct (isIdenticalTo _ _); [by apply holds_ret|].
  apply (holds_bind _ (fun pid => pid = revisionId revision));
    [apply getValue_create; exact Hid|].
  intros pid ->. rewrite Howner, Huser.
  apply (holds_bind _ (fun _ => True)); [by apply kept_removeOneByUuid|].
  intros _ _.
  apply (holds_bind _ (fun _ => True)); [apply holds_perform|].
  intros _ _. apply kept_saveRevision.
Qed.

Lemma kept_migrateRevisionsForUser this timestamp :
  holds kept (fun _ => True) (migrateRevisionsForUser this user timestamp).
Proof.
  unfold migrateRevisionsForUser, migratePage.
  apply holds_tryCatch; [|intros; by apply holds_ret].
  apply (holds_bind _ (fun _ => True)); [apply holds_getPagingProgress|].
  intros initial _.
  apply (holds_bind _ (fun _ => True)); [apply kept_countByUserUuid|].
  intros total _.
  apply (holds_bind _ (fun _ => True)); [|intros; by apply holds_ret].
  apply holds_forEach. intros p _.
  apply (holds_bind _ (fun _ => True)).
  { destruct (remIsZero _ _);
      [apply holds_updateTransitionStatus | by apply holds_ret]. }
  intros _ _.
  apply (holds_bind _ (fun _ => True)); [apply kept_setPagingProgress|].
  intros _ _.
  apply (holds_bind _ _ _ _ _ (kept_findByUserUuid _ _)).
  intros revisions Hrevisions.
  apply holds_forEach. intros r Hr. by apply kept_migrateRevision, Hrevisions.
Qed.

Lemma kept_checkIntegrity this :
  holds kept (fun _ => True)
    (checkIntegrityBetweenPrimaryAndSecondaryDatabase this user).
Proof.
  unfold checkIntegrityBetweenPrimaryAndSecondaryDatabase, checkPage,
    checkRevision.
  apply holds_tryCatch; [|intros; by apply holds_ret].
  apply (holds_bind _ (fun _ => True)); [apply holds_getIntegrityProgress|].
  intros initial _.
  apply (holds_bind _ (fun _ => True)); [apply kept_countByUserUuid|].
  intros inS _.
  apply (holds_bind _ (fun _ => True)); [apply kept_countByUserUuid|].
  intros inP _.
  destruct (_ <? _); [by apply holds_ret|].
  apply (holds_bind _ (fun _ => True));
    [|intros []; intros; by apply holds_ret].
  apply holds_forEachUntil. intros p.
  apply (holds_bind _ (fun _ => True)); [apply kept_setIntegrityProgress|].
  intros _ _.
  apply (holds_bind _ (fun _ => True));
    [eapply holds_weaken; [|apply kept_findByUserUuid]; done|].
  intros revisions _.
  apply holds_forEachUntil. intros r.
  destruct (Uuid_create _); [|by apply holds_ret].
  apply (holds_bind _ (fun _ => True));
    [eapply holds_weaken; [|apply kept_findOneByUuid]; done|].
  intros [found|] _; [|by apply holds_ret].
  destruct (_ >? _); [by apply holds_ret|].
  destruct (isIdenticalTo _ _); by apply holds_ret.
Qed.

Lemma kept_finish timestamp verdict :
  holds kept (fun _ => True) (finish user timestamp verdict).
Proof.
  unfold finish, deleteRevisionsForUser, logError.
  destruct verdict as [[]|e].
  - apply (holds_bind _ (fun _ => True)).
    { apply holds_tryCatch; [|intros; by apply holds_ret].
      apply (holds_bind _ (fun _ => True)); [apply kept_removeByUserUuid|].
      intros; by apply holds_ret. }
    intros cleanup _.
    apply (holds_bind _ (fun _ => True)).
    { destruct cleanup; [by apply holds_ret|].
      apply (holds_bind _ (fun _ => True));
        [apply holds_updateTransitionStatus|].
      intros; apply holds_perform. }
    intros _ _.
    apply (holds_bind _ (fun _ => True));
      [apply holds_updateTransitionStatus|].
    intros; by apply holds_ret.
  - apply (holds_bind _ (fun _ => True)); [apply kept_setPagingProgress|].
    intros _ _.
    apply (holds_bind _ (fun _ => True)); [apply kept_setIntegrityProgress|].
    intros _ _.
    apply (holds_bind _ (fun _ => True));
      [apply holds_updateTransitionStatus|].
    intros; by apply holds_ret.
Qed.

Lemma kept_execute this dto :
  Uuid_create (dtoUserUuid dto) = Ok user ->
  holds kept (fun _ => True) (execute this dto).
Proof.
  intros Huser. unfold execute, isAlreadyMigrated,
    allowForPrimaryDatabaseToCatchUp.
  destruct (negb _); [by apply holds_ret|].
  destruct (negb _); [by apply holds_ret|]. rewrite Huser.
  apply (holds_bind _ (fun _ => True)).
  { apply (holds_bind _ (fun _ => True)); [apply kept_countByUserUuid|].
    intros; by apply holds_ret. }
  intros [] _.
  - apply (holds_bind _ (fun _ => True));
      [apply holds_updateTransitionStatus|].
    intros; by apply holds_ret.
  - apply (holds_bind _ (fun _ => True));
      [apply holds_updateTransitionStatus|].
    intros _ _.
    apply (holds_bind _ (fun _ => True));
      [apply kept_migrateRevisionsForUser|].
    intros [[]|e] _.
    + apply (holds_bind _ (fun _ => True)); [apply holds_perform|].
      intros _ _.
      apply (holds_bind _ (fun _ => True)); [apply kept_checkIntegrity|].
      intros verdict _. apply kept_finish.
    + apply (holds_bind _ (fun _ => True));
        [apply holds_updateTransitionStatus|].
      intros; by apply holds_ret.
Qed.

End Keeping.

(** X20. Whatever the repositories do, [execute] removes from primary no
    revision other than a copy, by identifier and owner, of a revision that
    the user has in the secondary store. *)
Theorem execute_keeps_unrelated (this : UseCase) (dto : DTO) (user : string)
    (w : World) (r : Revision) :
  Uuid_create (dtoUserUuid dto) = Ok user ->
  r ∈ primaryDb (stores w) ->
  unrelated user (secondaryDb (stores w)) r ->
  r ∈ primaryDb (stores (execute this dto w).2).
Proof.
  intros Huser Hr Hunrelated.
  destruct (kept_execute user (primaryDb (stores w))
              (secondaryDb (stores w)) this dto Huser w) as [[_ Hkept] _].
  - split; [done|]. by intros.
  - by apply Hkept.
Qed.

End KeepingTheory.

Module TheoremsAtWork.

Import Revisions Scenarios FaultScenarios MigrationNotions CadenceNotions.
Import KeepingNotions.
Import MigrationTheory IsolationTheory FailureTheory RerunTheory
  CadenceTheory VerifierTheory KeepingTheory.

Lemma unmigrated_ids :
  NoDup (map revisionId (revisionsOf user0 (secondaryDb (stores unmigrated)))).
Proof. apply (bool_decide_unpack _). vm_compute. exact I. Defined.

Lemma unmigrated_valid :
  Forall (fun r => isValidUuid (revisionId r) = true)
    (revisionsOf user0 (secondaryDb (stores unmigrated))).
Proof. repeat constructor. Defined.

Lemma migration_complete_witness :
  exists w',
    migrateRevisionsForUser useCase user0 7 unmigrated = (inr (Ok tt), w')
    /\ Forall (accepts (primaryDb (stores w')) user0) [revisionA; revisionB]
    /\ pagingProgress (stores w') !! user0 = Some 1.
Proof.
  destruct (migration_complete useCase user0 7 unmigrated)
    as (w' & Hrun & _ & Haccepted & _ & Hcursor).
  - intros n. reflexivity.
  - reflexivity.
  - exact unmigrated_ids.
  - exact unmigrated_valid.
  - exists w'. split; [exact Hrun|]. split; [exact Haccepted|].
    apply Hcursor. discriminate.
Defined.

Lemma migration_resumes_witness :
  exists w',
    migrateRevisionsForUser useCase user0 7 resumed = (inr (Ok tt), w')
    /\ primaryDb (stores w') = map numbered (seq 0 12)
    /\ pagingProgress (stores w') !! user0 = Some 3.
Proof.
  destruct (migration_resumes useCase user0 7 resumed)
    as (w' & Hrun & Hprimary & _ & Hcursor & _).
  - intros n. reflexivity.
  - exists w'. split; [exact Hrun|]. split.
    + rewrite Hprimary. vm_compute. reflexivity.
    + rewrite Hcursor. vm_compute. reflexivity.
Defined.

Lemma execute_migrates_witness :
  exists w',
    execute useCase request unmigrated = (inr (Ok tt), w')
    /\ revisionsOf user0 (secondaryDb (stores w')) = []
    /\ Forall (accepts (primaryDb (stores w')) user0) [revisionA; revisionB]
    /\ last (publishedStatuses (history w')) = Some Verified.
Proof.
  destruct (execute_migrates useCase request user0 unmigrated)
    as (w' & Hrun & Hnone & Haccepted & Hlast & _).
  - reflexivity.
  - reflexivity.
  - reflexivity.
  - intros n. reflexivity.
  - reflexivity.
  - exact unmigrated_ids.
  - exact unmigrated_valid.
  - exists w'. split; [exact Hrun|]. split; [exact Hnone|].
    split; [exact Haccepted|exact Hlast].
Defined.

Lemma migrateRevision_idempotent_witness :
  exists w1 w2,
    migrateRevision revisionA conflict = (inr tt, w1)
    /\ migrateRevision revisionA w1 = (inr tt, w2)
    /\ stores w2 = stores w1.
Proof.
  apply (migrateRevision_idempotent revisionA conflict).
  intros n. reflexivity.
Defined.

Lemma execute_rerun_witness :
  exists w2,
    execute useCase request (execute useCase request unmigrated).2
    = (inr (Ok tt), w2)
    /\ stores w2 = stores (execute useCase request unmigrated).2.
Proof.
  destruct (execute_rerun useCase request user0 unmigrated
              (execute useCase request unmigrated).2)
    as (w2 & Hrun & Hstores & _).
  - reflexivity.
  - reflexivity.
  - reflexivity.
  - intros n. reflexivity.
  - vm_compute. reflexivity.
  - exists w2. split; [exact Hrun|exact Hstores].
Defined.

Lemma checkIntegrity_decides_witness :
  exists result w',
    checkIntegrityBetweenPrimaryAndSecondaryDatabase useCase user0 conflict
    = (inr result, w')
    /\ isFailed result = true.
Proof.
  destruct (checkIntegrity_decides useCase user0 conflict)
    as (result & w' & Hrun & Hverdict & Hfailed).
  - intros n. reflexivity.
  - reflexivity.
  - exists result, w'. split; [exact Hrun|]. apply Hfailed.
    intros Hok. apply Hverdict in Hok as [_ Hall].
    apply Forall_inv in Hall.
    destruct Hall as (_ & found & Hfound & Hverdict').
    vm_compute in Hfound. injection Hfound as <-.
    destruct Hverdict' as [Hnewer|Hsame]; [simpl in Hnewer; lia|].
    discriminate.
Defined.

Lemma execute_leaves_others_witness :
  othersUntouched user0 (stores cleanupFails)
    (stores (execute useCase request cleanupFails).2).
Proof. apply execute_leaves_others. reflexivity. Defined.

Lemma execute_migration_failure_witness :
  exists w' trace,
    execute useCase request countFails
    = (inr (Fail ("Errored when migrating revisions for user " +:+ user0
                  +:+ ": connection lost")), w')
    /\ history w' = (history countFails ++ trace)%list
    /\ publishedStatuses trace = [InProgress; Failed]
    /\ stores w' = stores countFails.
Proof.
  destruct (execute_migration_failure useCase request user0
              "connection lost" countFails)
    as (w' & trace & Hrun & Hhistory & Hstatuses & _ & Hstores).
  - reflexivity.
  - reflexivity.
  - reflexivity.
  - reflexivity.
  - discriminate.
  - reflexivity.
  - exists w', trace. split; [exact Hrun|]. split; [exact Hhistory|].
    split; [exact Hstatuses|exact Hstores].
Defined.


Lemma migrateRevision_can_lose_copy_witness :
  exists w',
    migrateRevision revisionA insertThrows = (inr tt, w')
    /\ lookupRevision (revisionId revisionA) user0 (primaryDb (stores w'))
       = None.
Proof.
  destruct (migrateRevision_can_lose_copy revisionA staleA "connection lost"
              insertThrows)
    as (w' & Hrun & Hnone & _).
  - reflexivity.
  - reflexivity.
  - simpl. lia.
  - discriminate.
  - reflexivity.
  - reflexivity.
  - reflexivity.
  - exists w'. split; [exact Hrun|exact Hnone].
Defined.

Lemma migration_keepalives_capped_witness :
  exists trace,
    history (migrateRevisionsForUser useCase user0 7 fresh).2
    = (history fresh ++ trace)%list
    /\ (length (publishedStatuses trace) <= 10)%nat.
Proof.
  apply (migration_keepalives_capped useCase user0 7 fresh).
  vm_compute. discriminate.
Defined.

Lemma execute_keeps_unrelated_witness :
  numbered 0 ∈ primaryDb (stores (execute useCase request missing).2).
Proof.
  apply (execute_keeps_unrelated useCase request user0 missing (numbered 0)).
  - reflexivity.
  - simpl. left.
  - intros x Hx [Hid _].
    assert (revisionsOf user0 (secondaryDb (stores missing))
            = [revisionA; revisionB]) as Heq by reflexivity.
    rewrite Heq in Hx.
    apply elem_of_cons in Hx as [ -> | Hx ].
    + vm_compute in Hid. discriminate Hid.
    + apply list_elem_of_singleton in Hx as ->.
      vm_compute in Hid. discriminate Hid.
Defined.

End TheoremsAtWork.
